(** * Lernfabrik simulation: a shallow embedding of the simulation engine

    The development follows the Python sources of [learning_factory]:
    - [config.py]    ([load_config]),
    - [stations.py]  (metric helpers, reliability helpers, the serial and
                      the priority station runner),
    - [flows.py]     (the two arrival sources),
    - [simulate.py]  (the reverse stage, the sampler, [run_simulation]).

    Conventions of the embedding.
    - Python floats are modelled as rationals ([Q]); comparisons are the
      boolean ones of [QArith], so everything stays executable.
    - A generator is modelled by the program point of the [yield] it is
      suspended at, together with its local variables; resuming it runs the
      code up to the next [yield].
    - The SimPy environment is modelled by an explicit scheduler state:
      virtual time, the stores, the worker container and the status of
      every process.  A request is tried when it is yielded, as SimPy does;
      a queued request may succeed later ([Grant]), a timeout fires at its
      time ([Wake]), and the clock moves on only when no process is
      runnable and never past a pending timeout ([Tick]).
    - Scheduling choices and random draws are supplied from outside (an
      action list).  SimPy's first-come order among equal-time events and
      the seeded generator fix one such list, so every run of the program
      is a run of the model.
    - Of what [run_simulation] returns, the [kpi_stations] table (as a map,
      without the order of its rows) and the reman share are modelled; of
      the three tables it sorts without a guard ([kpi_wip_now],
      [kpi_wip_peak], [kpi_downtime]) only whether sorting them raises; how
      pandas builds the other tables is not.
    - Rounding to two decimals is the one place where the float nearest to
      a rational decides the result: at an exact tie the neighbour is left
      to a parameter of [round2]. *)

From Stdlib Require Import QArith Qround Lia Lqa ZArith Ascii String.
From stdpp Require Import gmap strings list fin_maps pretty.

Local Open Scope Z_scope.

(** ** Python numerics *)

Module Py.

(** [a > b] and [a < b] on floats. *)
Definition gt (a b : Q) : bool := negb (Qle_bool a b).
Definition lt (a b : Q) : bool := negb (Qle_bool b a).
Definition ge (a b : Q) : bool := Qle_bool b a.
Definition le (a b : Q) : bool := Qle_bool a b.

(** [max(a, b)]: the first argument unless the second is larger. *)
Definition max (a b : Q) : Q := if gt b a then b else a.

(** [int(x)] on a float: truncation toward zero. *)
Definition int (x : Q) : Z := Z.quot (Qnum x) (Zpos (Qden x)).

(** [round(x)]: nearest integer, ties to the even neighbour. *)
Definition round (x : Q) : Z :=
  let f := Qfloor x in
  let r := (x - inject_Z f)%Q in
  if lt r (1 # 2) then f
  else if gt r (1 # 2) then f + 1
  else if Z.even f then f else f + 1.

(** [round(x, 2)].  Python rounds the float nearest to [x]: away from a
    decimal tie the result is the nearest hundredth, but at an exact tie (as
    1.015, whose float lies below it) the neighbour returned depends on the
    binary representation.  [up] says which neighbour that is, and is
    supplied from outside. *)
Definition round2 (up : bool) (x : Q) : Q :=
  let y := (x * 100)%Q in
  let f := Qfloor y in
  let r := (y - inject_Z f)%Q in
  (inject_Z (if lt r (1 # 2) then f
             else if gt r (1 # 2) then f + 1
             else if up then f + 1 else f) / 100)%Q.

End Py.

(** ** Data model *)

(** A token is either the dict built by [new_orders_source]
    ([{"id": "NEW-00001", "type": "new", "t_created": now}]) or the bare
    string built by [returns_source] (["RET-00001"]). *)
Inductive Token :=
| NewTok (id : string) (t_created : Q)
| RetTok (id : string).

(** [f"{n:05d}"]: decimal, left-padded with zeros to five characters. *)
Definition pad5 (n : nat) : string :=
  let s := pretty n in
  String.concat "" (replicate (5 - String.length s)%nat "0") +:+ s.

(** A [simpy.Store]: the item list and the capacity. *)
Record Store := mkStore { items : list Token; capacity : Z }.

(** The [simpy.Container] of worker units. *)
Record Container := mkContainer { level : Z; pool_capacity : Z }.

(** The shared [metrics] dict.  The two [pressen1_*] keys are absent until
    the first increment; the nested [resources] and [inproc_*] dicts are
    created on first use, an absent dict reading as the empty map. *)
Record Metrics := mkMetrics {
  arrivals_new : Z;
  lost_new_due_to_neu_lager_full : Z;
  arrivals_returns : Z;
  throughput_kunde : Z;
  station_output : gmap string Z;
  station_busy_time : gmap string Q;
  station_downtime : gmap string Q;
  station_intensity : gmap string (Q * Q);
  resources_kwh : gmap string Q;
  resources_air_m3 : gmap string Q;
  inproc_now : gmap string Z;
  inproc_peak : gmap string Z;
  pressen1_from_reman : option Z;
  pressen1_from_new : option Z
}.

Definition set_arrivals_new (v : Z) (m : Metrics) : Metrics :=
  mkMetrics v (lost_new_due_to_neu_lager_full m) (arrivals_returns m)
    (throughput_kunde m) (station_output m) (station_busy_time m)
    (station_downtime m) (station_intensity m) (resources_kwh m)
    (resources_air_m3 m) (inproc_now m) (inproc_peak m)
    (pressen1_from_reman m) (pressen1_from_new m).

Definition set_lost_new (v : Z) (m : Metrics) : Metrics :=
  mkMetrics (arrivals_new m) v (arrivals_returns m)
    (throughput_kunde m) (station_output m) (station_busy_time m)
    (station_downtime m) (station_intensity m) (resources_kwh m)
    (resources_air_m3 m) (inproc_now m) (inproc_peak m)
    (pressen1_from_reman m) (pressen1_from_new m).

Definition set_arrivals_returns (v : Z) (m : Metrics) : Metrics :=
  mkMetrics (arrivals_new m) (lost_new_due_to_neu_lager_full m) v
    (throughput_kunde m) (station_output m) (station_busy_time m)
    (station_downtime m) (station_intensity m) (resources_kwh m)
    (resources_air_m3 m) (inproc_now m) (inproc_peak m)
    (pressen1_from_reman m) (pressen1_from_new m).

Definition set_throughput_kunde (v : Z) (m : Metrics) : Metrics :=
  mkMetrics (arrivals_new m) (lost_new_due_to_neu_lager_full m)
    (arrivals_returns m) v (station_output m) (station_busy_time m)
    (station_downtime m) (station_intensity m) (resources_kwh m)
    (resources_air_m3 m) (inproc_now m) (inproc_peak m)
    (pressen1_from_reman m) (pressen1_from_new m).

Definition set_station_results (out : gmap string Z) (busy down : gmap string Q)
    (m : Metrics) : Metrics :=
  mkMetrics (arrivals_new m) (lost_new_due_to_neu_lager_full m)
    (arrivals_returns m) (throughput_kunde m) out busy down
    (station_intensity m) (resources_kwh m)
    (resources_air_m3 m) (inproc_now m) (inproc_peak m)
    (pressen1_from_reman m) (pressen1_from_new m).

Definition set_resources (kwh air : gmap string Q) (m : Metrics) : Metrics :=
  mkMetrics (arrivals_new m) (lost_new_due_to_neu_lager_full m)
    (arrivals_returns m) (throughput_kunde m) (station_output m)
    (station_busy_time m) (station_downtime m) (station_intensity m)
    kwh air (inproc_now m) (inproc_peak m)
    (pressen1_from_reman m) (pressen1_from_new m).

Definition set_inproc (now peak : gmap string Z) (m : Metrics) : Metrics :=
  mkMetrics (arrivals_new m) (lost_new_due_to_neu_lager_full m)
    (arrivals_returns m) (throughput_kunde m) (station_output m)
    (station_busy_time m) (station_downtime m) (station_intensity m)
    (resources_kwh m) (resources_air_m3 m) now peak
    (pressen1_from_reman m) (pressen1_from_new m).

Definition set_pressen1_mix (reman new : option Z) (m : Metrics) : Metrics :=
  mkMetrics (arrivals_new m) (lost_new_due_to_neu_lager_full m)
    (arrivals_returns m) (throughput_kunde m) (station_output m)
    (station_busy_time m) (station_downtime m) (station_intensity m)
    (resources_kwh m) (resources_air_m3 m) (inproc_now m) (inproc_peak m)
    reman new.

(** ** stations.py: small helpers *)

(** [d.setdefault(k, v)] on a dict entry. *)
Definition setdefault {V} (k : string) (v : V) (d : gmap string V) : gmap string V :=
  match d !! k with Some _ => d | None => <[k := v]> d end.

(** [d[k]] once [setdefault] made the key present; [dflt] is never read then. *)
Definition getd {V} (k : string) (dflt : V) (d : gmap string V) : V :=
  default dflt (d !! k).

Definition _add_resources (metrics : Metrics) (station_name : string) (kwh air : Q)
    : Metrics :=
  let k0 := setdefault station_name 0%Q (resources_kwh metrics) in
  let k1 := <[station_name := (getd station_name 0 k0 + kwh)%Q]> k0 in
  let a0 := setdefault station_name 0%Q (resources_air_m3 metrics) in
  let a1 := <[station_name := (getd station_name 0 a0 + air)%Q]> a0 in
  set_resources k1 a1 metrics.

Definition _ensure_inproc_metrics (metrics : Metrics) (station_name : string)
    : Metrics :=
  set_inproc (setdefault station_name 0 (inproc_now metrics))
             (setdefault station_name 0 (inproc_peak metrics)) metrics.

Definition _begin_processing (metrics : Metrics) (station_name : string) : Metrics :=
  let m := _ensure_inproc_metrics metrics station_name in
  let n := getd station_name 0 (inproc_now m) + 1 in
  let now' := <[station_name := n]> (inproc_now m) in
  if n >? getd station_name 0 (inproc_peak m)
  then set_inproc now' (<[station_name := n]> (inproc_peak m)) m
  else set_inproc now' (inproc_peak m) m.

Definition _end_processing (metrics : Metrics) (station_name : string) : Metrics :=
  let m := _ensure_inproc_metrics metrics station_name in
  set_inproc
    (<[station_name := Z.max 0 (getd station_name 0 (inproc_now m) - 1)]> (inproc_now m))
    (inproc_peak m) m.

(** A reliability dict; every key is optional in the configuration. *)
Record RelSpec := mkRelSpec {
  mtbf_min : option Q;
  mttr_min : option Q;
  mttr_dist : option string;
  mttr_sigma_min : option Q
}.

Definition empty_rel : RelSpec := mkRelSpec None None None None.

(** [out = dict(dflt); out.update(per)]: a key of [per] wins. *)
Definition rel_update (dflt per : RelSpec) : RelSpec :=
  mkRelSpec
    (match mtbf_min per with Some v => Some v | None => mtbf_min dflt end)
    (match mttr_min per with Some v => Some v | None => mttr_min dflt end)
    (match mttr_dist per with Some v => Some v | None => mttr_dist dflt end)
    (match mttr_sigma_min per with Some v => Some v | None => mttr_sigma_min dflt end).

(** The [reliability] section: [default] and the per-station overrides. *)
Record RelCfg := mkRelCfg {
  rel_default : option RelSpec;
  rel_stations : gmap string RelSpec
}.

Definition empty_rel_cfg : RelCfg := mkRelCfg None ∅.

Definition _reliab_for (station_id : string) (cfg_rel : RelCfg) : RelSpec :=
  let dflt := default empty_rel (rel_default cfg_rel) in
  let per := default empty_rel (rel_stations cfg_rel !! station_id) in
  let out := rel_update dflt per in
  mkRelSpec
    (Some (default (999999 # 1) (mtbf_min out)))
    (Some (default 0%Q (mttr_min out)))
    (Some (default "fixed"%string (mttr_dist out)))
    (Some (default 0%Q (mttr_sigma_min out))).

(** [_draw_mttr_min]; [gauss] is the value [random.gauss(mu, sigma)]
    returns when it is called. *)
Definition _draw_mttr_min (spec : RelSpec) (gauss : Q) : Q :=
  if String.eqb (default "fixed"%string (mttr_dist spec)) "normal"
  then Py.max 0 gauss
  else default 0%Q (mttr_min spec).

(** ** The SimPy interface seen by a process *)

(** What a process asks of a store or of the worker container. *)
Inductive Request :=
| RGet (store : string)
| RPut (store : string) (tok : Token)
| RPoolGet (amount : Z)
| RPoolPut (amount : Z).

(** What a generator hands back to the environment: the event it yields,
    or the end of the generator ([break] out of its loop). *)
Inductive Yield :=
| YTimeout (delay : Q)
| YRequest (r : Request)
| YReturn.

(** ** flows.py *)

Definition _should_stop (now : Q) (stop_at : option Q) : bool :=
  match stop_at with
  | Some sa => Py.ge now sa
  | None => false
  end.

(** The [yield] a source is suspended at. *)
Inductive SourcePc :=
| SRC_top          (* not started yet: the next resume enters the loop *)
| SRC_cutoff       (* [yield env.timeout(max(0, stop_at - env.now))] *)
| SRC_interarrival (* [yield env.timeout(inter)] / [yield env.timeout(dt)] *)
| SRC_put.         (* [yield neu.put(token)] / [yield buffers[...].put(token)] *)

(** Locals of [new_orders_source]: the number [next(counter)] returns next. *)
Record NewSrc := mkNewSrc { ns_pc : SourcePc; ns_counter : nat }.

(** Top of the [while True] loop of [new_orders_source]; [expo] is the value
    of [random.expovariate(rate)] when it is called. *)
Definition new_orders_top (rate : Q) (stop_at : option Q) (counter : nat)
    (now : Q) (expo : Q) : NewSrc * Yield :=
  if _should_stop now stop_at then (mkNewSrc SRC_top counter, YReturn)
  else
    let inter := if Py.gt rate 0 then expo else inject_Z (10 ^ 9) in
    match stop_at with
    | Some sa =>
        if Py.gt (now + inter) sa
        then (mkNewSrc SRC_cutoff counter, YTimeout (Py.max 0 (sa - now)))
        else (mkNewSrc SRC_interarrival counter, YTimeout inter)
    | None => (mkNewSrc SRC_interarrival counter, YTimeout inter)
    end.

(** One resume of [new_orders_source], up to its next [yield]. *)
Definition new_orders_source (rate : Q) (stop_at : option Q) (st : NewSrc)
    (now : Q) (buffers : gmap string Store) (metrics : Metrics) (expo : Q)
    : option (NewSrc * Metrics * Yield) :=
  match ns_pc st with
  | SRC_top =>
      let '(st', y) := new_orders_top rate stop_at (ns_counter st) now expo in
      Some (st', metrics, y)
  | SRC_cutoff => Some (st, metrics, YReturn)
  | SRC_interarrival =>
      let token := NewTok ("NEW-" +:+ pad5 (ns_counter st)) now in
      neu ← buffers !! "neu_lager";
      if Z.of_nat (length (items neu)) <? capacity neu
      then Some (mkNewSrc SRC_put (S (ns_counter st)), metrics,
                 YRequest (RPut "neu_lager" token))
      else
        let metrics' :=
          set_lost_new (lost_new_due_to_neu_lager_full metrics + 1) metrics in
        let '(st', y) := new_orders_top rate stop_at (S (ns_counter st)) now expo in
        Some (st', metrics', y)
  | SRC_put =>
      let metrics' := set_arrivals_new (arrivals_new metrics + 1) metrics in
      let '(st', y) := new_orders_top rate stop_at (ns_counter st) now expo in
      Some (st', metrics', y)
  end.

(** Locals of [returns_source]: [i], and the iterations of
    [for _ in range(batch_size)] still to run after the pending put. *)
Record RetSrc := mkRetSrc { rs_pc : SourcePc; rs_i : nat; rs_remaining : nat }.

(** [max(1, int(random.gauss(batch_mean, 1)))] for a drawn value. *)
Definition batch_size (gauss : Q) : Z := Z.max 1 (Py.int gauss).

(** Top of the [while True] loop of [returns_source]; [1.0 / inter] raises
    when [inter] is zero. *)
Definition returns_top (inter : Q) (stop_at : option Q) (i : nat)
    (now : Q) (expo : Q) : option (RetSrc * Yield) :=
  if _should_stop now stop_at then Some (mkRetSrc SRC_top i 0, YReturn)
  else if Qeq_bool inter 0 then None
  else
    let dt := expo in
    match stop_at with
    | Some sa =>
        if Py.gt (now + dt) sa
        then Some (mkRetSrc SRC_cutoff i 0, YTimeout (Py.max 0 (sa - now)))
        else Some (mkRetSrc SRC_interarrival i 0, YTimeout dt)
    | None => Some (mkRetSrc SRC_interarrival i 0, YTimeout dt)
    end.

(** One iteration of the [for] loop up to its [yield]: the next unit. *)
Definition returns_put_next (i remaining : nat) (buffers : gmap string Store)
    : option (RetSrc * Yield) :=
  _ ← buffers !! "warenannahme";
  Some (mkRetSrc SRC_put (S i) remaining,
        YRequest (RPut "warenannahme" (RetTok ("RET-" +:+ pad5 (S i))))).

(** One resume of [returns_source]; [gauss] is the value of
    [random.gauss(batch_mean, 1)] when it is called. *)
Definition returns_source (inter : Q) (stop_at : option Q) (st : RetSrc)
    (now : Q) (buffers : gmap string Store) (metrics : Metrics) (expo gauss : Q)
    : option (RetSrc * Metrics * Yield) :=
  match rs_pc st with
  | SRC_top =>
      '(st', y) ← returns_top inter stop_at (rs_i st) now expo;
      Some (st', metrics, y)
  | SRC_cutoff => Some (st, metrics, YReturn)
  | SRC_interarrival =>
      '(st', y) ← returns_put_next (rs_i st)
                    (Z.to_nat (batch_size gauss) - 1) buffers;
      Some (st', metrics, y)
  | SRC_put =>
      let metrics' := set_arrivals_returns (arrivals_returns metrics + 1) metrics in
      match rs_remaining st with
      | O =>
          '(st', y) ← returns_top inter stop_at (rs_i st) now expo;
          Some (st', metrics', y)
      | S k =>
          '(st', y) ← returns_put_next (rs_i st) k buffers;
          Some (st', metrics', y)
      end
  end.

(** ** stations.py: the station runners *)

(** A float that may be [float("inf")] (the time to failure). *)
Inductive ExtQ := Fin (q : Q) | Inf.

(** [name.split("#", 1)[0]]: the part before the first ['#']. *)
Fixpoint split_hash (name : string) : string :=
  match name with
  | EmptyString => EmptyString
  | String c rest =>
      if Ascii.eqb c "#"%char then EmptyString else String c (split_hash rest)
  end.

(** The [yield] a station runner is suspended at. *)
Inductive StationPc :=
| ST_start     (* not started yet *)
| ST_poll      (* [yield env.timeout(poll_dt_min)]   (priority runner only) *)
| ST_get       (* [item = yield input_store.get()] / [yield src.get()] *)
| ST_pool_get  (* [yield workers_pool.get(workers_required)] *)
| ST_process   (* [yield env.timeout(ct_min)] *)
| ST_pool_put  (* [yield workers_pool.put(workers_required)] *)
| ST_out_put   (* [yield output_store.put(item)] *)
| ST_repair.   (* [yield env.timeout(repair)] *)

(** The arguments a runner is started with.  Stores are passed by the name
    under which [buffers] holds them. *)
Record StationArgs := mkStationArgs {
  st_name : string;
  st_inputs : list string;     (* [input_store], or [input_stores_in_priority] *)
  st_output : string;
  st_cycle_time_s : Q;
  st_workers_required : Z;
  st_poll_dt_min : Q;
  st_reliability_cfg : RelCfg  (* [reliability_cfg or {}] *)
}.

(** The local variables of a runner. *)
Record StationLocal := mkStationLocal {
  st_pc : StationPc;
  busy : Q;
  produced : Z;
  downtime : Q;
  ttf : ExtQ;
  item : option Token;
  start : Q;
  src : option string;
  repair : Q
}.

Definition station_initial : StationLocal :=
  mkStationLocal ST_start 0 0 0 Inf None 0 None 0.

Definition base_id (a : StationArgs) : string := split_hash (st_name a).

Definition rel_spec (a : StationArgs) : RelSpec :=
  _reliab_for (base_id a) (st_reliability_cfg a).

Definition station_mtbf_min (a : StationArgs) : Q :=
  default (999999 # 1) (mtbf_min (rel_spec a)).

(** [random.expovariate(1.0 / mtbf_min) if mtbf_min > 0 else float("inf")]. *)
Definition draw_ttf (a : StationArgs) (expo : Q) : ExtQ :=
  if Py.gt (station_mtbf_min a) 0 then Fin expo else Inf.

Definition ct_min (a : StationArgs) : Q := (st_cycle_time_s a / 60)%Q.

(** [workers_pool is not None and workers_required > 0]. *)
Definition uses_workers (has_pool : bool) (a : StationArgs) : bool :=
  has_pool && (st_workers_required a >? 0).

(** The scan of [run_priority_station]: the first store of the list with
    [len(st.items) > 0]. *)
Definition select_source (inputs : list string) (buffers : gmap string Store)
    : option string :=
  List.find (fun b => match buffers !! b with
                      | Some st => (0 <? Z.of_nat (length (items st)))
                      | None => false
                      end) inputs.

(** Top of the outer [while True] loop.  The serial runner yields the get on
    its input store; the priority runner scans, and either yields the get on
    the selected store or the polling timeout. *)
Definition station_top (priority : bool) (a : StationArgs) (l : StationLocal)
    (buffers : gmap string Store) : option (StationLocal * Yield) :=
  if priority then
    match select_source (st_inputs a) buffers with
    | Some s =>
        Some (mkStationLocal ST_get (busy l) (produced l) (downtime l) (ttf l)
                (item l) (start l) (Some s) (repair l),
              YRequest (RGet s))
    | None =>
        Some (mkStationLocal ST_poll (busy l) (produced l) (downtime l) (ttf l)
                (item l) (start l) None (repair l),
              YTimeout (st_poll_dt_min a))
    end
  else
    input ← head (st_inputs a);
    Some (mkStationLocal ST_get (busy l) (produced l) (downtime l) (ttf l)
            (item l) (start l) (src l) (repair l),
          YRequest (RGet input)).

(** [# process]: enter processing and yield the cycle-time timeout. *)
Definition station_process (a : StationArgs) (l : StationLocal)
    (now : Q) (metrics : Metrics) : StationLocal * Metrics * Yield :=
  (mkStationLocal ST_process (busy l) (produced l) (downtime l) (ttf l)
     (item l) now (src l) (repair l),
   _begin_processing metrics (base_id a),
   YTimeout (ct_min a)).

(** [# output]: yield the put of the item on the output store. *)
Definition station_publish (a : StationArgs) (l : StationLocal)
    : option (StationLocal * Yield) :=
  tok ← item l;
  Some (mkStationLocal ST_out_put (busy l) (produced l) (downtime l) (ttf l)
          (item l) (start l) (src l) (repair l),
        YRequest (RPut (st_output a) tok)).

(** [# metrics update]: the three per-station entries are overwritten with
    the runner's local totals. *)
Definition metrics_update (a : StationArgs) (l : StationLocal) (metrics : Metrics)
    : Metrics :=
  set_station_results
    (<[base_id a := produced l]> (station_output metrics))
    (<[base_id a := busy l]> (station_busy_time metrics))
    (<[base_id a := downtime l]> (station_downtime metrics))
    metrics.

(** [# pressen_1 mix] of the priority runner. *)
Definition pressen1_mix (a : StationArgs) (l : StationLocal) (metrics : Metrics)
    : Metrics :=
  if String.eqb (base_id a) "pressen_1" then
    if bool_decide (src l ∈ (Some <$> take 2 (st_inputs a)))
    then set_pressen1_mix (Some (default 0 (pressen1_from_reman metrics) + 1))
           (pressen1_from_new metrics) metrics
    else set_pressen1_mix (pressen1_from_reman metrics)
           (Some (default 0 (pressen1_from_new metrics) + 1)) metrics
  else metrics.

Definition ext_sub (t : ExtQ) (d : Q) : ExtQ :=
  match t with Fin q => Fin (q - d) | Inf => Inf end.

Definition ext_le0 (t : ExtQ) : bool :=
  match t with Fin q => Py.le q 0 | Inf => false end.

Definition set_pc (pc : StationPc) (l : StationLocal) : StationLocal :=
  mkStationLocal pc (busy l) (produced l) (downtime l) (ttf l)
    (item l) (start l) (src l) (repair l).

(** One resume of a station runner, up to its next [yield].  [value] is what
    the triggered event delivers (the token of a store get); [expo] and
    [gauss] are the values of [random.expovariate] and [random.gauss] when
    they are called. *)
Definition run_station (priority : bool) (a : StationArgs) (l : StationLocal)
    (value : option Token) (now : Q) (buffers : gmap string Store)
    (has_pool : bool) (metrics : Metrics) (expo gauss : Q)
    : option (StationLocal * Metrics * Yield) :=
  match st_pc l with
  | ST_start =>
      let l0 := mkStationLocal ST_start 0 0 0 (draw_ttf a expo) None 0 None 0 in
      '(l', y) ← station_top priority a l0 buffers;
      Some (l', metrics, y)
  | ST_poll =>
      '(l', y) ← station_top priority a l buffers;
      Some (l', metrics, y)
  | ST_get =>
      tok ← value;
      let l1 := mkStationLocal ST_get (busy l) (produced l) (downtime l) (ttf l)
                  (Some tok) (start l) (src l) (repair l) in
      if uses_workers has_pool a
      then Some (set_pc ST_pool_get l1, metrics,
                 YRequest (RPoolGet (st_workers_required a)))
      else Some (station_process a l1 now metrics)
  | ST_pool_get => Some (station_process a l now metrics)
  | ST_process =>
      let l1 := mkStationLocal ST_process (busy l + (now - start l))%Q (produced l)
                  (downtime l) (ttf l) (item l) (start l) (src l) (repair l) in
      let metrics' := _end_processing metrics (base_id a) in
      if uses_workers has_pool a
      then Some (set_pc ST_pool_put l1, metrics',
                 YRequest (RPoolPut (st_workers_required a)))
      else '(l', y) ← station_publish a l1; Some (l', metrics', y)
  | ST_pool_put =>
      '(l', y) ← station_publish a l; Some (l', metrics, y)
  | ST_out_put =>
      let ints := default (0%Q, 0%Q) (station_intensity metrics !! base_id a) in
      let m1 := _add_resources metrics (base_id a) (fst ints) (snd ints) in
      let m2 := if priority then pressen1_mix a l m1 else m1 in
      let t := ext_sub (ttf l) (ct_min a) in
      let l1 := mkStationLocal ST_out_put (busy l) (produced l + 1) (downtime l) t
                  (item l) (start l) (src l) (repair l) in
      if ext_le0 t then
        let r := _draw_mttr_min (rel_spec a) gauss in
        if Py.gt r 0 then
          Some (mkStationLocal ST_repair (busy l1) (produced l1) (downtime l1) t
                  (item l1) (start l1) (src l1) r,
                m2, YTimeout r)
        else
          let l2 := mkStationLocal ST_out_put (busy l1) (produced l1) (downtime l1)
                      (draw_ttf a expo) (item l1) (start l1) (src l1) r in
          '(l', y) ← station_top priority a l2 buffers;
          Some (l', metrics_update a l2 m2, y)
      else
        '(l', y) ← station_top priority a l1 buffers;
        Some (l', metrics_update a l1 m2, y)
  | ST_repair =>
      let l1 := mkStationLocal ST_repair (busy l) (produced l)
                  (downtime l + repair l)%Q (draw_ttf a expo)
                  (item l) (start l) (src l) (repair l) in
      '(l', y) ← station_top priority a l1 buffers;
      Some (l', metrics_update a l1 metrics, y)
  end.

Definition run_serial_station := run_station false.

(** ** simulate.py: configuration and the remaining processes *)

(** One entry of [forward_flow]; every key but ["id"] is read with [.get]. *)
Record Step := mkStep {
  step_id : string;
  step_type : option string;
  cycle_time_s : option Q;
  machines : option Z;
  workers_required : option Z;
  kwh_per_unit : option Q;
  air_m3_per_unit : option Q
}.

(** The parameters [run_simulation] reads from the configuration dict,
    after their [float]/[int] conversion. *)
Record Config := mkConfig {
  horizon_min : Q;
  warmdown_min : option Q;
  sample_every_min : option Q;
  buffers_cfg : list (string * Z);
  workers_total : option Z;
  forward_flow : list Step;
  rate_per_min : Q;
  interarrival_min : Q;
  batch_mean : Q;
  shortcut_delay_min : option Q;
  reliability : option RelCfg;
  intensity_defaults : option Q * option Q
}.

Definition is_process (s : Step) : bool :=
  String.eqb (default "process"%string (step_type s)) "process".

Definition total_route_time_min (cfg : Config) : Q :=
  (fold_left (fun secs s =>
                if is_process s then secs + default 0 (cycle_time_s s) else secs)
             (forward_flow cfg) 0 / 60)%Q.

Definition _reliability_cfg (cfg : Config) : RelCfg :=
  default empty_rel_cfg (reliability cfg).

Definition _station_workers_lookup (cfg : Config) : gmap string Z :=
  fold_left (fun m s =>
               if is_process s
               then <[step_id s := default 0 (workers_required s)]> m else m)
            (forward_flow cfg) ∅.

(** [reverse_shortcut]; [held] is [item] between the get and the put. *)
Inductive ShortcutPc := SC_start | SC_get | SC_delay | SC_put.

Definition reverse_shortcut (delay_min : Q) (pc : ShortcutPc) (held : option Token)
    (value : option Token) (buffers : gmap string Store)
    : option (ShortcutPc * option Token * Yield) :=
  match pc with
  | SC_start =>
      _ ← buffers !! "warenannahme";
      _ ← buffers !! "reman_lager";
      Some (SC_get, None, YRequest (RGet "warenannahme"))
  | SC_get => tok ← value; Some (SC_delay, Some tok, YTimeout delay_min)
  | SC_delay => tok ← held; Some (SC_put, held, YRequest (RPut "reman_lager" tok))
  | SC_put => Some (SC_get, None, YRequest (RGet "warenannahme"))
  end.

Inductive MergePc := MF_start | MF_get | MF_put.

Definition reman_merge_feeder (pc : MergePc) (toggle : nat) (value : option Token)
    (buffers : gmap string Store) : option (MergePc * nat * Yield) :=
  match pc with
  | MF_start =>
      _ ← buffers !! "reman_lager";
      _ ← buffers !! "lager1";
      _ ← buffers !! "lager2";
      Some (MF_get, 0%nat, YRequest (RGet "reman_lager"))
  | MF_get =>
      tok ← value;
      Some (MF_put, toggle,
            YRequest (RPut (if Nat.even toggle then "lager1" else "lager2") tok))
  | MF_put => Some (MF_get, S toggle, YRequest (RGet "reman_lager"))
  end.

(** A row of the inventory time series. *)
Record Row := mkRow {
  time_min : Q;
  row_buffers : gmap string nat;
  row_inproc : gmap string Z
}.

Definition sampler (sample_every_min : Q) (inventory_rows : list Row)
    (now : Q) (buffers : gmap string Store) (metrics : Metrics)
    : list Row * Yield :=
  (inventory_rows ++
     [mkRow now ((fun st => length (items st)) <$> buffers) (inproc_now metrics)],
   YTimeout sample_every_min).

(** [sink_consumer]; [started] is false before its first resume. *)
Definition sink_consumer (input_store : string) (started : bool) (metrics : Metrics)
    : bool * Metrics * Yield :=
  (true,
   if started then set_throughput_kunde (throughput_kunde metrics + 1) metrics
   else metrics,
   YRequest (RGet input_store)).

(** ** The environment *)

(** The generators registered with [env.process]. *)
Inductive Body :=
| BNew (rate : Q) (stop_at : option Q) (st : NewSrc)
| BReturns (inter : Q) (stop_at : option Q) (st : RetSrc)
| BShortcut (delay_min : Q) (pc : ShortcutPc) (held : option Token)
| BMerge (pc : MergePc) (toggle : nat)
| BStation (priority : bool) (a : StationArgs) (l : StationLocal)
| BSink (input_store : string) (started : bool)
| BSampler (sample_every_min : Q) (inventory_rows : list Row).

(** Resume a generator with the value of the event it waited for. *)
Definition resume_body (b : Body) (value : option Token) (now : Q)
    (buffers : gmap string Store) (has_pool : bool) (metrics : Metrics)
    (expo gauss : Q) : option (Body * Metrics * Yield) :=
  match b with
  | BNew rate stop_at st =>
      '(st', m, y) ← new_orders_source rate stop_at st now buffers metrics expo;
      Some (BNew rate stop_at st', m, y)
  | BReturns inter stop_at st =>
      '(st', m, y) ← returns_source inter stop_at st now buffers metrics expo gauss;
      Some (BReturns inter stop_at st', m, y)
  | BShortcut delay pc held =>
      '(pc', held', y) ← reverse_shortcut delay pc held value buffers;
      Some (BShortcut delay pc' held', metrics, y)
  | BMerge pc toggle =>
      '(pc', toggle', y) ← reman_merge_feeder pc toggle value buffers;
      Some (BMerge pc' toggle', metrics, y)
  | BStation priority a l =>
      '(l', m, y) ← run_station priority a l value now buffers has_pool metrics
                      expo gauss;
      Some (BStation priority a l', m, y)
  | BSink input started =>
      let '(started', m, y) := sink_consumer input started metrics in
      Some (BSink input started', m, y)
  | BSampler every rows =>
      let '(rows', y) := sampler every rows now buffers metrics in
      Some (BSampler every rows', metrics, y)
  end.

(** The state of a process in the environment: resumable with a value,
    waiting for a point in time, queued on a store or on the container, or
    ended. *)
Inductive Status :=
| Ready (value : option Token)
| Sleeping (until : Q)
| Blocked (r : Request)
| Finished.

(** [holding] counts the worker units the container granted to the process
    and the process has not put back; the program does not store it. *)
Record Proc := mkProc { status : Status; holding : Z; body : Body }.

Record Sim := mkSim {
  now : Q;
  buffers : gmap string Store;
  workers_pool : option Container;
  metrics : Metrics;
  procs : list Proc
}.

(** [_do_get] / [_do_put] of [Store] and [Container]: the request succeeds
    now, or stays queued.  The last component is the change of the units the
    requester holds. *)
Definition do_request (r : Request) (bufs : gmap string Store)
    (pool : option Container)
    : option (gmap string Store * option Container * option Token * Z) :=
  match r with
  | RGet b =>
      st ← bufs !! b;
      match items st with
      | tok :: rest =>
          Some (<[b := mkStore rest (capacity st)]> bufs, pool, Some tok, 0)
      | [] => None
      end
  | RPut b tok =>
      st ← bufs !! b;
      if Z.of_nat (length (items st)) <? capacity st
      then Some (<[b := mkStore (items st ++ [tok]) (capacity st)]> bufs,
                 pool, None, 0)
      else None
  | RPoolGet n =>
      c ← pool;
      if n <=? level c
      then Some (bufs, Some (mkContainer (level c - n) (pool_capacity c)), None, n)
      else None
  | RPoolPut n =>
      c ← pool;
      if n <=? pool_capacity c - level c
      then Some (bufs, Some (mkContainer (level c + n) (pool_capacity c)), None, - n)
      else None
  end.

(** Creating the event raises for a negative delay and for a container
    amount that is not positive. *)
Definition yield_ok (y : Yield) : bool :=
  match y with
  | YTimeout d => Py.ge d 0
  | YRequest (RPoolGet n) | YRequest (RPoolPut n) => 0 <? n
  | _ => true
  end.

(** The event a generator yields is created at once: a timeout is scheduled,
    a request is tried and succeeds now or stays queued. *)
Definition settle (y : Yield) (now : Q) (bufs : gmap string Store)
    (pool : option Container)
    : gmap string Store * option Container * Status * Z :=
  match y with
  | YTimeout d => (bufs, pool, Sleeping (now + d), 0)
  | YRequest r =>
      match do_request r bufs pool with
      | Some (bufs', pool', v, d) => (bufs', pool', Ready v, d)
      | None => (bufs, pool, Blocked r, 0)
      end
  | YReturn => (bufs, pool, Finished, 0)
  end.

(** What the scheduler may do next. *)
Inductive Action :=
| Tick (t : Q)                  (* advance the clock to the next event time *)
| Wake (i : nat)                (* the timeout of process [i] fires *)
| Grant (i : nat)               (* the queued request of process [i] succeeds *)
| Resume (i : nat) (expo gauss : Q). (* process [i] runs to its next [yield] *)

Definition can_tick (t : Q) (p : Proc) : bool :=
  match status p with
  | Ready _ => false
  | Sleeping u => Py.le t u
  | _ => true
  end.

(** [workers_pool is not None]. *)
Definition has_pool (s : Sim) : bool :=
  match workers_pool s with Some _ => true | None => false end.

Definition sim_step (a : Action) (s : Sim) : option Sim :=
  match a with
  | Tick t =>
      if Py.le (now s) t && forallb (can_tick t) (procs s)
      then Some (mkSim t (buffers s) (workers_pool s) (metrics s) (procs s))
      else None
  | Wake i =>
      p ← procs s !! i;
      match status p with
      | Sleeping u =>
          if Qeq_bool u (now s)
          then Some (mkSim (now s) (buffers s) (workers_pool s) (metrics s)
                       (<[i := mkProc (Ready None) (holding p) (body p)]> (procs s)))
          else None
      | _ => None
      end
  | Grant i =>
      p ← procs s !! i;
      match status p with
      | Blocked r =>
          '(bufs, pool, v, d) ← do_request r (buffers s) (workers_pool s);
          Some (mkSim (now s) bufs pool (metrics s)
                  (<[i := mkProc (Ready v) (holding p + d) (body p)]> (procs s)))
      | _ => None
      end
  | Resume i expo gauss =>
      p ← procs s !! i;
      match status p with
      | Ready v =>
          '(b, m, y) ← resume_body (body p) v (now s) (buffers s)
                         (has_pool s) (metrics s)
                         expo gauss;
          if yield_ok y then
            let '(bufs, pool, st, d) :=
              settle y (now s) (buffers s) (workers_pool s) in
            Some (mkSim (now s) bufs pool m
                    (<[i := mkProc st (holding p + d) b]> (procs s)))
          else None
      | _ => None
      end
  end.

(** A schedule is run action by action; it fails where an action is not
    possible or the program raises. *)
Fixpoint exec (sched : list Action) (s : Sim) : option Sim :=
  match sched with
  | [] => Some s
  | a :: rest => s' ← sim_step a s; exec rest s'
  end.

(** ** simulate.py: [run_simulation] *)

Definition ensure_buffer (bufs : gmap string Store) (name : string)
    : gmap string Store :=
  match bufs !! name with
  | Some _ => bufs
  | None => <[name := mkStore [] 999999]> bufs
  end.

(** The name of machine [m] (counted from zero) of a step. *)
Definition instance_name (sid : string) (n_machines : Z) (m : nat) : string :=
  if n_machines =? 1 then sid else sid +:+ "#" +:+ pretty (S m).

(** The runners registered for one step that is not the sink. *)
Definition step_bodies (rel_cfg : RelCfg) (step : Step) (prev out_name : string)
    (bufs : gmap string Store) : option (list Body) :=
  let n_machines := default 1 (machines step) in
  let wr := default 0 (workers_required step) in
  let ct_s := default (60 # 1) (cycle_time_s step) in
  if String.eqb (step_id step) "pressen_1" then
    _ ← bufs !! "lager1";
    _ ← bufs !! "lager2";
    _ ← bufs !! "neu_lager";
    Some [BStation true
            (mkStationArgs "pressen_1" ["lager1"; "lager2"; "neu_lager"]%string
               out_name ct_s wr (1 # 10) rel_cfg)
            station_initial]
  else if n_machines <=? 0 then Some []
  else
    _ ← bufs !! prev;
    Some (List.map
            (fun m => BStation false
                        (mkStationArgs (instance_name (step_id step) n_machines m)
                           [prev] out_name ct_s wr (1 # 10) rel_cfg)
                        station_initial)
            (seq 0 (Z.to_nat n_machines))).

(** The loop over [forward_flow]: it ends at the first sink. *)
Fixpoint forward_chain (rel_cfg : RelCfg) (steps : list Step) (prev : string)
    (bufs : gmap string Store) : option (gmap string Store * list Body) :=
  match steps with
  | [] => Some (bufs, [])
  | step :: rest =>
      if String.eqb (default "process"%string (step_type step)) "sink" then
        _ ← bufs !! prev;
        Some (bufs, [BSink prev false])
      else
        let out_name := ("after_" +:+ step_id step)%string in
        let bufs1 := ensure_buffer bufs out_name in
        bodies ← step_bodies rel_cfg step prev out_name bufs1;
        '(bufs2, more) ← forward_chain rel_cfg rest out_name bufs1;
        Some (bufs2, bodies ++ more)
  end.

Definition initial_intensity (cfg : Config) : gmap string (Q * Q) :=
  fold_left
    (fun m s =>
       if is_process s then
         <[step_id s :=
             (default (default 0%Q (fst (intensity_defaults cfg))) (kwh_per_unit s),
              default (default 0%Q (snd (intensity_defaults cfg))) (air_m3_per_unit s))]> m
       else m)
    (forward_flow cfg) ∅.

Definition initial_metrics (cfg : Config) : Metrics :=
  mkMetrics 0 0 0 0 ∅ ∅ ∅ (initial_intensity cfg) ∅ ∅ ∅ ∅ None None.

Definition stop_new_at (cfg : Config) : Q :=
  Py.max 0 (horizon_min cfg - total_route_time_min cfg).

Definition initial_pool (cfg : Config) : option Container :=
  let wt := default 0 (workers_total cfg) in
  if wt >? 0 then Some (mkContainer wt wt) else None.

(** The state [run_simulation] has built when it first calls [env.run]:
    stores, container, metrics, and the registered processes in the order of
    their [env.process] calls.  A store capacity that is not positive makes
    [simpy.Store] raise. *)
Definition init_sim (cfg : Config) : option Sim :=
  if forallb (fun nc => 0 <? snd nc) (buffers_cfg cfg) then
    let bufs0 : gmap string Store :=
      list_to_map (List.map (fun nc => (fst nc, mkStore [] (snd nc)))
                     (buffers_cfg cfg)) in
    '(bufs, chain) ← forward_chain (_reliability_cfg cfg) (forward_flow cfg)
                        "neu_lager" bufs0;
    let bodies :=
      [ BNew (rate_per_min cfg) (Some (stop_new_at cfg)) (mkNewSrc SRC_top 1);
        BReturns (interarrival_min cfg) (Some (horizon_min cfg))
          (mkRetSrc SRC_top 0 0);
        BShortcut (default (5 # 1) (shortcut_delay_min cfg)) SC_start None;
        BMerge MF_start 0 ]
      ++ chain
      ++ [ BSampler (default (10 # 1) (sample_every_min cfg)) [] ] in
    Some (mkSim 0 bufs (initial_pool cfg) (initial_metrics cfg)
            (List.map (mkProc (Ready None) 0) bodies))
  else None.










(** ** config.py *)

(** The value [yaml.safe_load] returns: [None], a [bool], an [int], a
    [float], a [str], [bytes] (a [!!binary] scalar), a [date] or [datetime]
    (a timestamp, kept as its text), a [list], a [set] or a [dict].  The
    pairs of an [!!omap] or [!!pairs] list are tuples; they stand here as
    lists, of which, like of a tuple, only the comparison with a string is
    ever taken. *)
#[local] Unset Elimination Schemes.
Inductive Yaml :=
| VNull
| VBool (b : bool)
| VInt (n : Z)
| VFloat (q : Q)
| VStr (s : string)
| VBytes (b : string)
| VDate (iso : string)
| VSeq (l : list Yaml)
| VSet (l : list Yaml)
| VMap (kv : list (Yaml * Yaml)).
#[local] Set Elimination Schemes.

Definition REQUIRED_KEYS : list string :=
  ["meta"; "resources"; "buffers"; "forward_flow"; "reverse_flow"; "rules"]%string.

(** [x == k] for a string [k]: only a string compares equal to it. *)
Definition eq_str (k : string) (x : Yaml) : bool :=
  match x with VStr s => String.eqb s k | _ => false end.

(** [k in s] on strings: [k] occurs in [s]. *)
Fixpoint is_substring (k s : string) : bool :=
  String.prefix k s ||
  match s with
  | EmptyString => false
  | String _ rest => is_substring k rest
  end.

(** [k in cfg] for a string [k]: a key of a dict, an element of a list or
    of a set, a substring of a string.  The test raises [TypeError] on the
    other values: [None], booleans, numbers and dates are not iterable, and
    [bytes] take no string as a member. *)
Definition py_in (k : string) (cfg : Yaml) : option bool :=
  match cfg with
  | VMap kv => Some (existsb (fun e => eq_str k (fst e)) kv)
  | VSeq l | VSet l => Some (existsb (eq_str k) l)
  | VStr s => Some (is_substring k s)
  | VNull | VBool _ | VInt _ | VFloat _ | VBytes _ | VDate _ => None
  end.

Inductive LoadResult :=
| Loaded (cfg : Yaml)
| ValueError (missing : list string)   (* ["Config missing keys: ..."] *)
| TypeError.                           (* raised by [k not in cfg] *)

(** [[k for k in REQUIRED_KEYS if k not in cfg]]. *)
Fixpoint missing_keys (keys : list string) (cfg : Yaml) : option (list string) :=
  match keys with
  | [] => Some []
  | k :: rest =>
      match py_in k cfg, missing_keys rest cfg with
      | Some b, Some m => Some (if b then m else k :: m)
      | _, _ => None
      end
  end.

(** [load_config], from the parsed document on. *)
Definition load_config (cfg : Yaml) : LoadResult :=
  match missing_keys REQUIRED_KEYS cfg with
  | None => TypeError
  | Some [] => Loaded cfg
  | Some missing => ValueError missing
  end.

(** ** Vocabulary of the statements *)

(** A call of one of the two in-process helpers. *)
Inductive InprocCall := CallBegin (station_name : string) | CallEnd (station_name : string).

Definition inproc_call (m : Metrics) (c : InprocCall) : Metrics :=
  match c with
  | CallBegin s => _begin_processing m s
  | CallEnd s => _end_processing m s
  end.

Definition gauge (s : string) (m : Metrics) : Z := getd s 0 (inproc_now m).
Definition peak (s : string) (m : Metrics) : Z := getd s 0 (inproc_peak m).

Fixpoint gauge_trace (s : string) (m : Metrics) (calls : list InprocCall) : list Z :=
  gauge s m ::
  match calls with
  | [] => []
  | c :: rest => gauge_trace s (inproc_call m c) rest
  end.

Definition maximum (l : list Z) : Z := fold_right Z.max 0 l.

(** ** Invariants of a run *)

Definition is_pool_request (r : Request) : bool :=
  match r with
  | RPoolGet _ | RPoolPut _ => true
  | _ => false
  end.

(** The worker units a request moves to the requester when it succeeds. *)
Definition request_delta (r : Request) : Z :=
  match r with
  | RPoolGet n => n
  | RPoolPut n => - n
  | _ => 0
  end.

(** The new-orders source never schedules an arrival past its cutoff, and
    its final wait ends exactly at the cutoff. *)
Definition new_src_inv (now cut : Q) (stop_at : option Q) (st : NewSrc)
    (status : Status) : Prop :=
  stop_at = Some cut ∧
  match ns_pc st, status with
  | SRC_interarrival, Sleeping u => (u <= cut)%Q
  | SRC_interarrival, Ready _ => (now <= cut)%Q
  | SRC_interarrival, _ => False
  | SRC_cutoff, Sleeping u => (u == cut)%Q
  | _, Blocked r => is_pool_request r = false
  | _, _ => True
  end.

(** The times a runner keeps: busy time is made of past processing
    intervals, downtime of positive repairs. *)
Definition station_times (now : Q) (l : StationLocal) : Prop :=
  (0 <= downtime l)%Q ∧
  (st_pc l = ST_repair → (0 < repair l)%Q) ∧
  (0 <= busy l)%Q ∧
  match st_pc l with
  | ST_process => (busy l <= start l)%Q ∧ (start l <= now)%Q
  | _ => (busy l <= now)%Q
  end.

(** The worker units a runner holds, by the [yield] it is suspended at. *)
Definition station_holding (has_pool : bool) (a : StationArgs) (l : StationLocal)
    (st : Status) (h : Z) : Prop :=
  let wr := st_workers_required a in
  match st_pc l with
  | ST_pool_get =>
      uses_workers has_pool a = true ∧
      match st with
      | Blocked r => r = RPoolGet wr ∧ h = 0
      | Ready _ => h = wr
      | _ => False
      end
  | ST_process =>
      h = (if uses_workers has_pool a then wr else 0) ∧
      match st with
      | Blocked _ | Finished => False
      | _ => True
      end
  | ST_pool_put =>
      uses_workers has_pool a = true ∧
      match st with
      | Blocked r => r = RPoolPut wr ∧ h = wr
      | Ready _ => h = 0
      | _ => False
      end
  | _ =>
      h = 0 ∧
      match st with
      | Blocked r => is_pool_request r = false
      | _ => True
      end
  end.

Definition proc_inv (now cut : Q) (has_pool : bool) (p : Proc) : Prop :=
  (∀ u, status p = Sleeping u → (now <= u)%Q) ∧
  match body p with
  | BNew rate stop_at st =>
      holding p = 0 ∧ new_src_inv now cut stop_at st (status p)
  | BStation _ a l =>
      station_times now l ∧ station_holding has_pool a l (status p) (holding p)
  | _ =>
      holding p = 0 ∧ ∀ r, status p = Blocked r → is_pool_request r = false
  end.

Definition sum_holding (ps : list Proc) : Z :=
  fold_right (fun p acc => holding p + acc) 0 ps.

Definition pool_inv (pool : option Container) (ps : list Proc) : Prop :=
  match pool with
  | Some c => level c + sum_holding ps = pool_capacity c ∧ 0 <= level c
  | None => True
  end.

Definition metrics_inv (now : Q) (m : Metrics) : Prop :=
  map_Forall (fun _ v => (0 <= v <= now)%Q) (station_busy_time m) ∧
  map_Forall (fun _ v => (0 <= v)%Q) (station_downtime m).

Definition sim_inv (cut : Q) (hp : bool) (s : Sim) : Prop :=
  has_pool s = hp ∧
  (0 <= now s)%Q ∧
  Forall (proc_inv (now s) cut hp) (procs s) ∧
  pool_inv (workers_pool s) (procs s) ∧
  metrics_inv (now s) (metrics s).

(** Generators that never ask for workers and have no cutoff to keep. *)
Definition plain_body (b : Body) : Prop :=
  match b with
  | BNew _ _ _ | BStation _ _ _ => False
  | _ => True
  end.

(** What [run_simulation] registers: fresh generators. *)
Definition initial_body (cut : Q) (b : Body) : Prop :=
  match b with
  | BNew _ stop st => stop = Some cut ∧ ns_pc st = SRC_top
  | BStation _ _ l => l = station_initial
  | _ => True
  end.

(** ** Concrete configurations and runs *)

Definition demo_buffers : list (string * Z) :=
  [("neu_lager", 10); ("warenannahme", 10); ("reman_lager", 10);
   ("lager1", 10); ("lager2", 10)]%string.

(** Every machine fails after about a minute of work and is repaired in one
    minute. *)
Definition demo_reliability : RelCfg :=
  mkRelCfg (Some (mkRelSpec (Some 1%Q) (Some 1%Q) None None)) ∅.

(** One station with a cycle time of four minutes, then the sink; a horizon
    of ten minutes. *)
Definition demo_flow : list Step :=
  [mkStep "pressen_2" None (Some (240 # 1)) None None None None;
   mkStep "kunde" (Some "sink"%string) None None None None None].

Definition demo_cfg : Config :=
  mkConfig 10 None None demo_buffers None demo_flow 1 5 2 None
    (Some demo_reliability) (None, None).

(** Processes: 0 new orders, 1 returns, 2 shortcut, 3 merge feeder,
    4 pressen_2, 5 sink, 6 sampler.  Two orders arrive at minutes 1 and 2;
    the station works on the first from 1 to 5, is repaired until 6 and
    works on the second from 6 on; the horizon ends the run at 10. *)
Definition demo_sched : list Action :=
  [Resume 0 1 0; Resume 1 100 0; Resume 2 0 0; Resume 3 0 0; Resume 4 1 0;
   Resume 5 0 0; Resume 6 0 0;
   Tick 1; Wake 0; Resume 0 0 0; Resume 0 1 0; Grant 4; Resume 4 0 0;
   Tick 2; Wake 0; Resume 0 0 0; Resume 0 100 0;
   Tick 5; Wake 4; Resume 4 0 0; Resume 4 0 0; Grant 5; Resume 5 0 0;
   Tick 6; Wake 0; Resume 0 0 0; Wake 4; Resume 4 100 0; Resume 4 0 0;
   Tick 10].

(** A fixed repair time that is configured negative. *)
Definition negative_mttr_spec : RelSpec :=
  _reliab_for "pressen_2"
    (mkRelCfg (Some (mkRelSpec None (Some (-(5 # 1))%Q) (Some "fixed"%string) None)) ∅).

(** The state a schedule leads to from the initial state of a
    configuration; the empty simulation where the run fails. *)
Definition run_from_init (cfg : Config) (sched : list Action) : Sim :=
  default (mkSim 0 ∅ None (initial_metrics cfg) [])
    (init_sim cfg ≫= exec sched).

Definition demo_initial : Sim := run_from_init demo_cfg [].
Definition demo_final : Sim := run_from_init demo_cfg demo_sched.

(** The claim's reading of a defective configuration: a required top-level
    section is missing, or the required numeric field [meta.horizon_min] is
    not a number. *)
Definition yaml_get (k : string) (cfg : Yaml) : option Yaml :=
  match cfg with
  | VMap kv => snd <$> List.find (fun e => eq_str k (fst e)) kv
  | _ => None
  end.

Definition is_number (v : Yaml) : bool :=
  match v with
  | VInt _ | VFloat _ => true
  | _ => false
  end.

Definition section_missing (cfg : Yaml) : bool :=
  existsb (fun k => negb (default false (py_in k cfg))) REQUIRED_KEYS.

Definition horizon_malformed (cfg : Yaml) : bool :=
  match yaml_get "meta" cfg with
  | Some meta =>
      match yaml_get "horizon_min" meta with
      | Some v => negb (is_number v)
      | None => false
      end
  | None => false
  end.

Definition defective (cfg : Yaml) : bool :=
  section_missing cfg || horizon_malformed cfg.

(** All six sections are present, but the horizon is the text ["abc"]. *)
Definition malformed_horizon_cfg : Yaml :=
  VMap [(VStr "meta", VMap [(VStr "horizon_min", VStr "abc")]);
        (VStr "resources", VMap []);
        (VStr "buffers", VMap []);
        (VStr "forward_flow", VSeq []);
        (VStr "reverse_flow", VMap []);
        (VStr "rules", VMap [])].

(** A complete configuration document. *)
Definition complete_cfg : Yaml :=
  VMap [(VStr "meta", VMap [(VStr "horizon_min", VInt 10)]);
        (VStr "resources", VMap []);
        (VStr "buffers", VMap []);
        (VStr "forward_flow", VSeq []);
        (VStr "reverse_flow", VMap []);
        (VStr "rules", VMap [])].

(** The returns source is process [i] and can be resumed at program point
    [pc] with locals [i0] (units created so far) and [k] (units of the batch
    still to come). *)
Definition returns_ready_at (i : nat) (inter : Q) (stop : option Q) (s : Sim)
    (pc : SourcePc) (i0 k : nat) : Prop :=
  ∃ v h, procs s !! i =
         Some (mkProc (Ready v) h (BReturns inter stop (mkRetSrc pc i0 k))).

(** From the initial state of [demo_cfg]: every process is started, the
    returns source draws an interarrival of one minute, and the clock
    reaches it; the source is then about to draw the size of its first
    batch. *)
Definition returns_batch_sched : list Action :=
  [Resume 0 100 0; Resume 1 1 0; Resume 2 0 0; Resume 3 0 0; Resume 4 1 0;
   Resume 5 0 0; Resume 6 0 0; Tick 1; Wake 1].

Definition returns_batch_state : Sim := run_from_init demo_cfg returns_batch_sched.

(** From the initial state of [demo_cfg]: every process is started, the
    new-orders source draws an interarrival of one minute, and the clock
    reaches it; the source is then about to create its first token. *)
Definition arrival_sched : list Action :=
  [Resume 0 1 0; Resume 1 100 0; Resume 2 0 0; Resume 3 0 0; Resume 4 1 0;
   Resume 5 0 0; Resume 6 0 0; Tick 1; Wake 0].

Definition arrival_state : Sim := run_from_init demo_cfg arrival_sched.

(** [demo_cfg] with a station that requires one worker, and no
    [workers_total]: no worker container is created. *)
Definition no_pool_cfg : Config :=
  mkConfig 10 None None demo_buffers None
    [mkStep "pressen_2" None (Some (240 # 1)) None (Some 1) None None;
     mkStep "kunde" (Some "sink"%string) None None None None None]
    1 5 2 None (Some demo_reliability) (None, None).

(** The first order arrives at minute 1 and the station starts to work on
    it. *)
Definition no_pool_sched : list Action :=
  arrival_sched ++ [Resume 0 0 0; Resume 0 100 0; Grant 4; Resume 4 0 0].

(** Program point, required workers and held workers of a station runner. *)
Definition station_view (p : Proc) : option (StationPc * Z * Z) :=
  match body p with
  | BStation _ a l => Some (st_pc l, st_workers_required a, holding p)
  | _ => None
  end.

(** What a process may hold: nothing, unless it is a station runner, which
    holds nothing or exactly its requirement, and exactly its requirement
    while it processes if there is a container and the requirement is
    positive. *)
Definition holds_as_required (has_pool : bool) (p : Proc) : Prop :=
  match body p with
  | BStation _ a l =>
      (holding p = 0 ∨ holding p = st_workers_required a) ∧
      (st_pc l = ST_process →
       holding p = if has_pool && (st_workers_required a >? 0)
                   then st_workers_required a else 0)
  | _ => holding p = 0
  end.

(** The same line with two workers: the station reserves one of them before
    it starts to work. *)
Definition pool_cfg : Config :=
  mkConfig 10 None None demo_buffers (Some 2)
    [mkStep "pressen_2" None (Some (240 # 1)) None (Some 1) None None;
     mkStep "kunde" (Some "sink"%string) None None None None None]
    1 5 2 None (Some demo_reliability) (None, None).

Definition pool_sched : list Action :=
  arrival_sched ++
  [Resume 0 0 0; Resume 0 100 0; Grant 4; Resume 4 0 0; Resume 4 0 0].

Definition pool_initial : Sim := run_from_init pool_cfg [].
Definition pool_state : Sim := run_from_init pool_cfg pool_sched.









(** The demo line sampled every half minute. *)
Definition sampling_cfg : Config :=
  mkConfig 10 None (Some (1 # 2)) demo_buffers None demo_flow 1 5 2 None
    (Some demo_reliability) (None, None).

(** Every process is started; the sampler takes its rows at minutes 0, 1/2
    and 1. *)
Definition sampling_sched : list Action :=
  [Resume 0 100 0; Resume 1 100 0; Resume 2 0 0; Resume 3 0 0; Resume 4 100 0;
   Resume 5 0 0; Resume 6 0 0;
   Tick (1 # 2); Wake 6; Resume 6 0 0;
   Tick 1; Wake 6; Resume 6 0 0].

Definition sampling_state : Sim := run_from_init sampling_cfg sampling_sched.

(** After [returns_batch_sched] the returns source draws a batch of two
    units, puts both on [warenannahme] and counts them, and then waits for
    the horizon. *)
Definition returns_counted_sched : list Action :=
  returns_batch_sched ++ [Resume 1 0 2; Resume 1 0 0; Resume 1 100 0].

Definition returns_counted_state : Sim :=
  run_from_init demo_cfg returns_counted_sched.

(** A line with the priority station [pressen_1] (cycle time one minute),
    then the sink; the shortcut takes a tenth of a minute. *)
Definition mix_cfg : Config :=
  mkConfig 10 None None demo_buffers None
    [mkStep "pressen_1" None (Some (60 # 1)) None None None None;
     mkStep "kunde" (Some "sink"%string) None None None None None]
    1 5 2 (Some (1 # 10)) None (None, None).

(** Processes: 0 new orders, 1 returns, 2 shortcut, 3 merge feeder,
    4 pressen_1, 5 sink, 6 sampler.  A new order and a return arrive at
    minute 1/10, a second order at 2/10, when the return reaches [lager1];
    the station works on the first order from 1/10, on the return from
    11/10 and on the second order from 21/10 to 31/10. *)
Definition mix_sched : list Action :=
  [Resume 0 (1 # 10) 0; Resume 1 (1 # 10) 0; Resume 2 0 0; Resume 3 0 0;
   Resume 4 100 0; Resume 5 0 0; Resume 6 0 0;
   Tick (1 # 10);
   Wake 0; Resume 0 0 0; Resume 0 (1 # 10) 0;
   Wake 1; Resume 1 0 1; Resume 1 100 0;
   Grant 2; Resume 2 0 0;
   Wake 4; Resume 4 0 0; Resume 4 0 0;
   Tick (2 # 10);
   Wake 0; Resume 0 0 0; Resume 0 100 0;
   Wake 2; Resume 2 0 0; Resume 2 0 0;
   Grant 3; Resume 3 0 0; Resume 3 0 0;
   Tick (11 # 10);
   Wake 4; Resume 4 0 0; Resume 4 0 0; Resume 4 0 0;
   Grant 5; Resume 5 0 0;
   Tick (21 # 10);
   Wake 4; Resume 4 0 0; Resume 4 0 0; Resume 4 0 0;
   Grant 5; Resume 5 0 0;
   Tick (31 # 10);
   Wake 4; Resume 4 0 0; Resume 4 0 0;
   Grant 5; Resume 5 0 0].

Definition mix_state : Sim := run_from_init mix_cfg mix_sched.


(** [len(st.items)] of the store named [b]. *)
Definition store_size (bufs : gmap string Store) (b : string) : nat :=
  match bufs !! b with
  | Some st => length (items st)
  | None => 0
  end.


(** The two mix counters, an absent key reading as zero. *)
Definition from_reman (m : Metrics) : Z := default 0 (pressen1_from_reman m).
Definition from_new (m : Metrics) : Z := default 0 (pressen1_from_new m).


Definition scan_buffers : gmap string Store :=
  <["neu_lager" := mkStore [NewTok "NEW-00001" 1] 10]>
    (<["lager2" := mkStore [] 10]> (<["lager1" := mkStore [] 10]> ∅)).




(** One station with two parallel machines, a cycle time of one minute and
    one kWh per unit; no sink, so every published token stays in the store
    behind the station. *)
Definition two_machine_cfg : Config :=
  mkConfig 10 None None demo_buffers None
    [mkStep "fuegen_1" None (Some (60 # 1)) (Some 2) None (Some 1%Q) None]
    1 5 2 None None (None, None).

(** Processes: 0 new orders, 1 returns, 2 shortcut, 3 merge feeder,
    4 fuegen_1#1, 5 fuegen_1#2, 6 sampler.  Orders arrive at minutes 1 and
    2; the first machine works on the first from 1 to 2, the second machine
    on the second from 2 to 3; each publishes its token and writes the
    station's results. *)
Definition two_machine_sched : list Action :=
  [Resume 0 1 0; Resume 1 100 0; Resume 2 0 0; Resume 3 0 0; Resume 4 100 0;
   Resume 5 100 0; Resume 6 0 0;
   Tick 1; Wake 0; Resume 0 0 0; Resume 0 1 0; Grant 4; Resume 4 0 0;
   Tick 2; Wake 0; Resume 0 0 0; Resume 0 100 0; Grant 5; Resume 5 0 0;
   Wake 4; Resume 4 0 0; Resume 4 0 0;
   Tick 3; Wake 5; Resume 5 0 0; Resume 5 0 0].

(** Name and metrics key of a station runner. *)
Definition station_keys (p : Proc) : option (string * string) :=
  match body p with
  | BStation _ a _ => Some (st_name a, base_id a)
  | _ => None
  end.

(** ** Further invariants of a run: vocabulary *)

(** The four kinds of scheduler step, with what each changes. *)
Inductive step_kind (s s' : Sim) : Prop :=
| SK_tick (t : Q) :
    (now s <= t)%Q →
    Forall (fun p => can_tick t p = true) (procs s) →
    s' = mkSim t (buffers s) (workers_pool s) (metrics s) (procs s) →
    step_kind s s'
| SK_wake (i : nat) (p : Proc) (u : Q) :
    procs s !! i = Some p →
    status p = Sleeping u →
    (u == now s)%Q →
    s' = mkSim (now s) (buffers s) (workers_pool s) (metrics s)
           (<[i := mkProc (Ready None) (holding p) (body p)]> (procs s)) →
    step_kind s s'
| SK_grant (i : nat) (p : Proc) (r : Request) bufs pool v d :
    procs s !! i = Some p →
    status p = Blocked r →
    do_request r (buffers s) (workers_pool s) = Some (bufs, pool, v, d) →
    s' = mkSim (now s) bufs pool (metrics s)
           (<[i := mkProc (Ready v) (holding p + d) (body p)]> (procs s)) →
    step_kind s s'
| SK_resume (i : nat) (p : Proc) v e g b m y bufs pool st d :
    procs s !! i = Some p →
    status p = Ready v →
    resume_body (body p) v (now s) (buffers s) (has_pool s) (metrics s) e g
      = Some (b, m, y) →
    yield_ok y = true →
    settle y (now s) (buffers s) (workers_pool s) = (bufs, pool, st, d) →
    s' = mkSim (now s) bufs pool m
           (<[i := mkProc st (holding p + d) b]> (procs s)) →
    step_kind s s'.

(** The character ['#'] does not occur in a string. *)
Fixpoint no_hash (s : string) : bool :=
  match s with
  | EmptyString => true
  | String c rest => negb (Ascii.eqb c "#"%char) && no_hash rest
  end.

(** The station arguments of a generator, if it is a station runner. *)
Definition station_args_of (b : Body) : option StationArgs :=
  match b with
  | BStation _ a _ => Some a
  | _ => None
  end.

(** A step with three machines, as an example. *)
Definition three_machine_step : Step :=
  mkStep "fuegen_1" None (Some (60 # 1)) (Some 3) None None None.

(** The demo line with a horizon of three minutes, shorter than the four
    minutes of its route. *)
Definition short_horizon_cfg : Config :=
  mkConfig 3 None None demo_buffers None demo_flow 1 5 2 None
    (Some demo_reliability) (None, None).

(** The documents on which the membership test of a string raises: the
    empty document, a boolean, a number, a timestamp, a binary scalar. *)
Definition is_scalar (cfg : Yaml) : bool :=
  match cfg with
  | VNull | VBool _ | VInt _ | VFloat _ | VBytes _ | VDate _ => true
  | VStr _ | VSeq _ | VSet _ | VMap _ => false
  end.

(** The generators as [run_simulation] registers them, before their first
    resume. *)
Definition registered (cfg : Config) (b : Body) : Prop :=
  match b with
  | BNew rate stop st =>
      rate = rate_per_min cfg ∧ stop = Some (stop_new_at cfg) ∧
      st = mkNewSrc SRC_top 1
  | BReturns inter stop st =>
      inter = interarrival_min cfg ∧ stop = Some (horizon_min cfg) ∧
      st = mkRetSrc SRC_top 0 0
  | BShortcut delay pc held =>
      delay = default (5 # 1)%Q (shortcut_delay_min cfg) ∧
      pc = SC_start ∧ held = None
  | BMerge pc toggle => pc = MF_start
  | BStation _ a l =>
      l = station_initial ∧ st_reliability_cfg a = _reliability_cfg cfg
  | BSink _ started => started = false
  | BSampler every rows =>
      every = default (10 # 1)%Q (sample_every_min cfg) ∧ rows = []
  end.

(** The returns source starts a batch only up to its stop time, and its
    final wait ends exactly there. *)
Definition returns_inv (h : Q) (now : Q) (p : Proc) : Prop :=
  match body p with
  | BReturns _ stop st =>
      stop = Some h ∧
      match rs_pc st, status p with
      | SRC_interarrival, Sleeping u => (u <= h)%Q
      | SRC_interarrival, Ready _ => (now <= h)%Q
      | SRC_interarrival, _ => False
      | SRC_cutoff, Sleeping u => (u == h)%Q
      | _, _ => True
      end
  | _ => True
  end.

(** The rows of the sampler: the first one carries the time zero, each
    further one the time of the row before plus the period, none a time in
    the future; the sampler sleeps until one period after its last row. *)
Definition sampler_inv (now : Q) (p : Proc) : Prop :=
  match body p with
  | BSampler every rows =>
      (∀ row, rows !! 0%nat = Some row → (time_min row == 0)%Q) ∧
      (∀ k r1 r2, rows !! k = Some r1 → rows !! S k = Some r2 →
                  (time_min r2 == time_min r1 + every)%Q) ∧
      (∀ k row, rows !! k = Some row → (time_min row <= now)%Q) ∧
      match status p, last rows with
      | Sleeping u, Some r => (u == time_min r + every)%Q
      | Sleeping _, None => False
      | Ready _, Some r => (now == time_min r + every)%Q
      | Ready _, None => (now == 0)%Q
      | Blocked _, _ => False
      | Finished, _ => True
      end
  | _ => True
  end.

(** Two generators run the same function with the same arguments. *)
Definition same_kind (b b' : Body) : Prop :=
  match b, b' with
  | BNew r s _, BNew r' s' _ => r = r' ∧ s = s'
  | BReturns i s _, BReturns i' s' _ => i = i' ∧ s = s'
  | BShortcut d _ _, BShortcut d' _ _ => d = d'
  | BMerge _ _, BMerge _ _ => True
  | BStation pr a _, BStation pr' a' _ => pr = pr' ∧ a = a'
  | BSink i _, BSink i' _ => i = i'
  | BSampler e _, BSampler e' _ => e = e'
  | _, _ => False
  end.

(** The last registered process of a state (the sampler in a state of a
    run) and the rows it has appended. *)
Definition last_proc (s : Sim) : Proc :=
  default (mkProc Finished 0 (BSampler 0 [])) (last (procs s)).

Definition sampled_rows (s : Sim) : list Row :=
  match body (last_proc s) with
  | BSampler _ rows => rows
  | _ => []
  end.

(** A sum over the processes of a state. *)
Definition sum_procs (f : Proc → Z) (ps : list Proc) : Z :=
  fold_right (fun p acc => f p + acc) 0 ps.

(** The four arrival and throughput counters of the metrics. *)
Definition counters (m : Metrics) : Z * Z * Z * Z :=
  (arrivals_new m, lost_new_due_to_neu_lager_full m, arrivals_returns m,
   throughput_kunde m).

(** The tokens a new-orders source has built and seen counted: the numbers
    its counter handed out, less the token whose put it still waits for. *)
Definition new_settled (b : Body) : Z :=
  match b with
  | BNew _ _ st =>
      Z.of_nat (ns_counter st) - 1 -
      (match ns_pc st with SRC_put => 1 | _ => 0 end)
  | _ => 0
  end.

(** The same for a returns source and its running number [i]. *)
Definition returns_settled (b : Body) : Z :=
  match b with
  | BReturns _ _ st =>
      Z.of_nat (rs_i st) - (match rs_pc st with SRC_put => 1 | _ => 0 end)
  | _ => 0
  end.

Definition counters_inv (s : Sim) : Prop :=
  sum_procs (fun p => new_settled (body p)) (procs s) =
    arrivals_new (metrics s) + lost_new_due_to_neu_lager_full (metrics s) ∧
  sum_procs (fun p => returns_settled (body p)) (procs s) =
    arrivals_returns (metrics s) ∧
  0 <= arrivals_new (metrics s) ∧
  0 <= lost_new_due_to_neu_lager_full (metrics s) ∧
  0 <= throughput_kunde (metrics s).

(** The generators the forward chain registers: station runners and the
    sink. *)
Definition chain_body (b : Body) : Prop :=
  match b with
  | BStation _ _ _ | BSink _ _ => True
  | _ => False
  end.

Definition is_new_source (b : Body) : bool :=
  match b with BNew _ _ _ => true | _ => false end.

Definition is_returns_source (b : Body) : bool :=
  match b with BReturns _ _ _ => true | _ => false end.

(** Process [i] of a state, and the locals of the two sources. *)
Definition proc_at (s : Sim) (i : nat) : Proc :=
  default (mkProc Finished 0 (BMerge MF_start 0)) (procs s !! i).

Definition new_source_locals (s : Sim) : NewSrc :=
  match body (proc_at s 0) with
  | BNew _ _ st => st
  | _ => mkNewSrc SRC_top 0
  end.

Definition returns_source_locals (s : Sim) : RetSrc :=
  match body (proc_at s 1) with
  | BReturns _ _ st => st
  | _ => mkRetSrc SRC_top 0 0
  end.

(** The two in-process dicts of the metrics. *)
Definition inproc (m : Metrics) : gmap string Z * gmap string Z :=
  (inproc_now m, inproc_peak m).

(** One for a station runner with the key [k] that is inside its cycle-time
    wait, zero for every other generator. *)
Definition processing (k : string) (b : Body) : Z :=
  match b with
  | BStation _ a l =>
      match st_pc l with
      | ST_process => if String.eqb (base_id a) k then 1 else 0
      | _ => 0
      end
  | _ => 0
  end.

(** One for a station runner with the key [k]. *)
Definition runs_station (k : string) (b : Body) : Z :=
  match b with
  | BStation _ a _ => if String.eqb (base_id a) k then 1 else 0
  | _ => 0
  end.

Definition gauge_inv (s : Sim) : Prop :=
  ∀ k, gauge k (metrics s) =
         sum_procs (fun p => processing k (body p)) (procs s) ∧
       gauge k (metrics s) <= peak k (metrics s) ∧
       peak k (metrics s) <=
         sum_procs (fun p => runs_station k (body p)) (procs s).

(** The three per-station result dicts of the metrics. *)
Definition results (m : Metrics) : gmap string Z * gmap string Q * gmap string Q :=
  (station_output m, station_busy_time m, station_downtime m).

(** The jobs a runner has finished processing: those it has published and
    counted, and the one it is about to publish. *)
Definition jobs_done (l : StationLocal) : Z :=
  produced l +
  match st_pc l with
  | ST_pool_put | ST_out_put => 1
  | _ => 0
  end.

(** The books of a runner that has been started: its busy time is the cycle
    time for every finished job, its cycle-time wait ends one cycle time
    after it began, and a repair it waits for is not negative. *)
Definition work_inv (now : Q) (p : Proc) : Prop :=
  match body p with
  | BStation _ a l =>
      l = station_initial ∨
      (0 <= produced l ∧
       (busy l == inject_Z (jobs_done l) * ct_min a)%Q ∧
       (0 <= downtime l)%Q ∧
       (st_pc l = ST_repair → (0 <= repair l)%Q) ∧
       (st_pc l = ST_process →
        match status p with
        | Sleeping u => (u == start l + ct_min a)%Q
        | Ready _ => (now == start l + ct_min a)%Q
        | _ => False
        end))
  | _ => True
  end.

(** What is recorded under a station key was written by a runner with that
    key, from its own books. *)
Definition recorded_by (ps : list Proc) (k : string) (o : Z) (b d : Q) : Prop :=
  ∃ i p pr a l,
    ps !! i = Some p ∧ body p = BStation pr a l ∧ base_id a = k ∧
    st_pc l ≠ ST_start ∧
    0 <= o <= produced l ∧
    (b == inject_Z o * ct_min a)%Q ∧
    (0 <= d <= downtime l)%Q.

Definition results_inv (s : Sim) : Prop :=
  Forall (work_inv (now s)) (procs s) ∧
  ∀ k,
    match station_output (metrics s) !! k, station_busy_time (metrics s) !! k,
          station_downtime (metrics s) !! k with
    | Some o, Some b, Some d => recorded_by (procs s) k o b d
    | None, None, None => True
    | _, _, _ => False
    end.

(** The runner that is process [i] of a state. *)
Definition runner_at (s : Sim) (i : nat) : bool * StationArgs * StationLocal :=
  match body (proc_at s i) with
  | BStation pr a l => (pr, a, l)
  | _ => (false, mkStationArgs "" [] "" 0 0 0 empty_rel_cfg, station_initial)
  end.

(** A repair can take time at the station [k]: its repair time is drawn
    from a normal distribution, or is a positive constant. *)
Definition repairs_configured (rel : RelCfg) (k : string) : bool :=
  String.eqb (default "fixed"%string (mttr_dist (_reliab_for k rel))) "normal"
  || Py.gt (default 0%Q (mttr_min (_reliab_for k rel))) 0.

(** A runner of a station without repair time never waits for a repair and
    books no downtime. *)
Definition no_repair_inv (p : Proc) : Prop :=
  match body p with
  | BStation _ a l =>
      repairs_configured (st_reliability_cfg a) (base_id a) = false →
      st_pc l ≠ ST_repair ∧ downtime l = 0%Q
  | _ => True
  end.

Definition two_machine_final : Sim :=
  run_from_init two_machine_cfg two_machine_sched.

(** A store holds no more than its capacity, and its capacity is positive. *)
Definition store_ok (st : Store) : Prop :=
  0 < capacity st ∧ Z.of_nat (length (items st)) <= capacity st.

(** The stores of a state are those of an earlier state, with the same
    capacities. *)
Definition same_stores (bufs0 bufs : gmap string Store) : Prop :=
  ∀ b, capacity <$> bufs !! b = capacity <$> bufs0 !! b.

(** The store named [b] of a state. *)
Definition store_at (s : Sim) (b : string) : Store :=
  default (mkStore [] 0) (buffers s !! b).

(** The number of tokens in the stores. *)
Definition total_items (bufs : gmap string Store) : Z :=
  map_fold (fun _ st acc => Z.of_nat (length (items st)) + acc) 0 bufs.

(** The token a generator keeps in its locals between taking it over and
    offering it to the next store. *)
Definition carried (b : Body) : Z :=
  match b with
  | BStation _ _ l =>
      match st_pc l with
      | ST_pool_get | ST_process | ST_pool_put => 1
      | _ => 0
      end
  | BShortcut _ SC_delay _ => 1
  | _ => 0
  end.

(** The token that sits in the event a process waits for or was resumed
    by: the value of a get that succeeded, the item of a put that is
    queued. *)
Definition in_hand (st : Status) : Z :=
  match st with
  | Ready (Some _) => 1
  | Blocked (RPut _ _) => 1
  | _ => 0
  end.

(** The tokens a process holds. *)
Definition held (p : Proc) : Z := carried (body p) + in_hand (status p).

(** One for a source between building a token and counting it. *)
Definition put_pending (b : Body) : Z :=
  match b with
  | BNew _ _ st => match ns_pc st with SRC_put => 1 | _ => 0 end
  | BReturns _ _ st => match rs_pc st with SRC_put => 1 | _ => 0 end
  | _ => 0
  end.

(** The token a yielded event carries into the environment. *)
Definition yield_tokens (y : Yield) : Z :=
  match y with
  | YRequest (RPut _ _) => 1
  | _ => 0
  end.

(** The generator is suspended at a get. *)
Definition awaits_token (b : Body) : bool :=
  match b with
  | BStation _ _ l => match st_pc l with ST_get => true | _ => false end
  | BShortcut _ SC_get _ => true
  | BMerge MF_get _ => true
  | BSink _ started => started
  | _ => false
  end.

(** Tokens are handed only to generators that asked for one, and the sink,
    once started, is resumed only with a token. *)
Definition token_wf (p : Proc) : Prop :=
  (∀ tok, status p = Ready (Some tok) → awaits_token (body p) = true) ∧
  (∀ b, status p = Blocked (RGet b) → awaits_token (body p) = true) ∧
  match body p with
  | BSink _ started =>
      if started
      then (∃ b, status p = Blocked (RGet b)) ∨
           (∃ tok, status p = Ready (Some tok))
      else status p = Ready None
  | _ => True
  end.

Definition conservation_inv (s : Sim) : Prop :=
  Forall token_wf (procs s) ∧
  arrivals_new (metrics s) + arrivals_returns (metrics s) +
  sum_procs (fun p => put_pending (body p)) (procs s) =
  total_items (buffers s) + sum_procs held (procs s) +
  throughput_kunde (metrics s).

(** The yields of consecutive resumes of the merge feeder, for the values
    its events deliver. *)
Fixpoint merge_trace (pc : MergePc) (toggle : nat) (values : list (option Token))
    (bufs : gmap string Store) : option (list Yield) :=
  match values with
  | [] => Some []
  | v :: rest =>
      '(pc', toggle', y) ← reman_merge_feeder pc toggle v bufs;
      ys ← merge_trace pc' toggle' rest bufs;
      Some (y :: ys)
  end.

(** The same for the reverse shortcut. *)
Fixpoint shortcut_trace (delay_min : Q) (pc : ShortcutPc) (held : option Token)
    (values : list (option Token)) (bufs : gmap string Store)
    : option (list Yield) :=
  match values with
  | [] => Some []
  | v :: rest =>
      '(pc', held', y) ← reverse_shortcut delay_min pc held v bufs;
      ys ← shortcut_trace delay_min pc' held' rest bufs;
      Some (y :: ys)
  end.

(** What the events of the merge feeder deliver while it forwards the tokens
    [toks]: each get delivers the next token, each put delivers nothing. *)
Definition merge_values (toks : list Token) : list (option Token) :=
  None :: flat_map (fun tok => [Some tok; None]) toks.

(** What the events of the shortcut deliver while it forwards [toks]: the
    get delivers the token, the delay and the put deliver nothing. *)
Definition shortcut_values (toks : list Token) : list (option Token) :=
  None :: flat_map (fun tok => [Some tok; None; None]) toks.

(** The intensities and the resource totals of the metrics. *)
Definition charges (m : Metrics)
    : gmap string (Q * Q) * gmap string Q * gmap string Q :=
  (station_intensity m, resources_kwh m, resources_air_m3 m).

(** The per-unit intensities a runner with the key [k] reads. *)
Definition intensity (k : string) (m : Metrics) : Q * Q :=
  default (0%Q, 0%Q) (station_intensity m !! k).

(** The units a runner with the key [k] has published and counted; zero for
    every other generator. *)
Definition published (k : string) (b : Body) : Z :=
  match b with
  | BStation _ a l => if String.eqb (base_id a) k then produced l else 0
  | _ => 0
  end.

(** A runner that has not been started has counted nothing. *)
Definition fresh_inv (p : Proc) : Prop :=
  match body p with
  | BStation _ _ l => st_pc l = ST_start → produced l = 0
  | _ => True
  end.

Definition resources_inv (s : Sim) : Prop :=
  Forall fresh_inv (procs s) ∧
  ∀ k,
    (getd k 0 (resources_kwh (metrics s)) ==
     fst (intensity k (metrics s)) *
     inject_Z (sum_procs (fun p => published k (body p)) (procs s)))%Q ∧
    (getd k 0 (resources_air_m3 (metrics s)) ==
     snd (intensity k (metrics s)) *
     inject_Z (sum_procs (fun p => published k (body p)) (procs s)))%Q.

(** The reman share of the KPI section of [run_simulation]:
    [round(100.0 * reman / mix_total, 2) if mix_total > 0 else 0.0]. *)
Definition reman_share (up : bool) (m : Metrics) : Q :=
  let reman := default 0 (pressen1_from_reman m) in
  let new_ := default 0 (pressen1_from_new m) in
  let mix_total := reman + new_ in
  if mix_total >? 0
  then Py.round2 up (100 * inject_Z reman / inject_Z mix_total)
  else 0.

(** The two mix counters, an absent key read as zero. *)
Definition mix (m : Metrics) : Z * Z := (from_reman m, from_new m).

(** The units a priority runner with the key [pressen_1] has published and
    counted; zero for every other generator. *)
Definition mixed (b : Body) : Z :=
  match b with
  | BStation true a l =>
      if String.eqb (base_id a) "pressen_1" then produced l else 0
  | _ => 0
  end.

Definition mix_inv (s : Sim) : Prop :=
  Forall fresh_inv (procs s) ∧
  0 <= from_reman (metrics s) ∧ 0 <= from_new (metrics s) ∧
  from_reman (metrics s) + from_new (metrics s) =
    sum_procs (fun p => mixed (body p)) (procs s).

(** * Verification *)

(** ** Python comparisons *)

Lemma py_gt_true a b : Py.gt a b = true <-> (b < a)%Q.
Proof.
  unfold Py.gt. rewrite negb_true_iff. split.
  - intros H. apply Qnot_le_lt. intros Hle.
    apply Qle_bool_iff in Hle. congruence.
  - intros H. destruct (Qle_bool a b) eqn:E; [|reflexivity].
    apply Qle_bool_iff in E. lra.
Qed.

Lemma py_gt_false a b : Py.gt a b = false <-> (a <= b)%Q.
Proof.
  unfold Py.gt. rewrite negb_false_iff. apply Qle_bool_iff.
Qed.

Lemma py_lt_true a b : Py.lt a b = true <-> (a < b)%Q.
Proof. apply (py_gt_true b a). Qed.

Lemma py_lt_false a b : Py.lt a b = false <-> (b <= a)%Q.
Proof. apply (py_gt_false b a). Qed.

Lemma py_ge_true a b : Py.ge a b = true <-> (b <= a)%Q.
Proof. apply Qle_bool_iff. Qed.

Lemma py_ge_false a b : Py.ge a b = false <-> (a < b)%Q.
Proof.
  unfold Py.ge. split.
  - intros H. apply Qnot_le_lt. intros Hle.
    apply Qle_bool_iff in Hle. congruence.
  - intros H. destruct (Qle_bool b a) eqn:E; [|reflexivity].
    apply Qle_bool_iff in E. lra.
Qed.

Lemma py_le_true a b : Py.le a b = true <-> (a <= b)%Q.
Proof. apply Qle_bool_iff. Qed.

Lemma py_le_false a b : Py.le a b = false <-> (b < a)%Q.
Proof. apply (py_ge_false b a). Qed.

Lemma py_max_lower a b : (a <= Py.max a b)%Q.
Proof.
  unfold Py.max. destruct (Py.gt b a) eqn:E; [|lra].
  apply py_gt_true in E. lra.
Qed.

Lemma py_max_upper a b : (b <= Py.max a b)%Q.
Proof.
  unfold Py.max. destruct (Py.gt b a) eqn:E; [lra|].
  apply py_gt_false in E. lra.
Qed.

Lemma py_max_cases a b : (Py.max a b == a \/ Py.max a b == b)%Q.
Proof. unfold Py.max. destruct (Py.gt b a); [right|left]; reflexivity. Qed.

(** ** Dict helpers *)

Section map_helpers.
Context {V : Type}.
Implicit Types (d : gmap string V) (k : string) (v : V).

Lemma getd_setdefault_same k v d : getd k v (setdefault k v d) = getd k v d.
Proof.
  unfold getd, setdefault. destruct (d !! k) eqn:E.
  - by rewrite E.
  - by rewrite lookup_insert_eq.
Qed.

Lemma getd_setdefault_ne k k' v v' d :
  k ≠ k' → getd k v (setdefault k' v' d) = getd k v d.
Proof.
  intros Hne. unfold getd, setdefault. destruct (d !! k'); [done|].
  by rewrite lookup_insert_ne.
Qed.

Lemma getd_insert_same k v v' d : getd k v (<[k := v']> d) = v'.
Proof. unfold getd. by rewrite lookup_insert_eq. Qed.

Lemma getd_insert_ne k k' v v' d :
  k ≠ k' → getd k v (<[k' := v']> d) = getd k v d.
Proof. intros Hne. unfold getd. by rewrite lookup_insert_ne. Qed.
End map_helpers.

Lemma begin_gauge s m : gauge s (_begin_processing m s) = gauge s m + 1.
Proof.
  unfold gauge, _begin_processing, _ensure_inproc_metrics.
  cbn [inproc_now inproc_peak set_inproc].
  destruct (_ >? _); cbn [inproc_now set_inproc];
    by rewrite getd_insert_same, getd_setdefault_same.
Qed.

Lemma begin_peak s m :
  peak s (_begin_processing m s) = Z.max (peak s m) (gauge s m + 1).
Proof.
  unfold peak, gauge, _begin_processing, _ensure_inproc_metrics.
  cbn [inproc_now inproc_peak set_inproc].
  rewrite !getd_setdefault_same.
  destruct (_ >? _) eqn:E; cbn [inproc_peak set_inproc].
  - rewrite getd_insert_same. lia.
  - rewrite getd_setdefault_same. lia.
Qed.

Lemma end_gauge s m : gauge s (_end_processing m s) = Z.max 0 (gauge s m - 1).
Proof.
  unfold gauge, _end_processing, _ensure_inproc_metrics.
  cbn [inproc_now inproc_peak set_inproc].
  by rewrite getd_insert_same, getd_setdefault_same.
Qed.

Lemma end_peak s m : peak s (_end_processing m s) = peak s m.
Proof.
  unfold peak, _end_processing, _ensure_inproc_metrics.
  cbn [inproc_now inproc_peak set_inproc].
  by rewrite getd_setdefault_same.
Qed.

Lemma begin_other s s' m :
  s ≠ s' →
  gauge s (_begin_processing m s') = gauge s m ∧
  peak s (_begin_processing m s') = peak s m.
Proof.
  intros Hne. unfold peak, gauge, _begin_processing, _ensure_inproc_metrics.
  cbn [inproc_now inproc_peak set_inproc].
  destruct (_ >? _); cbn [inproc_now inproc_peak set_inproc];
    rewrite ?getd_insert_ne, ?getd_setdefault_ne by done; done.
Qed.

Lemma end_other s s' m :
  s ≠ s' →
  gauge s (_end_processing m s') = gauge s m ∧
  peak s (_end_processing m s') = peak s m.
Proof.
  intros Hne. unfold peak, gauge, _end_processing, _ensure_inproc_metrics.
  cbn [inproc_now inproc_peak set_inproc].
  rewrite ?getd_insert_ne, ?getd_setdefault_ne by done; done.
Qed.

Lemma inproc_call_spec s m c :
  gauge s (inproc_call m c) =
    match c with
    | CallBegin s' => if decide (s = s') then gauge s m + 1 else gauge s m
    | CallEnd s' => if decide (s = s') then Z.max 0 (gauge s m - 1) else gauge s m
    end ∧
  peak s (inproc_call m c) =
    match c with
    | CallBegin s' => if decide (s = s') then Z.max (peak s m) (gauge s m + 1) else peak s m
    | CallEnd s' => peak s m
    end.
Proof.
  destruct c as [s'|s']; cbn [inproc_call]; destruct (decide (s = s')) as [->|Hne].
  - by rewrite begin_gauge, begin_peak.
  - by apply begin_other.
  - by rewrite end_gauge, end_peak.
  - by apply end_other.
Qed.

Lemma inproc_invariant s calls : ∀ m,
  0 <= gauge s m <= peak s m →
  let m' := fold_left inproc_call calls m in
  0 <= gauge s m' <= peak s m' ∧
  peak s m' = Z.max (peak s m) (maximum (gauge_trace s m calls)).
Proof.
  induction calls as [|c rest IH]; intros m Hm; cbn.
  - unfold maximum; cbn. split; [done|lia].
  - destruct (inproc_call_spec s m c) as [Hg Hp].
    destruct (IH (inproc_call m c)) as [IH1 IH2].
    { rewrite Hg, Hp. destruct c; case_decide; lia. }
    split; [done|]. rewrite IH2, Hp.
    assert (Hhd : gauge s (inproc_call m c) <= maximum (gauge_trace s (inproc_call m c) rest)).
    { destruct rest; cbn; lia. }
    unfold maximum in *. cbn. rewrite Hg in Hhd.
    destruct c; case_decide; lia.
Qed.

Lemma maximum_upper (l : list Z) v : v ∈ l → v <= maximum l.
Proof.
  unfold maximum.
  induction l as [|x l IH]; [by intros ?%elem_of_nil|].
  intros [->|Hin]%elem_of_cons; cbn; [lia|].
  specialize (IH Hin). lia.
Qed.

Lemma maximum_attained (l : list Z) : maximum l = 0 ∨ maximum l ∈ l.
Proof.
  unfold maximum.
  induction l as [|x l IH]; [by left|]. cbn.
  destruct (Z.max_spec x (fold_right Z.max 0 l)) as [[_ ->]|[_ ->]].
  - destruct IH as [IH|IH]; [by left|]. right. by apply elem_of_cons; right.
  - right. apply elem_of_cons. by left.
Qed.

Lemma gauge_trace_head s m calls : gauge s m ∈ gauge_trace s m calls.
Proof. destruct calls; cbn; apply elem_of_cons; by left. Qed.

Lemma gauge_initial cfg s :
  gauge s (initial_metrics cfg) = 0 ∧ peak s (initial_metrics cfg) = 0.
Proof. done. Qed.

(** C10: for every station identity and every sequence of
    [_begin_processing] / [_end_processing] calls made on the metrics of a
    fresh run (in any order, also with more ends than begins), the live gauge
    [inproc_now] is never negative, ending a zero gauge leaves it at zero,
    and [inproc_peak] is the largest value the gauge has had so far; hence
    [inproc_peak >= inproc_now >= 0] after every call. *)
Theorem inproc_gauge_and_peak (cfg : Config) (calls : list InprocCall) (s : string) :
  let m0 := initial_metrics cfg in
  let m := fold_left inproc_call calls m0 in
  0 <= gauge s m <= peak s m ∧
  (gauge s m = 0 → gauge s (_end_processing m s) = 0) ∧
  peak s m ∈ gauge_trace s m0 calls ∧
  (∀ v, v ∈ gauge_trace s m0 calls → v <= peak s m).
Proof.
  intros m0 m.
  destruct (gauge_initial cfg s) as [Hg0 Hp0]. fold m0 in Hg0, Hp0.
  destruct (inproc_invariant s calls m0) as [Hb Hp]; [lia|].
  fold m in Hb, Hp.
  assert (H0 : 0 <= maximum (gauge_trace s m0 calls)).
  { rewrite <- Hg0. apply maximum_upper, gauge_trace_head. }
  assert (Hmax : peak s m = maximum (gauge_trace s m0 calls)) by lia.
  split; [done|]. split; [|split].
  - intros Hz. rewrite end_gauge, Hz. done.
  - rewrite Hmax.
    destruct (maximum_attained (gauge_trace s m0 calls)) as [Hz|Hin]; [|done].
    rewrite Hz, <- Hg0. apply gauge_trace_head.
  - intros v Hv. rewrite Hmax. by apply maximum_upper.
Qed.

(** ** The scheduler preserves the invariants *)

Lemma sum_holding_insert (ps : list Proc) i p p' :
  ps !! i = Some p →
  sum_holding (<[i := p']> ps) = sum_holding ps - holding p + holding p'.
Proof.
  revert i. induction ps as [|q ps IH]; intros [|i] Hi; try done.
  - injection Hi as ->. unfold sum_holding. cbn. lia.
  - change (<[S i := p']> (q :: ps)) with (q :: <[i := p']> ps).
    change (sum_holding (q :: <[i := p']> ps))
      with (holding q + sum_holding (<[i := p']> ps)).
    change (sum_holding (q :: ps)) with (holding q + sum_holding ps).
    rewrite (IH i Hi). lia.
Qed.

Lemma do_request_pool r bufs pool bufs' pool' v d :
  do_request r bufs pool = Some (bufs', pool', v, d) →
  d = request_delta r ∧
  match pool, pool' with
  | Some c, Some c' =>
      pool_capacity c' = pool_capacity c ∧ level c' = level c - d ∧
      (0 <= level c → match r with RPoolPut n => 0 <= n | _ => True end →
       0 <= level c')
  | None, None => is_pool_request r = false
  | _, _ => False
  end.
Proof.
  destruct r as [b|b tok|n|n]; cbn; intros H.
  - destruct (bufs !! b) as [st|]; cbn in H; [|done].
    destruct (items st); simplify_eq. split; [done|].
    destruct pool'; [|done]. repeat split; try lia; done.
  - destruct (bufs !! b) as [st|]; cbn in H; [|done].
    destruct (_ <? _); simplify_eq. split; [done|].
    destruct pool'; [|done]. repeat split; try lia; done.
  - destruct pool as [c|]; cbn in H; [|done].
    destruct (n <=? level c) eqn:E; simplify_eq. cbn. repeat split; lia.
  - destruct pool as [c|]; cbn in H; [|done].
    destruct (n <=? _) eqn:E; simplify_eq. cbn. repeat split; lia.
Qed.
#[local] Arguments settle : simpl never.
#[local] Arguments yield_ok : simpl never.
#[local] Arguments do_request : simpl never.

Lemma settle_status y now bufs pool bufs' pool' st d :
  settle y now bufs pool = (bufs', pool', st, d) →
  yield_ok y = true →
  match y with
  | YTimeout dl => st = Sleeping (now + dl) ∧ d = 0 ∧ (0 <= dl)%Q
  | YReturn => st = Finished ∧ d = 0
  | YRequest r =>
      (st = Blocked r ∧ d = 0) ∨ (∃ v, st = Ready v ∧ d = request_delta r)
  end.
Proof.
  unfold settle, yield_ok. destruct y as [dl|r|]; intros H Hok.
  - simplify_eq. apply py_ge_true in Hok. done.
  - destruct (do_request r bufs pool) as [[[[??]?]?]|] eqn:E; simplify_eq.
    + right. apply do_request_pool in E as [-> _]. eauto.
    + by left.
  - by simplify_eq.
Qed.

Lemma station_top_inv priority a l bufs l' y :
  station_top priority a l bufs = Some (l', y) →
  busy l' = busy l ∧ downtime l' = downtime l ∧ repair l' = repair l ∧
  produced l' = produced l ∧
  ((st_pc l' = ST_get ∧ ∃ b, y = YRequest (RGet b)) ∨
   (st_pc l' = ST_poll ∧ y = YTimeout (st_poll_dt_min a))).
Proof.
  unfold station_top. intros H.
  destruct priority.
  - destruct (select_source _ _); simplify_eq; cbn; eauto 10.
  - destruct (head _); cbn in H; simplify_eq; cbn; eauto 10.
Qed.

Ltac py_bools :=
  repeat match goal with
  | H : Py.gt _ _ = true |- _ => apply py_gt_true in H
  | H : Py.gt _ _ = false |- _ => apply py_gt_false in H
  | H : Py.lt _ _ = true |- _ => apply py_lt_true in H
  | H : Py.lt _ _ = false |- _ => apply py_lt_false in H
  | H : Py.ge _ _ = true |- _ => apply py_ge_true in H
  | H : Py.ge _ _ = false |- _ => apply py_ge_false in H
  | H : Py.le _ _ = true |- _ => apply py_le_true in H
  | H : Py.le _ _ = false |- _ => apply py_le_false in H
  end.

(** The helpers of [stations.py] leave the per-station results alone. *)
Lemma results_begin m s :
  station_busy_time (_begin_processing m s) = station_busy_time m ∧
  station_downtime (_begin_processing m s) = station_downtime m ∧
  station_output (_begin_processing m s) = station_output m.
Proof. unfold _begin_processing. by destruct (_ >? _). Qed.

Lemma results_end m s :
  station_busy_time (_end_processing m s) = station_busy_time m ∧
  station_downtime (_end_processing m s) = station_downtime m ∧
  station_output (_end_processing m s) = station_output m.
Proof. done. Qed.

Lemma results_mix a l m :
  station_busy_time (pressen1_mix a l m) = station_busy_time m ∧
  station_downtime (pressen1_mix a l m) = station_downtime m ∧
  station_output (pressen1_mix a l m) = station_output m.
Proof. unfold pressen1_mix. by repeat case_match. Qed.

Lemma metrics_inv_eq now m m' :
  station_busy_time m' = station_busy_time m →
  station_downtime m' = station_downtime m →
  metrics_inv now m → metrics_inv now m'.
Proof. unfold metrics_inv. by intros -> ->. Qed.

Lemma metrics_inv_update now a l m :
  (0 <= busy l <= now)%Q → (0 <= downtime l)%Q →
  metrics_inv now m → metrics_inv now (metrics_update a l m).
Proof.
  intros Hb Hd [H1 H2]. split; cbn.
  - by apply map_Forall_insert_2.
  - by apply map_Forall_insert_2.
Qed.

Ltac fin :=
  try done; try lra; try lia;
  try (intros ? [= <-]; lra);
  try (eapply metrics_inv_eq; [| |eassumption]; done).

Lemma station_top_establishes now hp priority a l bufs l' y bufs' pool pool' st d h :
  station_top priority a l bufs = Some (l', y) →
  yield_ok y = true →
  settle y now bufs pool = (bufs', pool', st, d) →
  (0 <= downtime l)%Q → (0 <= busy l <= now)%Q → h = 0 →
  station_times now l' ∧ station_holding hp a l' st (h + d) ∧
  (∀ u, st = Sleeping u → (now <= u)%Q).
Proof.
  intros Htop Hok Hset Hd Hb ->.
  pose proof (settle_status _ _ _ _ _ _ _ _ Hset Hok) as Hst.
  apply station_top_inv in Htop as (Eb & Ed & Er & _ & [[Hpc [b ->]]|[Hpc ->]]).
  - unfold station_times, station_holding. rewrite Hpc, Eb, Ed.
    destruct Hst as [[-> ->]|[w [-> ->]]]; cbn; repeat split; fin.
  - destruct Hst as (-> & -> & Hdl).
    unfold station_times, station_holding. rewrite Hpc, Eb, Ed.
    repeat split; fin.
Qed.

Lemma station_resume_inv now hp priority a l v bufs m e g h l' m' y
    bufs' pool pool' st d :
  station_times now l →
  station_holding hp a l (Ready v) h →
  metrics_inv now m →
  run_station priority a l v now bufs hp m e g = Some (l', m', y) →
  yield_ok y = true →
  settle y now bufs pool = (bufs', pool', st, d) →
  station_times now l' ∧ station_holding hp a l' st (h + d) ∧ metrics_inv now m' ∧
  (∀ u, st = Sleeping u → (now <= u)%Q).
Proof.
  intros (Hdt & Hrep & Hb0 & Hbusy) Hhold Hm Hrun. revert st d.
  assert (Hnow : (0 <= now)%Q).
  { destruct (st_pc l); lra. }
  unfold run_station in Hrun.
  unfold station_holding in Hhold.
  destruct (st_pc l) eqn:Hpc.
  - (* ST_start *)
    destruct (station_top _ _ _ _) as [[l1 y1]|] eqn:Htop; simplify_eq/=.
    destruct Hhold as [-> _].
    intros st d Hok Hset.
    edestruct station_top_establishes as (? & ? & ?); [done..| | | |eauto];
      cbn; try done; lra.
  - (* ST_poll *)
    destruct (station_top _ _ _ _) as [[l1 y1]|] eqn:Htop; simplify_eq/=.
    destruct Hhold as [-> _].
    intros st d Hok Hset.
    edestruct station_top_establishes as (? & ? & ?); [done..| | | |eauto];
      cbn; try done; lra.
  - (* ST_get *)
    destruct v as [tok|]; simplify_eq/=.
    destruct Hhold as [-> _].
    destruct (uses_workers hp a) eqn:Hu; simplify_eq/=.
    + intros st d Hok Hset.
      pose proof (settle_status _ _ _ _ _ _ _ _ Hset Hok) as Hst.
      unfold station_times, station_holding; cbn. rewrite Hu.
      destruct Hst as [[-> ->]|[w [-> ->]]]; cbn; split_and!; fin.
    + unfold station_process in Hrun. simplify_eq/=.
      intros st d Hok Hset.
      pose proof (settle_status _ _ _ _ _ _ _ _ Hset Hok) as Hst.
      destruct Hst as (-> & -> & Hdl).
      unfold station_times, station_holding; cbn. rewrite Hu.
      destruct (results_begin m (base_id a)) as (E1 & E2 & _).
      split_and!; fin.
  - (* ST_pool_get *)
    destruct Hhold as [Hu ->].
    unfold station_process in Hrun. simplify_eq/=.
    intros st d Hok Hset.
    pose proof (settle_status _ _ _ _ _ _ _ _ Hset Hok) as Hst.
    destruct Hst as (-> & -> & Hdl).
    unfold station_times, station_holding; cbn. rewrite Hu.
    destruct (results_begin m (base_id a)) as (E1 & E2 & _).
    split_and!; fin.
  - (* ST_process *)
    destruct Hhold as [-> _].
    destruct (uses_workers hp a) eqn:Hu; simplify_eq/=.
    + intros st d Hok Hset.
      pose proof (settle_status _ _ _ _ _ _ _ _ Hset Hok) as Hst.
      unfold station_times, station_holding; cbn. rewrite Hu.
      destruct Hst as [[-> ->]|[w [-> ->]]]; cbn; split_and!; fin.
    + unfold station_publish in Hrun. cbn in Hrun.
      destruct (item l) as [tok|]; simplify_eq/=.
      intros st d Hok Hset.
      pose proof (settle_status _ _ _ _ _ _ _ _ Hset Hok) as Hst.
      unfold station_times, station_holding; cbn.
      destruct Hst as [[-> ->]|[w [-> ->]]]; cbn; split_and!; fin.
  - (* ST_pool_put *)
    destruct Hhold as [Hu ->].
    unfold station_publish in Hrun.
    destruct (item l) as [tok|]; simplify_eq/=.
    intros st d Hok Hset.
    pose proof (settle_status _ _ _ _ _ _ _ _ Hset Hok) as Hst.
    unfold station_times, station_holding; cbn.
    destruct Hst as [[-> ->]|[w [-> ->]]]; cbn; split_and!; fin.
  - (* ST_out_put *)
    destruct Hhold as [-> _].
    set (ints := default (0%Q, 0%Q) (station_intensity m !! base_id a)) in Hrun.
    set (m1 := _add_resources m (base_id a) ints.1 ints.2) in Hrun.
    set (m2 := if priority then pressen1_mix a l m1 else m1) in Hrun.
    assert (Hm2 : metrics_inv now m2).
    { apply (metrics_inv_eq _ m); [| |done]; unfold m2;
        destruct priority; try done;
        destruct (results_mix a l m1) as (E1 & E2 & _);
        rewrite ?E1, ?E2; done. }
    clearbody m2. clear m1 ints.
    destruct (ext_le0 _) eqn:Hle;
      [destruct (Py.gt _ _) eqn:Hgt|].
    + simplify_eq/=. apply py_gt_true in Hgt.
      intros st d Hok Hset.
      pose proof (settle_status _ _ _ _ _ _ _ _ Hset Hok) as Hst.
      destruct Hst as (-> & -> & Hdl).
      unfold station_times, station_holding; cbn. split_and!; fin.
    + destruct (station_top _ _ _ _) as [[l1 y1]|] eqn:Htop; simplify_eq/=.
      intros st d Hok Hset.
      edestruct station_top_establishes as (? & ? & ?); [done..| | | |split_and!; eauto];
        cbn; fin.
      apply metrics_inv_update; cbn; fin.
    + destruct (station_top _ _ _ _) as [[l1 y1]|] eqn:Htop; simplify_eq/=.
      intros st d Hok Hset.
      edestruct station_top_establishes as (? & ? & ?); [done..| | | |split_and!; eauto];
        cbn; fin.
      apply metrics_inv_update; cbn; fin.
  - (* ST_repair *)
    destruct Hhold as [-> _].
    specialize (Hrep eq_refl).
    destruct (station_top _ _ _ _) as [[l1 y1]|] eqn:Htop; simplify_eq/=.
    intros st d Hok Hset.
    edestruct station_top_establishes as (? & ? & ?); [done..| | | |split_and!; eauto];
      cbn; fin.
    apply metrics_inv_update; cbn; fin.
Qed.

Lemma settle_plain y now bufs pool bufs' pool' st d :
  settle y now bufs pool = (bufs', pool', st, d) →
  yield_ok y = true →
  (∀ r, y = YRequest r → is_pool_request r = false) →
  d = 0 ∧
  (∀ r, st = Blocked r → is_pool_request r = false) ∧
  (∀ u, st = Sleeping u → (now <= u)%Q).
Proof.
  intros Hset Hok Hplain.
  pose proof (settle_status _ _ _ _ _ _ _ _ Hset Hok) as Hst.
  destruct y as [dl|r|].
  - destruct Hst as (-> & -> & ?). split_and!; fin.
  - specialize (Hplain r eq_refl).
    destruct Hst as [[-> ->]|[w [-> ->]]]; split_and!; fin.
    + by intros ? [= <-].
    + by destruct r.
  - destruct Hst as (-> & ->). split_and!; fin.
Qed.

Lemma new_orders_top_inv rate cut counter now e st' y bufs pool bufs' pool' st d :
  new_orders_top rate (Some cut) counter now e = (st', y) →
  yield_ok y = true →
  settle y now bufs pool = (bufs', pool', st, d) →
  d = 0 ∧ new_src_inv now cut (Some cut) st' st ∧
  (∀ u, st = Sleeping u → (now <= u)%Q).
Proof.
  unfold new_orders_top, _should_stop. intros Htop Hok Hset.
  pose proof (settle_status _ _ _ _ _ _ _ _ Hset Hok) as Hst.
  destruct (Py.ge now cut) eqn:Hstop; [|destruct (Py.gt (now + _) cut) eqn:Hcross];
    simplify_eq; py_bools.
  - destruct Hst as (-> & ->). by split_and!.
  - destruct Hst as (-> & -> & Hd). unfold new_src_inv; cbn. split_and!; fin.
    unfold Py.max. destruct (Py.gt (cut - now) 0) eqn:E; py_bools; lra.
  - destruct Hst as (-> & -> & Hd). unfold new_src_inv; cbn. split_and!; fin.
Qed.

Lemma new_orders_source_inv rate cut st v now bufs m e st' m' y
    pool bufs' pool' status' d :
  new_src_inv now cut (Some cut) st (Ready v) →
  new_orders_source rate (Some cut) st now bufs m e = Some (st', m', y) →
  yield_ok y = true →
  settle y now bufs pool = (bufs', pool', status', d) →
  d = 0 ∧ new_src_inv now cut (Some cut) st' status' ∧
  (∀ u, status' = Sleeping u → (now <= u)%Q) ∧
  station_busy_time m' = station_busy_time m ∧
  station_downtime m' = station_downtime m.
Proof.
  unfold new_orders_source. intros [_ Hinv] Hrun Hok Hset.
  destruct (ns_pc st) eqn:Hpc.
  - destruct (new_orders_top _ _ _ _ _) as [st1 y1] eqn:Htop. simplify_eq.
    edestruct new_orders_top_inv as (? & ? & ?); [done..|]. by split_and!.
  - simplify_eq.
    pose proof (settle_status _ _ _ _ _ _ _ _ Hset Hok) as (-> & ->).
    split_and!; fin. split; [done|]. by rewrite Hpc.
  - destruct (bufs !! "neu_lager") as [neu|]; [|done]. cbn in Hrun.
    destruct (_ <? _).
    + simplify_eq.
      edestruct settle_plain as (? & ? & ?); [done..| |].
      { by intros ? [= <-]. }
      split_and!; fin. split; [done|]. cbn. destruct status'; naive_solver.
    + destruct (new_orders_top _ _ _ _ _) as [st1 y1] eqn:Htop. simplify_eq.
      edestruct new_orders_top_inv as (? & ? & ?); [done..|]. by split_and!.
  - destruct (new_orders_top _ _ _ _ _) as [st1 y1] eqn:Htop. simplify_eq.
    edestruct new_orders_top_inv as (? & ? & ?); [done..|]. by split_and!.
Qed.


Ltac crunch H :=
  repeat (first
    [ case_match
    | match type of H with
      | context [?o ≫= _] => destruct o eqn:?; cbn in H
      end
    | match goal with
      | H' : (?o ≫= _) = Some _ |- _ => destruct o eqn:?; cbn in H'
      end ];
    simplify_option_eq).

Lemma resume_plain b v now bufs hp m e g b' m' y :
  plain_body b →
  resume_body b v now bufs hp m e g = Some (b', m', y) →
  plain_body b' ∧
  (∀ r, y = YRequest r → is_pool_request r = false) ∧
  station_busy_time m' = station_busy_time m ∧
  station_downtime m' = station_downtime m.
Proof.
  destruct b as [| inter stop st | delay pc held | pc toggle | | input started
                | every rows]; try done; intros _ Hrun; cbn in Hrun.
  - unfold returns_source, returns_top, returns_put_next in Hrun.
    crunch Hrun; split_and!; fin.
    all: try by (intros ? ?; simplify_eq).
  - unfold reverse_shortcut in Hrun.
    crunch Hrun; split_and!; fin.
    all: try by (intros ? ?; simplify_eq).
  - unfold reman_merge_feeder in Hrun.
    crunch Hrun; split_and!; fin.
    all: try by (intros ? ?; simplify_eq).
  - simplify_eq. split_and!; fin; [by (intros ? ?; simplify_eq)|by destruct started..].
  - simplify_eq. split_and!; fin.
Qed.

Lemma settle_pool y now bufs pool bufs' pool' st d :
  settle y now bufs pool = (bufs', pool', st, d) →
  yield_ok y = true →
  match pool, pool' with
  | Some c, Some c' =>
      pool_capacity c' = pool_capacity c ∧ level c' = level c - d ∧
      (0 <= level c → 0 <= level c')
  | None, None => True
  | _, _ => False
  end.
Proof.
  unfold settle, yield_ok. intros Hset Hok.
  destruct y as [dl|r|]; simplify_eq.
  - destruct pool'; [split_and!; fin|done].
  - destruct (do_request r bufs pool) as [[[[??]?]?]|] eqn:E; simplify_eq.
    + apply do_request_pool in E as [_ E].
      destruct pool, pool'; try done. destruct E as (? & ? & E).
      split_and!; fin. intros ?. apply E; [done|]. destruct r; fin.
    + destruct pool'; [split_and!; fin|done].
  - destruct pool'; [split_and!; fin|done].
Qed.

Lemma resume_proc_inv now cut hp p v b m m' y bufs pool bufs' pool' st d e g :
  proc_inv now cut hp p →
  status p = Ready v →
  metrics_inv now m →
  resume_body (body p) v now bufs hp m e g = Some (b, m', y) →
  yield_ok y = true →
  settle y now bufs pool = (bufs', pool', st, d) →
  proc_inv now cut hp (mkProc st (holding p + d) b) ∧ metrics_inv now m'.
Proof.
  destruct p as [status h body]; unfold proc_inv; cbn.
  intros [_ Hinv] -> Hm Hrun Hok Hset.
  destruct body as [rate stop ns| | | |pr a l| |].
  1: { destruct Hinv as [-> Hns]. pose proof Hns as [-> _]. cbn in Hrun.
       destruct (new_orders_source _ _ _ _ _ _ _) as [[[ns' m1] y1]|] eqn:E;
         simplify_eq/=.
       edestruct new_orders_source_inv as (-> & ? & ? & ? & ?); [done..|].
       split; [|by eapply metrics_inv_eq]. by split. }
  4: { destruct Hinv as [Ht Hh]. cbn in Hrun.
       destruct (run_station _ _ _ _ _ _ _ _ _ _) as [[[l' m1] y1]|] eqn:E;
         simplify_eq/=.
       edestruct station_resume_inv as (? & ? & ? & ?); [done..|].
       split; [|done]. by split. }
  all: destruct Hinv as [-> _];
    edestruct resume_plain as (Hb & Hy & ? & ?); [|done|]; [done|];
    edestruct settle_plain as (-> & ? & ?); [done..|];
    (split; [|by eapply metrics_inv_eq]);
    (split; [done|]); destruct b; done.
Qed.

Lemma proc_inv_tick now t cut hp p :
  (now <= t)%Q → can_tick t p = true →
  proc_inv now cut hp p → proc_inv t cut hp p.
Proof.
  unfold can_tick, proc_inv. destruct p as [st h b]; cbn. intros Hle Hct [Hs Hinv].
  split.
  - intros u ->. by apply py_le_true in Hct.
  - destruct b as [rate stop ns| | | |pr a l| |].
    + destruct Hinv as [-> [-> Hns]]. split; [done|].
      unfold new_src_inv in *. split; [done|].
      destruct (ns_pc ns), st; cbn in *; try done; tauto.
    + done.
    + done.
    + done.
    + destruct Hinv as [(? & ? & ? & Hb) Hh]. split; [|done].
      split_and!; try done. destruct (st_pc l); lra.
    + done.
    + done.
Qed.

Lemma proc_inv_wake now cut hp h b u :
  (u == now)%Q →
  proc_inv now cut hp (mkProc (Sleeping u) h b) →
  proc_inv now cut hp (mkProc (Ready None) h b).
Proof.
  unfold proc_inv; cbn. intros Hu [_ Hinv]. split; [done|].
  destruct b as [rate stop ns| | | |pr a l| |].
  - destruct Hinv as [-> [-> Hns]]. unfold new_src_inv in *. split_and!; try done.
    destruct (ns_pc ns); try done. cbn in *. lra.
  - destruct Hinv as [? _]. by split.
  - destruct Hinv as [? _]. by split.
  - destruct Hinv as [? _]. by split.
  - destruct Hinv as [? Hh]. split; [done|].
    unfold station_holding in *. destruct (st_pc l); cbn in *; tauto.
  - destruct Hinv as [? _]. by split.
  - destruct Hinv as [? _]. by split.
Qed.

Lemma proc_inv_grant now cut hp h b r bufs pool bufs' pool' v d :
  proc_inv now cut hp (mkProc (Blocked r) h b) →
  do_request r bufs pool = Some (bufs', pool', v, d) →
  proc_inv now cut hp (mkProc (Ready v) (h + d) b) ∧
  match r with RPoolPut n => 0 <= n | _ => True end.
Proof.
  unfold proc_inv; cbn. intros [_ Hinv] Hreq.
  apply do_request_pool in Hreq as [-> _].
  assert (Hplain : is_pool_request r = false →
            request_delta r = 0 ∧ match r with RPoolPut n => 0 <= n | _ => True end).
  { by destruct r. }
  destruct b as [rate stop ns| | | |pr a l| |].
  - destruct Hinv as [-> [-> Hns]]. unfold new_src_inv in *.
    destruct (ns_pc ns); try done; destruct (Hplain Hns) as [-> ?];
      by split_and!.
  - destruct Hinv as [-> Hr]. destruct (Hplain (Hr _ eq_refl)) as [-> ?].
    by split_and!.
  - destruct Hinv as [-> Hr]. destruct (Hplain (Hr _ eq_refl)) as [-> ?].
    by split_and!.
  - destruct Hinv as [-> Hr]. destruct (Hplain (Hr _ eq_refl)) as [-> ?].
    by split_and!.
  - destruct Hinv as [Ht Hh]. unfold station_holding in *.
    destruct (st_pc l) eqn:Hpc; cbn in *.
    all: try (destruct Hh as [-> Hr]; destruct (Hplain Hr) as [-> ?];
              by split_and!).
    + destruct Hh as (Hu & -> & ->). cbn. by split_and!.
    + by destruct Hh.
    + destruct Hh as (Hu & -> & ->). cbn.
      pose proof Hu as Hu'.
      unfold uses_workers in Hu'. apply andb_true_iff in Hu' as [_ Hu'].
      apply Z.gtb_lt in Hu'. split_and!; fin.
  - destruct Hinv as [-> Hr]. destruct (Hplain (Hr _ eq_refl)) as [-> ?].
    by split_and!.
  - destruct Hinv as [-> Hr]. destruct (Hplain (Hr _ eq_refl)) as [-> ?].
    by split_and!.
Qed.

Lemma pool_inv_insert pool pool' ps i p p' d :
  ps !! i = Some p →
  holding p' = holding p + d →
  match pool, pool' with
  | Some c, Some c' =>
      pool_capacity c' = pool_capacity c ∧ level c' = level c - d ∧
      (0 <= level c → 0 <= level c')
  | None, None => True
  | _, _ => False
  end →
  pool_inv pool ps → pool_inv pool' (<[i := p']> ps).
Proof.
  intros Hi Hh Hrel. unfold pool_inv.
  destruct pool as [c|], pool' as [c'|]; try done.
  destruct Hrel as (Hc & Hl & H0). intros [Hsum Hlev].
  rewrite (sum_holding_insert _ _ _ _ Hi). split; [lia|auto].
Qed.

Lemma step_inv cut hp a s s' :
  sim_inv cut hp s → sim_step a s = Some s' → sim_inv cut hp s'.
Proof.
  intros (Hhp & Hnow & Hprocs & Hpool & Hm) Hstep.
  destruct a as [t|i|i|i e g]; cbn in Hstep.
  - (* Tick *)
    destruct (Py.le (now s) t) eqn:Hle; [|done].
    destruct (forallb _ _) eqn:Hall; [|done]. simplify_eq/=.
    apply py_le_true in Hle.
    rewrite List.forallb_forall in Hall.
    split_and!; cbn; try done.
    + lra.
    + rewrite Forall_forall in *. intros p Hp.
      apply proc_inv_tick with (now := now s); auto.
      by apply Hall, list_elem_of_In.
    + destruct Hm as [H1 H2]. split; [|done].
      eapply map_Forall_impl; [done|]. cbn. intros ? ? ?. lra.
  - (* Wake *)
    destruct (procs s !! i) as [p|] eqn:Hi; [|done]. cbn in Hstep.
    destruct p as [st h b]. cbn in Hstep.
    destruct st as [|u| |]; try done.
    destruct (Qeq_bool u (now s)) eqn:Hu; [|done]. simplify_eq/=.
    apply Qeq_bool_iff in Hu.
    pose proof (proj1 (Forall_lookup _ _) Hprocs _ _ Hi) as Hp.
    split_and!; cbn; try done.
    + apply Forall_insert; [done|]. by apply proc_inv_wake with (u := u).
    + eapply pool_inv_insert with (d := 0); [done|cbn; lia| |done].
      destruct (workers_pool s); [split_and!; lia|done].
  - (* Grant *)
    destruct (procs s !! i) as [p|] eqn:Hi; [|done]. cbn in Hstep.
    destruct p as [st h b]. cbn in Hstep.
    destruct st as [| |r|]; try done.
    destruct (do_request r _ _) as [[[[bufs pool] v] d]|] eqn:Hreq; [|done].
    simplify_eq/=.
    pose proof (proj1 (Forall_lookup _ _) Hprocs _ _ Hi) as Hp.
    destruct (proc_inv_grant _ _ _ _ _ _ _ _ _ _ _ _ Hp Hreq) as [Hp' Hr].
    apply do_request_pool in Hreq as [-> Hrel].
    assert (Hrel' : match workers_pool s, pool with
                    | Some c, Some c' =>
                        pool_capacity c' = pool_capacity c ∧
                        level c' = level c - request_delta r ∧
                        (0 <= level c → 0 <= level c')
                    | None, None => True
                    | _, _ => False
                    end).
    { destruct (workers_pool s), pool; try done.
      destruct Hrel as (? & ? & H0). split_and!; auto. }
    split_and!; cbn; try done.
    + unfold has_pool in *. cbn. destruct (workers_pool s), pool; done.
    + by apply Forall_insert.
    + by eapply pool_inv_insert.
  - (* Resume *)
    destruct (procs s !! i) as [p|] eqn:Hi; [|done]. cbn in Hstep.
    destruct (status p) as [v| | |] eqn:Hst; try done.
    destruct (resume_body _ _ _ _ _ _ _ _) as [[[b m] y]|] eqn:Hrun; [|done].
    cbn in Hstep.
    destruct (yield_ok y) eqn:Hok; [|done].
    destruct (settle y _ _ _) as [[[bufs pool] st] d] eqn:Hset. simplify_eq/=.
    pose proof (proj1 (Forall_lookup _ _) Hprocs _ _ Hi) as Hp.
    destruct (resume_proc_inv _ _ _ _ _ _ _ _ _ _ _ _ _ _ _ _ _
                Hp Hst Hm Hrun Hok Hset) as [Hp' Hm'].
    pose proof (settle_pool _ _ _ _ _ _ _ _ Hset Hok) as Hrel.
    split_and!; cbn; try done.
    + unfold has_pool in *. cbn. destruct (workers_pool s), pool; done.
    + by apply Forall_insert.
    + by eapply pool_inv_insert.
Qed.

Lemma exec_inv cut hp sched : ∀ s s',
  sim_inv cut hp s → exec sched s = Some s' → sim_inv cut hp s'.
Proof.
  induction sched as [|a rest IH]; intros s s' Hinv Hexec; cbn in Hexec.
  - by simplify_eq.
  - destruct (sim_step a s) as [s1|] eqn:Hstep; [|done]. cbn in Hexec.
    eapply IH; [|done]. by eapply step_inv.
Qed.

(** ** The initial state satisfies the invariants *)


Lemma step_bodies_initial cut rel step prev out bufs bodies :
  step_bodies rel step prev out bufs = Some bodies →
  Forall (initial_body cut) bodies.
Proof.
  unfold step_bodies. intros H.
  destruct (String.eqb _ _).
  - crunch H. by repeat constructor.
  - destruct (_ <=? _); [by simplify_eq|].
    crunch H. apply Forall_forall. intros b Hb.
    apply list_elem_of_In, in_map_iff in Hb as (m & <- & _). done.
Qed.

Lemma forward_chain_initial cut rel steps : ∀ prev bufs bufs' chain,
  forward_chain rel steps prev bufs = Some (bufs', chain) →
  Forall (initial_body cut) chain.
Proof.
  induction steps as [|step rest IH]; intros prev bufs bufs' chain H; cbn in H.
  - by simplify_eq.
  - destruct (String.eqb _ "sink").
    + crunch H. by repeat constructor.
    + destruct (step_bodies _ _ _ _ _) as [bodies|] eqn:Hb; [|done]. cbn in H.
      destruct (forward_chain _ _ _ _) as [[bufs2 more]|] eqn:Hc; [|done].
      simplify_eq/=. apply Forall_app. split.
      * by eapply step_bodies_initial.
      * by eapply IH.
Qed.

Lemma initial_proc_inv cut hp b :
  initial_body cut b → proc_inv 0 cut hp (mkProc (Ready None) 0 b).
Proof.
  unfold proc_inv; cbn. intros Hb. split; [done|].
  destruct b; cbn in *; try done.
  - destruct Hb as [-> Hpc]. unfold new_src_inv. rewrite Hpc. done.
  - subst. unfold station_times, station_holding; cbn. split_and!; fin.
Qed.

Lemma sum_holding_initial bodies :
  sum_holding (List.map (mkProc (Ready None) 0) bodies) = 0.
Proof. induction bodies; [done|]. unfold sum_holding in *. cbn. lia. Qed.

Lemma init_inv cfg s0 :
  init_sim cfg = Some s0 → sim_inv (stop_new_at cfg) (has_pool s0) s0.
Proof.
  unfold init_sim. intros H.
  destruct (forallb _ _); [|done].
  destruct (forward_chain _ _ _ _) as [[bufs chain]|] eqn:Hc; [|done].
  simplify_eq/=.
  apply (forward_chain_initial (stop_new_at cfg)) in Hc.
  unfold sim_inv; cbn. split_and!; try done.
  - repeat (apply Forall_cons; split; [by apply initial_proc_inv|]).
    apply Forall_forall. intros p Hp.
    apply list_elem_of_In, in_map_iff in Hp as (b & <- & Hb).
    apply initial_proc_inv.
    apply in_app_iff in Hb as [Hb|[<-|[]]]; [|done].
    rewrite Forall_forall in Hc. by apply Hc, list_elem_of_In.
  - unfold pool_inv, initial_pool.
    destruct (_ >? 0) eqn:E; [|done]. cbn.
    change (sum_holding (_ :: _ :: _ :: _ :: ?l))
      with (0 + (0 + (0 + (0 + sum_holding l)))).
    rewrite sum_holding_initial.
    apply Z.gtb_lt in E. lia.
Qed.

(** Every state a run reaches satisfies the invariants. *)
Lemma reachable_inv cfg s0 sched s :
  init_sim cfg = Some s0 → exec sched s0 = Some s →
  sim_inv (stop_new_at cfg) (has_pool s0) s.
Proof. intros H0 Hx. eapply exec_inv; [|done]. by apply init_inv. Qed.

(** ** C8: the repair draw *)

(** C8, counterexample: with [mttr_dist = "fixed"] and a negative [mttr_min]
    the value [_draw_mttr_min] returns is negative: it is the configured
    value, not clamped. *)
Lemma draw_mttr_min_fixed_negative :
  (_draw_mttr_min negative_mttr_spec 0 < 0)%Q ∧
  mttr_dist negative_mttr_spec = Some "fixed"%string.
Proof. split; [vm_compute|]; reflexivity. Qed.

(** C8, amended: [_draw_mttr_min] returns [max(0, draw)], hence a value that
    is not negative, when [mttr_dist] is ["normal"]; for every other
    [mttr_dist] it returns the configured [mttr_min] unchanged.  In every
    state a run reaches, whatever the reliability configuration, a runner
    waits for a repair only when the drawn duration is positive, no pending
    timeout lies in the past, and the local and the recorded downtimes are
    not negative. *)
Theorem draw_mttr_min_clamped_or_guarded (spec : RelSpec) (gauss : Q)
    (cfg : Config) (s0 s : Sim) (sched : list Action) :
  init_sim cfg = Some s0 →
  exec sched s0 = Some s →
  (if String.eqb (default "fixed"%string (mttr_dist spec)) "normal"
   then _draw_mttr_min spec gauss = Py.max 0 gauss ∧
        (0 <= _draw_mttr_min spec gauss)%Q
   else _draw_mttr_min spec gauss = default 0%Q (mttr_min spec)) ∧
  map_Forall (fun _ v => (0 <= v)%Q) (station_downtime (metrics s)) ∧
  Forall (fun p =>
            (∀ u, status p = Sleeping u → (now s <= u)%Q) ∧
            match body p with
            | BStation _ _ l =>
                (0 <= downtime l)%Q ∧ (st_pc l = ST_repair → (0 < repair l)%Q)
            | _ => True
            end) (procs s).
Proof.
  intros H0 Hx. split_and!.
  - unfold _draw_mttr_min. destruct (String.eqb _ _); [|done].
    split; [done|]. apply py_max_lower.
  - by destruct (reachable_inv _ _ _ _ H0 Hx) as (_ & _ & _ & _ & _ & ?).
  - destruct (reachable_inv _ _ _ _ H0 Hx) as (_ & _ & Hp & _).
    eapply Forall_impl; [done|]. intros p [Hs Hb]. split; [done|].
    destruct (body p); try done. by destruct Hb as [(? & ? & _) _].
Qed.

Lemma draw_mttr_min_clamped_or_guarded_witness :
  init_sim demo_cfg = Some demo_initial ∧
  exec demo_sched demo_initial = Some demo_final ∧
  map_Forall (fun _ v => (0 <= v)%Q) (station_downtime (metrics demo_final)).
Proof.
  assert (H0 : init_sim demo_cfg = Some demo_initial) by (vm_compute; reflexivity).
  assert (Hx : exec demo_sched demo_initial = Some demo_final)
    by (vm_compute; reflexivity).
  split; [exact H0|]. split; [exact Hx|].
  exact (proj1 (proj2 (draw_mttr_min_clamped_or_guarded negative_mttr_spec 0
                         demo_cfg demo_initial demo_final demo_sched H0 Hx))).
Defined.

(** ** C9: configuration loading *)

(** C9, counterexample: a configuration whose [meta.horizon_min] is the
    text ["abc"] is defective in the sense of the claim, and [load_config]
    accepts it. *)
Lemma load_config_accepts_malformed_number :
  defective malformed_horizon_cfg = true ∧
  load_config malformed_horizon_cfg = Loaded malformed_horizon_cfg.
Proof. split; vm_compute; reflexivity. Qed.

Lemma missing_keys_map keys kv :
  missing_keys keys (VMap kv) =
  Some (List.filter (fun k => negb (existsb (fun e => eq_str k (fst e)) kv)) keys).
Proof.
  induction keys as [|k rest IH]; [done|].
  cbn [missing_keys py_in List.filter]. rewrite IH.
  by destruct (existsb _ kv).
Qed.

Lemma existsb_fst (f : Yaml → bool) (kv : list (Yaml * Yaml)) :
  existsb (fun e => f (fst e)) kv = existsb f (List.map fst kv).
Proof. induction kv as [|e kv IH]; [done|]. cbn. by rewrite IH. Qed.

(** C9, amended: for a configuration document that is a mapping,
    [load_config] raises its described error exactly when one of the six
    required top-level keys is absent, and names the absent keys; otherwise
    it returns the document unchanged.  The outcome depends on the top-level
    keys only: two documents with the same top-level keys are both accepted
    or both rejected with the same message, whatever their fields hold, so
    no field, numeric or not, is validated. *)
Theorem load_config_checks_top_level_keys (kv kv' : list (Yaml * Yaml)) :
  List.map fst kv' = List.map fst kv →
  let missing :=
    List.filter (fun k => negb (existsb (fun e => eq_str k (fst e)) kv))
      REQUIRED_KEYS in
  (missing = [] ∧ load_config (VMap kv) = Loaded (VMap kv) ∨
   missing ≠ [] ∧ load_config (VMap kv) = ValueError missing) ∧
  match load_config (VMap kv), load_config (VMap kv') with
  | Loaded _, Loaded c' => c' = VMap kv'
  | ValueError m, ValueError m' => m = m'
  | _, _ => False
  end.
Proof.
  intros Hkeys missing. unfold load_config. rewrite !missing_keys_map.
  fold missing. split.
  - destruct missing; [by left|by right].
  - assert (Hsame : ∀ k, existsb (fun e => eq_str k (fst e)) kv' =
                         existsb (fun e => eq_str k (fst e)) kv).
    { intros k. by rewrite !existsb_fst, Hkeys. }
    replace (List.filter _ REQUIRED_KEYS) with missing.
    + by destruct missing.
    + unfold missing. apply filter_ext. intros k. by rewrite Hsame.
Qed.

Lemma load_config_checks_top_level_keys_witness :
  load_config complete_cfg = Loaded complete_cfg ∧
  load_config malformed_horizon_cfg = Loaded malformed_horizon_cfg.
Proof.
  pose proof (load_config_checks_top_level_keys
                [(VStr "meta", VMap [(VStr "horizon_min", VInt 10)]);
                 (VStr "resources", VMap []);
                 (VStr "buffers", VMap []);
                 (VStr "forward_flow", VSeq []);
                 (VStr "reverse_flow", VMap []);
                 (VStr "rules", VMap [])]
                [(VStr "meta", VMap [(VStr "horizon_min", VStr "abc")]);
                 (VStr "resources", VMap []);
                 (VStr "buffers", VMap []);
                 (VStr "forward_flow", VSeq []);
                 (VStr "reverse_flow", VMap []);
                 (VStr "rules", VMap [])]
                eq_refl) as [[[_ H]|[Hne _]] H'].
  - split; [exact H|]. reflexivity.
  - exfalso. apply Hne. reflexivity.
Defined.

(** ** C5: the size of a returns batch *)

Lemma exec_app sched1 sched2 s :
  exec (sched1 ++ sched2) s = exec sched1 s ≫= exec sched2.
Proof.
  revert s. induction sched1 as [|a rest IH]; intros s; [done|]. cbn.
  destruct (sim_step a s); [apply IH|done].
Qed.

#[local] Arguments settle : simpl nomatch.
#[local] Arguments do_request : simpl nomatch.

Section returns_batch.
Variables (i : nat) (inter : Q) (stop : option Q) (e g : Q).

(** One unit: the put succeeds at once while the store has room. *)
Lemma returns_put_step s i0 k w m' :
  (∃ v h st, procs s !! i = Some (mkProc (Ready v) h (BReturns inter stop st)) ∧
     returns_source inter stop st (now s) (buffers s) (metrics s) e g =
       Some (mkRetSrc SRC_put (S i0) k, m',
             YRequest (RPut "warenannahme" (RetTok ("RET-" +:+ pad5 (S i0)))))) →
  buffers s !! "warenannahme" = Some w →
  Z.of_nat (length (items w)) < capacity w →
  ∃ s',
    sim_step (Resume i e g) s = Some s' ∧
    returns_ready_at i inter stop s' SRC_put (S i0) k ∧
    buffers s' !! "warenannahme" =
      Some (mkStore (items w ++ [RetTok ("RET-" +:+ pad5 (S i0))]) (capacity w)) ∧
    metrics s' = m'.
Proof.
  intros (v & h & st & Hi & Hrun) Hw Hroom.
  unfold sim_step. rewrite Hi. cbn. rewrite Hrun. cbn.
  unfold settle, do_request. rewrite Hw. cbn.
  apply Z.ltb_lt in Hroom. rewrite Hroom.
  eexists. split; [reflexivity|]. cbn. split_and!.
  - exists None, (h + 0). apply list_lookup_insert_eq.
    by eapply lookup_lt_Some.
  - apply lookup_insert_eq.
  - done.
Qed.

Lemma returns_puts k : ∀ s i0 w,
  returns_ready_at i inter stop s SRC_put i0 k →
  buffers s !! "warenannahme" = Some w →
  Z.of_nat (length (items w)) + Z.of_nat k <= capacity w →
  ∃ s' toks,
    exec (replicate k (Resume i e g)) s = Some s' ∧
    returns_ready_at i inter stop s' SRC_put (i0 + k) 0 ∧
    buffers s' !! "warenannahme" = Some (mkStore (items w ++ toks) (capacity w)) ∧
    length toks = k ∧
    arrivals_returns (metrics s') = arrivals_returns (metrics s) + Z.of_nat k.
Proof.
  induction k as [|k IH]; intros s i0 w Hat Hw Hroom.
  - exists s, []. rewrite Nat.add_0_r, app_nil_r. destruct w.
    split_and!; try done. cbn. lia.
  - destruct Hat as (v & h & Hi).
    destruct (returns_put_step s i0 k w
                (set_arrivals_returns (arrivals_returns (metrics s) + 1) (metrics s)))
      as (s1 & Hstep & Hat1 & Hw1 & Hm1); [|done|lia|].
    { exists v, h, (mkRetSrc SRC_put i0 (S k)). split; [done|].
      unfold returns_source, returns_put_next. cbn. by rewrite Hw. }
    destruct (IH s1 (S i0) _ Hat1 Hw1) as (s' & toks & Hx & Hat' & Hw' & Hlen & Harr).
    { cbn. rewrite length_app. cbn. lia. }
    exists s', (RetTok ("RET-" +:+ pad5 (S i0)) :: toks).
    cbn [replicate exec]. rewrite Hstep. cbn.
    split; [done|]. split_and!.
    + by replace (i0 + S k)%nat with (S i0 + k)%nat by lia.
    + rewrite Hw'. cbn. by rewrite <- app_assoc.
    + cbn. by rewrite Hlen.
    + rewrite Harr, Hm1. cbn. lia.
Qed.

(** After the last unit the source counts it and goes back to the top of
    its loop. *)
Lemma returns_last_step s i0 :
  returns_ready_at i inter stop s SRC_put i0 0 →
  Qeq_bool inter 0 = false → (0 <= e)%Q →
  ∃ s',
    sim_step (Resume i e g) s = Some s' ∧
    buffers s' = buffers s ∧
    arrivals_returns (metrics s') = arrivals_returns (metrics s) + 1.
Proof.
  intros (v & h & Hi) Hinter He.
  unfold sim_step. rewrite Hi. cbn.
  unfold returns_source, returns_top. cbn. rewrite Hinter.
  destruct (_should_stop _ _); cbn.
  { eexists. split; [reflexivity|]. done. }
  destruct stop as [sa|]; [destruct (Py.gt _ sa)|]; cbn.
  - pose proof (py_max_lower 0 (sa - now s)) as Hmax.
    apply py_ge_true in Hmax. unfold yield_ok. rewrite Hmax.
    eexists. split; [reflexivity|]. done.
  - apply py_ge_true in He. unfold yield_ok. rewrite He.
    eexists. split; [reflexivity|]. done.
  - apply py_ge_true in He. unfold yield_ok. rewrite He.
    eexists. split; [reflexivity|]. done.
Qed.

(** C5, amended: for every batch event of the returns source, while the
    intake store has room for the batch, the number of units put into
    [warenannahme] is [max(1, int(X))] for the drawn value [X], the draw
    truncated toward zero and not rounded, and [arrivals_returns] grows by
    exactly that number. *)
Theorem returns_batch_truncates (s : Sim) (i0 k0 : nat) (w : Store) :
  returns_ready_at i inter stop s SRC_interarrival i0 k0 →
  buffers s !! "warenannahme" = Some w →
  Z.of_nat (length (items w)) + batch_size g <= capacity w →
  Qeq_bool inter 0 = false →
  (0 <= e)%Q →
  batch_size g = Z.max 1 (Z.quot (Qnum g) (Zpos (Qden g))) ∧
  ∃ s' units,
    exec (replicate (S (Z.to_nat (batch_size g))) (Resume i e g)) s = Some s' ∧
    buffers s' !! "warenannahme" = Some (mkStore (items w ++ units) (capacity w)) ∧
    Z.of_nat (length units) = batch_size g ∧
    arrivals_returns (metrics s') = arrivals_returns (metrics s) + batch_size g.
Proof.
  intros (v & h & Hi) Hw Hroom Hinter He. split; [done|].
  assert (Hn : 1 <= batch_size g) by (unfold batch_size; lia).
  set (k := (Z.to_nat (batch_size g) - 1)%nat).
  destruct (returns_put_step s i0 k w (metrics s))
    as (s1 & Hstep & Hat1 & Hw1 & Hm1); [|done|lia|].
  { exists v, h, (mkRetSrc SRC_interarrival i0 k0). split; [done|].
    unfold returns_source, returns_put_next. cbn. by rewrite Hw. }
  destruct (returns_puts k s1 (S i0) _ Hat1 Hw1)
    as (s2 & toks & Hx & Hat2 & Hw2 & Hlen & Harr).
  { cbn. rewrite length_app. cbn. lia. }
  destruct (returns_last_step s2 _ Hat2 Hinter He) as (s3 & Hlast & Hb3 & Harr3).
  exists s3, (RetTok ("RET-" +:+ pad5 (S i0)) :: toks).
  replace (Z.to_nat (batch_size g)) with (S k) by lia.
  rewrite replicate_S_end. cbn [replicate exec app]. rewrite Hstep. cbn.
  split_and!.
  - rewrite exec_app, Hx. change (exec [Resume i e g] s2 = Some s3).
    cbn [exec]. by rewrite Hlast.
  - rewrite Hb3, Hw2. cbn. by rewrite <- app_assoc.
  - cbn. lia.
  - rewrite Harr3, Harr, Hm1. lia.
Qed.

End returns_batch.

(** C5, counterexample: for the drawn value 2.7 the batch puts two units and
    counts two arrivals, while [max(1, round(2.7))] is three. *)
Lemma returns_batch_not_rounded :
  let s := run_from_init demo_cfg
             (returns_batch_sched ++ replicate 3 (Resume 1 100 (27 # 10))) in
  (length ∘ items) <$> (buffers s !! "warenannahme") = Some 2%nat ∧
  arrivals_returns (metrics s) = 2 ∧
  Z.max 1 (Py.round (27 # 10)) = 3.
Proof. vm_compute. done. Qed.

Lemma returns_batch_truncates_witness :
  ∃ s' units,
    exec (replicate 3 (Resume 1 100 (27 # 10))) returns_batch_state = Some s' ∧
    buffers s' !! "warenannahme" = Some (mkStore ([] ++ units) 10) ∧
    Z.of_nat (length units) = 2 ∧
    arrivals_returns (metrics s') =
      arrivals_returns (metrics returns_batch_state) + 2.
Proof.
  refine (proj2 (returns_batch_truncates 1 5 (Some 10%Q) 100 (27 # 10)
                   returns_batch_state 0 0 (mkStore [] 10) _ _ _ _ _)).
  - exists None, 0. vm_compute. reflexivity.
  - vm_compute. reflexivity.
  - vm_compute. discriminate.
  - reflexivity.
  - vm_compute. discriminate.
Defined.

(** ** C4: arrivals at the primary intake *)

Lemma new_orders_top_yield rate stop c now e :
  (0 <= e)%Q →
  yield_ok (new_orders_top rate stop c now e).2 = true ∧
  ((new_orders_top rate stop c now e).2 = YReturn ∨
   ∃ d, (new_orders_top rate stop c now e).2 = YTimeout d).
Proof.
  intros He. unfold new_orders_top.
  assert (Hi : (0 <= (if Py.gt rate 0 then e else inject_Z (10 ^ 9)))%Q).
  { destruct (Py.gt rate 0); [done|]. by vm_compute. }
  destruct (_should_stop now stop); [by split; [|left]|].
  destruct stop as [sa|]; [destruct (Py.gt _ sa)|]; cbn.
  - split; [|eauto]. apply py_ge_true, py_max_lower.
  - split; [|eauto]. by apply py_ge_true.
  - split; [|eauto]. by apply py_ge_true.
Qed.

(** When a resume of the source leads to the top of its loop, the source
    asks nothing of a store: it sleeps or ends, and the stores are as
    before. *)
Lemma new_orders_top_step s (i : nat) v h rate stop st c m' e g :
  procs s !! i = Some (mkProc (Ready v) h (BNew rate stop st)) →
  new_orders_source rate stop st (now s) (buffers s) (metrics s) e =
    Some ((new_orders_top rate stop c (now s) e).1, m',
          (new_orders_top rate stop c (now s) e).2) →
  (0 <= e)%Q →
  ∃ s' status',
    sim_step (Resume i e g) s = Some s' ∧
    buffers s' = buffers s ∧
    metrics s' = m' ∧
    status <$> procs s' !! i = Some status' ∧
    match status' with Sleeping _ | Finished => True | _ => False end.
Proof.
  intros Hi Hrun He.
  pose proof (lookup_lt_Some _ _ _ Hi) as Hlen.
  destruct (new_orders_top_yield rate stop c (now s) e He) as [Hok Hy].
  unfold sim_step. rewrite Hi. cbn [mbind option_bind status body holding resume_body].
  rewrite Hrun. cbn [mbind option_bind]. rewrite Hok.
  destruct Hy as [->|[d ->]]; cbn [settle]; eexists _, _;
    (split; [reflexivity|]); cbn [buffers metrics procs];
    rewrite list_lookup_insert_eq by done; done.
Qed.

(** C4: at every arrival of the primary source, if the intake store holds
    fewer items than its capacity the token is enqueued at once (the source
    stays runnable and is not queued on the store), and [arrivals_new] grows
    by one when the source runs on; otherwise the token is discarded,
    [lost_new_due_to_neu_lager_full] grows by one and the stores are
    unchanged.  In both cases the source then goes back to the top of its
    loop: it never waits on the store and keeps no token to retry. *)
Theorem new_orders_try_put (s : Sim) (i : nat) (p : Proc) (v : option Token)
    (rate : Q) (stop : option Q) (st : NewSrc) (neu : Store) (e g : Q) :
  procs s !! i = Some p →
  status p = Ready v →
  body p = BNew rate stop st →
  ns_pc st = SRC_interarrival →
  buffers s !! "neu_lager" = Some neu →
  (0 <= e)%Q →
  let token := NewTok ("NEW-" +:+ pad5 (ns_counter st)) (now s) in
  ∃ s',
    sim_step (Resume i e g) s = Some s' ∧
    if Z.of_nat (length (items neu)) <? capacity neu then
      buffers s' =
        <["neu_lager" := mkStore (items neu ++ [token]) (capacity neu)]> (buffers s) ∧
      metrics s' = metrics s ∧
      procs s' !! i =
        Some (mkProc (Ready None) (holding p + 0)
                (BNew rate stop (mkNewSrc SRC_put (S (ns_counter st))))) ∧
      ∃ s'' status',
        sim_step (Resume i e g) s' = Some s'' ∧
        arrivals_new (metrics s'') = arrivals_new (metrics s) + 1 ∧
        lost_new_due_to_neu_lager_full (metrics s'') =
          lost_new_due_to_neu_lager_full (metrics s) ∧
        buffers s'' = buffers s' ∧
        status <$> procs s'' !! i = Some status' ∧
        match status' with Sleeping _ | Finished => True | _ => False end
    else
      buffers s' = buffers s ∧
      lost_new_due_to_neu_lager_full (metrics s') =
        lost_new_due_to_neu_lager_full (metrics s) + 1 ∧
      arrivals_new (metrics s') = arrivals_new (metrics s) ∧
      ∃ status',
        status <$> procs s' !! i = Some status' ∧
        match status' with Sleeping _ | Finished => True | _ => False end.
Proof.
  intros Hi Hst Hb Hpc Hneu He token.
  pose proof (lookup_lt_Some _ _ _ Hi) as Hlen.
  destruct p as [pst h pb]. cbn in Hst, Hb. subst pst pb.
  destruct (Z.of_nat (length (items neu)) <? capacity neu) eqn:Hroom.
  - set (s1 := mkSim (now s)
                 (<["neu_lager" := mkStore (items neu ++ [token]) (capacity neu)]>
                    (buffers s))
                 (workers_pool s) (metrics s)
                 (<[i := mkProc (Ready None) (h + 0)
                           (BNew rate stop (mkNewSrc SRC_put (S (ns_counter st))))]>
                    (procs s))).
    assert (H1 : sim_step (Resume i e g) s = Some s1).
    { unfold sim_step. rewrite Hi. cbn.
      unfold new_orders_source. rewrite Hpc, Hneu. cbn. rewrite Hroom. cbn.
      unfold settle, do_request. rewrite Hneu. cbn. by rewrite Hroom. }
    assert (Hi1 : procs s1 !! i =
                  Some (mkProc (Ready None) (h + 0)
                          (BNew rate stop (mkNewSrc SRC_put (S (ns_counter st)))))).
    { by apply list_lookup_insert_eq. }
    exists s1. split; [done|]. split_and!; try done.
    destruct (new_orders_top_step s1 i _ _ _ _ _ (S (ns_counter st))
                (set_arrivals_new (arrivals_new (metrics s) + 1) (metrics s))
                e g Hi1) as (s2 & status' & H2 & Hb2 & Hm2 & Hs2 & Hst2);
      [|done|].
    { unfold new_orders_source. cbn.
      by destruct (new_orders_top _ _ _ _ _). }
    exists s2, status'. rewrite Hm2. by split_and!.
  - destruct (new_orders_top_step s i _ _ _ _ _ (S (ns_counter st))
                (set_lost_new (lost_new_due_to_neu_lager_full (metrics s) + 1)
                   (metrics s))
                e g Hi) as (s1 & status' & H1 & Hb1 & Hm1 & Hs1 & Hst1);
      [|done|].
    { unfold new_orders_source. rewrite Hpc, Hneu. cbn. rewrite Hroom.
      by destruct (new_orders_top _ _ _ _ _). }
    exists s1. split; [done|]. rewrite Hm1. split_and!; try done.
    by exists status'.
Qed.

Lemma new_orders_try_put_witness :
  ∃ s',
    sim_step (Resume 0 1 0) arrival_state = Some s' ∧
    buffers s' =
      <["neu_lager" := mkStore ([] ++ [NewTok ("NEW-" +:+ pad5 1) (now arrival_state)]) 10]>
        (buffers arrival_state).
Proof.
  destruct (new_orders_try_put arrival_state 0
              (mkProc (Ready None) 0
                 (BNew 1 (Some (stop_new_at demo_cfg)) (mkNewSrc SRC_interarrival 1)))
              None 1 (Some (stop_new_at demo_cfg)) (mkNewSrc SRC_interarrival 1)
              (mkStore [] 10) 1 0) as (s' & Hstep & Hrest).
  - vm_compute. reflexivity.
  - reflexivity.
  - reflexivity.
  - reflexivity.
  - vm_compute. reflexivity.
  - vm_compute. discriminate.
  - exists s'. split; [exact Hstep|]. exact (proj1 Hrest).
Defined.

(** ** C7: the worker pool *)

(** C7, counterexample: without [workers_total] there is no container, and
    a station that requires one worker processes while it holds none. *)
Lemma station_processes_without_workers :
  let s := run_from_init no_pool_cfg no_pool_sched in
  workers_pool s = None ∧
  station_view <$> procs s !! 4%nat = Some (Some (ST_process, 1, 0)).
Proof. vm_compute. done. Qed.

Lemma step_pool_capacity a s s' :
  sim_step a s = Some s' →
  pool_capacity <$> workers_pool s' = pool_capacity <$> workers_pool s.
Proof.
  intros Hstep. destruct a as [t|i|i|i e g]; cbn in Hstep.
  - crunch Hstep. done.
  - crunch Hstep. done.
  - destruct (procs s !! i) as [p|]; [|done]. cbn in Hstep.
    destruct (status p) as [| |r|]; try done.
    destruct (do_request r _ _) as [[[[bufs pool] v] d]|] eqn:Hreq; [|done].
    simplify_eq/=. apply do_request_pool in Hreq as [_ Hrel].
    destruct (workers_pool s), pool; try done. cbn. f_equal. tauto.
  - destruct (procs s !! i) as [p|]; [|done]. cbn in Hstep.
    destruct (status p) as [v| | |]; try done.
    destruct (resume_body _ _ _ _ _ _ _ _) as [[[b m] y]|]; [|done].
    cbn in Hstep. destruct (yield_ok y) eqn:Hok; [|done].
    destruct (settle y _ _ _) as [[[bufs pool] st] d] eqn:Hset. simplify_eq/=.
    pose proof (settle_pool _ _ _ _ _ _ _ _ Hset Hok) as Hrel.
    destruct (workers_pool s), pool; try done. cbn. f_equal. tauto.
Qed.

Lemma exec_pool_capacity sched : ∀ s s',
  exec sched s = Some s' →
  pool_capacity <$> workers_pool s' = pool_capacity <$> workers_pool s.
Proof.
  induction sched as [|a rest IH]; intros s s' Hx; cbn in Hx.
  - by simplify_eq.
  - destruct (sim_step a s) as [s1|] eqn:Hstep; [|done]. cbn in Hx.
    rewrite (IH _ _ Hx). by eapply step_pool_capacity.
Qed.

Lemma init_pool cfg s0 :
  init_sim cfg = Some s0 → workers_pool s0 = initial_pool cfg.
Proof.
  unfold init_sim. intros H. destruct (forallb _ _); [|done].
  destruct (forward_chain _ _ _ _) as [[bufs chain]|]; [|done].
  by simplify_eq/=.
Qed.

Lemma proc_inv_holding now cut hp p :
  proc_inv now cut hp p → 0 <= holding p ∧ holds_as_required hp p.
Proof.
  unfold proc_inv, holds_as_required. intros [_ Hinv].
  destruct (body p) as [| | | |pr a l| |]; try (destruct Hinv as [-> _]; done).
  destruct Hinv as [_ Hh]. unfold station_holding, uses_workers in Hh.
  assert (Hu : hp && (st_workers_required a >? 0) = true →
               0 < st_workers_required a).
  { intros [_ H]%andb_true_iff. by apply Z.gtb_lt in H. }
  destruct (hp && (st_workers_required a >? 0)) eqn:E.
  - specialize (Hu eq_refl).
    destruct (st_pc l), (status p); cbn in Hh; intuition (try lia; try done).
  - clear Hu.
    destruct (st_pc l), (status p); cbn in Hh; intuition (try lia; try done).
Qed.

Lemma sum_holding_nonneg ps :
  Forall (fun p => 0 <= holding p) ps → 0 <= sum_holding ps.
Proof.
  unfold sum_holding. induction 1 as [|p ps Hp _ IH]; cbn; lia.
Qed.

(** C7, amended: when the configuration gives a positive [workers_total],
    the worker container of every state a run reaches satisfies
    [available + reserved = total] and [0 <= available <= total], a runner
    holds nothing or exactly its requirement, and a runner that processes
    holds exactly its (positive) requirement.  When [workers_total] is not
    positive no container exists and the runners process holding nothing,
    whatever they require. *)
Theorem worker_pool_conserved (cfg : Config) (s0 s : Sim) (sched : list Action) :
  init_sim cfg = Some s0 →
  exec sched s0 = Some s →
  match workers_pool s with
  | Some c =>
      0 < default 0 (workers_total cfg) ∧
      pool_capacity c = default 0 (workers_total cfg) ∧
      level c + sum_holding (procs s) = pool_capacity c ∧
      0 <= level c <= pool_capacity c
  | None => default 0 (workers_total cfg) <= 0
  end ∧
  Forall (holds_as_required (has_pool s)) (procs s).
Proof.
  intros H0 Hx.
  destruct (reachable_inv _ _ _ _ H0 Hx) as (Hhp & _ & Hp & Hpool & _).
  pose proof (exec_pool_capacity _ _ _ Hx) as Hcap.
  rewrite (init_pool _ _ H0) in Hcap.
  assert (Hhold : Forall (fun p => 0 <= holding p ∧ holds_as_required (has_pool s) p)
                    (procs s)).
  { rewrite Hhp. eapply Forall_impl; [done|]. intros p. apply proc_inv_holding. }
  split; [|by eapply Forall_impl; [done|]; intros ? [_ ?]].
  unfold initial_pool in Hcap.
  destruct (workers_pool s) as [c|] eqn:Hc; cbn in Hcap.
  - destruct (_ >? 0) eqn:E; [|done]. apply Z.gtb_lt in E.
    injection Hcap as Hcap. destruct Hpool as [Hsum Hlev].
    assert (0 <= sum_holding (procs s)).
    { apply sum_holding_nonneg. by eapply Forall_impl; [done|]; intros ? [? _]. }
    cbn in Hcap. lia.
  - destruct (_ >? 0) eqn:E; [done|].
    rewrite Z.gtb_ltb in E. apply Z.ltb_ge in E. lia.
Qed.

Lemma worker_pool_conserved_witness :
  init_sim pool_cfg = Some pool_initial ∧
  exec pool_sched pool_initial = Some pool_state ∧
  level <$> workers_pool pool_state = Some 1 ∧
  station_view <$> procs pool_state !! 4%nat = Some (Some (ST_process, 1, 1)) ∧
  Forall (holds_as_required (has_pool pool_state)) (procs pool_state).
Proof.
  assert (H0 : init_sim pool_cfg = Some pool_initial) by (vm_compute; reflexivity).
  assert (Hx : exec pool_sched pool_initial = Some pool_state)
    by (vm_compute; reflexivity).
  split; [exact H0|]. split; [exact Hx|].
  split; [vm_compute; reflexivity|]. split; [vm_compute; reflexivity|].
  exact (proj2 (worker_pool_conserved pool_cfg pool_initial pool_state pool_sched
                  H0 Hx)).
Defined.

(** ** C3: the cutoff of the new-orders source *)

Lemma route_fold_left (steps : list Step) (acc : Q) :
  (fold_left (fun secs s =>
                if is_process s then secs + default 0 (cycle_time_s s) else secs)
     steps acc ==
   acc + fold_right Qplus 0
           (List.map (fun s => default 0%Q (cycle_time_s s))
              (List.filter is_process steps)))%Q.
Proof.
  revert acc. induction steps as [|s steps IH]; intros acc; cbn.
  - lra.
  - rewrite IH. destruct (is_process s); cbn; lra.
Qed.








(** ** C6: the priority station *)

#[local] Arguments station_top : simpl never.
#[local] Arguments settle : simpl never.
#[local] Arguments _begin_processing : simpl never.
#[local] Arguments _end_processing : simpl never.
#[local] Arguments _add_resources : simpl never.
#[local] Arguments metrics_update : simpl never.
#[local] Arguments pressen1_mix : simpl never.



Lemma mix_add_resources m s k a :
  from_reman (_add_resources m s k a) = from_reman m ∧
  from_new (_add_resources m s k a) = from_new m.
Proof. done. Qed.


Lemma mix_update a l m :
  from_reman (metrics_update a l m) = from_reman m ∧
  from_new (metrics_update a l m) = from_new m.
Proof. done. Qed.




(** ** C2: utilization *)


(** The value [round(x, 2)] returns is a hundredth next to [x]: it is
    [n / 100] for an integer [n] that differs from [100 * x] by no more than
    one half. *)
Lemma round2_nearest (up : bool) (x : Q) :
  ∃ n : Z,
    Py.round2 up x = (inject_Z n / 100)%Q ∧
    (inject_Z n - (1 # 2) <= x * 100 <= inject_Z n + (1 # 2))%Q.
Proof.
  unfold Py.round2.
  pose proof (Qfloor_le (x * 100)) as Hf1.
  pose proof (Qlt_floor (x * 100)) as Hf2.
  set (f := Qfloor (x * 100)) in *.
  rewrite inject_Z_plus in Hf2. change (inject_Z 1) with 1%Q in Hf2.
  destruct (Py.lt _ _) eqn:E1; py_bools.
  - exists f. split; [done|]. lra.
  - destruct (Py.gt _ _) eqn:E2; py_bools.
    + exists (f + 1). split; [done|].
      rewrite inject_Z_plus. change (inject_Z 1) with 1%Q. lra.
    + destruct up.
      * exists (f + 1). split; [done|].
        rewrite inject_Z_plus. change (inject_Z 1) with 1%Q. lra.
      * exists f. split; [done|]. lra.
Qed.

Lemma round2_percent (up : bool) (x : Q) :
  (0 <= x <= 100)%Q → (0 <= Py.round2 up x <= 100)%Q.
Proof.
  intros Hx. destruct (round2_nearest up x) as (n & -> & Hn).
  assert (0 <= n) as Hn0.
  { assert (H : (inject_Z (-1) < inject_Z n)%Q).
    { change (inject_Z (-1)) with (-1 # 1)%Q. lra. }
    rewrite <- Zlt_Qlt in H. lia. }
  assert (n <= 10000) as Hn1.
  { assert (H : (inject_Z n < inject_Z 10001)%Q).
    { change (inject_Z 10001) with (10001 # 1)%Q. lra. }
    rewrite <- Zlt_Qlt in H. lia. }
  rewrite Zle_Qle in Hn0, Hn1.
  change (inject_Z 0) with 0%Q in Hn0.
  change (inject_Z 10000) with (10000 # 1)%Q in Hn1.
  split.
  - apply Qle_shift_div_l; lra.
  - apply Qle_shift_div_r; lra.
Qed.







(** ** C1: the per-station results *)

(** Whatever a runner finds under its station's key, it stores its own
    totals there. *)
Lemma metrics_update_overwrites a l m :
  station_output (metrics_update a l m) !! base_id a = Some (produced l) ∧
  station_busy_time (metrics_update a l m) !! base_id a = Some (busy l) ∧
  station_downtime (metrics_update a l m) !! base_id a = Some (downtime l).
Proof.
  unfold metrics_update. cbn. by rewrite !lookup_insert_eq.
Qed.

(** C1, the code at a station with two machines: the two runners
    [fuegen_1#1] and [fuegen_1#2] both write the key [fuegen_1]; after each
    has published one token, two tokens lie behind the station and two kWh
    are charged to it, while the recorded output count is one. *)
Theorem station_output_counts_one_machine :
  let s := run_from_init two_machine_cfg two_machine_sched in
  station_keys <$> procs s !! 4%nat =
    Some (Some ("fuegen_1#1", "fuegen_1")%string) ∧
  station_keys <$> procs s !! 5%nat =
    Some (Some ("fuegen_1#2", "fuegen_1")%string) ∧
  store_size (buffers s) "after_fuegen_1" = 2%nat ∧
  resources_kwh (metrics s) !! "fuegen_1" = Some (2 # 1)%Q ∧
  station_output (metrics s) !! "fuegen_1" = Some 1.
Proof. vm_compute. done. Qed.

(** * Further properties of the program *)

(** ** The steps of the scheduler *)

Lemma sim_step_kind a s s' : sim_step a s = Some s' → step_kind s s'.
Proof.
  intros Hstep. destruct a as [t|i|i|i e g]; cbn in Hstep.
  - destruct (Py.le (now s) t) eqn:Hle; [|done].
    destruct (forallb _ _) eqn:Hall; [|done]. cbn in Hstep.
    injection Hstep as <-. apply py_le_true in Hle.
    rewrite List.forallb_forall in Hall.
    eapply SK_tick; [done| |done].
    apply Forall_forall. intros p Hp. by apply Hall, list_elem_of_In.
  - destruct (procs s !! i) as [p|] eqn:Hi; [|done]. cbn in Hstep.
    destruct (status p) as [|u| |] eqn:Hst; try done.
    destruct (Qeq_bool u (now s)) eqn:Hu; [|done].
    injection Hstep as <-. apply Qeq_bool_iff in Hu.
    by eapply SK_wake.
  - destruct (procs s !! i) as [p|] eqn:Hi; [|done]. cbn in Hstep.
    destruct (status p) as [| |r|] eqn:Hst; try done.
    destruct (do_request r _ _) as [[[[bufs pool] v] d]|] eqn:Hreq; [|done].
    cbn in Hstep. injection Hstep as <-. by eapply SK_grant.
  - destruct (procs s !! i) as [p|] eqn:Hi; [|done]. cbn in Hstep.
    destruct (status p) as [v| | |] eqn:Hst; try done.
    destruct (resume_body _ _ _ _ _ _ _ _) as [[[b m] y]|] eqn:Hrun; [|done].
    cbn in Hstep. destruct (yield_ok y) eqn:Hok; [|done].
    destruct (settle y _ _ _) as [[[bufs pool] st] d] eqn:Hset.
    injection Hstep as <-. by eapply SK_resume.
Qed.

(** A property that holds initially and is kept by every kind of step holds
    in every state a schedule reaches. *)
Lemma exec_step_kind (I : Sim → Prop) :
  (∀ s s', I s → step_kind s s' → I s') →
  ∀ sched s s', I s → exec sched s = Some s' → I s'.
Proof.
  intros Hkeep. induction sched as [|a rest IH]; intros s s' Hs Hx; cbn in Hx.
  - by simplify_eq.
  - destruct (sim_step a s) as [s1|] eqn:Hstep; [|done]. cbn in Hx.
    eapply IH; [|done]. eapply Hkeep; [done|]. by eapply sim_step_kind.
Qed.

(** ** Station names and metric keys *)

Lemma split_hash_append (sid suffix : string) :
  no_hash sid = true → split_hash (sid +:+ "#" +:+ suffix) = sid.
Proof.
  induction sid as [|c rest IH]; [done|].
  intros H. change (negb (Ascii.eqb c "#"%char) && no_hash rest = true) in H.
  apply andb_true_iff in H as [Hc Hrest]. apply negb_true_iff in Hc.
  change (split_hash (String c rest +:+ "#" +:+ suffix))
    with (if Ascii.eqb c "#"%char then EmptyString
          else String c (split_hash (rest +:+ "#" +:+ suffix))).
  rewrite Hc. f_equal. by apply IH.
Qed.

Lemma split_hash_no_hash (sid : string) :
  no_hash sid = true → split_hash sid = sid.
Proof.
  induction sid as [|c rest IH]; [done|].
  intros H. change (negb (Ascii.eqb c "#"%char) && no_hash rest = true) in H.
  apply andb_true_iff in H as [Hc Hrest]. apply negb_true_iff in Hc.
  change (split_hash (String c rest))
    with (if Ascii.eqb c "#"%char then EmptyString
          else String c (split_hash rest)).
  rewrite Hc. f_equal. by apply IH.
Qed.

(** X1: for a step whose id contains no ['#'], [run_simulation] registers
    one runner for [pressen_1] whatever [machines] says, no runner when
    [machines] is not positive, and otherwise [machines] runners; every one
    of them stores its results under the step's id, reads the step's cycle
    time (60 seconds when none is configured), its [workers_required]
    (0 when none is configured) and writes to the step's output store. *)
Theorem step_runners_share_the_step_id (rel : RelCfg) (step : Step)
    (prev out : string) (bufs : gmap string Store) (bodies : list Body) :
  step_bodies rel step prev out bufs = Some bodies →
  no_hash (step_id step) = true →
  length bodies =
    (if String.eqb (step_id step) "pressen_1" then 1%nat
     else Z.to_nat (default 1 (machines step))) ∧
  Forall (fun b =>
            ∃ a, station_args_of b = Some a ∧
                 base_id a = step_id step ∧
                 st_output a = out ∧
                 st_cycle_time_s a = default (60 # 1)%Q (cycle_time_s step) ∧
                 st_workers_required a = default 0 (workers_required step))
         bodies.
Proof.
  unfold step_bodies. intros H Hid.
  destruct (String.eqb (step_id step) "pressen_1") eqn:Heq.
  - apply String.eqb_eq in Heq.
    destruct (bufs !! "lager1"); [|done]. cbn in H.
    destruct (bufs !! "lager2"); [|done]. cbn in H.
    destruct (bufs !! "neu_lager"); [|done]. cbn in H.
    injection H as <-. split; [done|]. constructor; [|done].
    eexists. split; [reflexivity|]. by rewrite Heq.
  - destruct (_ <=? 0) eqn:Hm.
    + injection H as <-. apply Z.leb_le in Hm.
      split; [cbn; lia|done].
    + destruct (bufs !! prev); [|done]. cbn in H. injection H as <-.
      split; [by rewrite length_map, length_seq|].
      apply Forall_forall. intros b Hb.
      apply list_elem_of_In, in_map_iff in Hb as (m & <- & _).
      eexists. split; [reflexivity|]. split_and!; try done.
      unfold base_id, instance_name. cbn.
      destruct (_ =? 1); [by apply split_hash_no_hash|].
      by apply split_hash_append.
Qed.

Lemma step_runners_share_the_step_id_witness :
  ∃ bodies,
    step_bodies empty_rel_cfg three_machine_step "neu_lager" "after_fuegen_1"
      scan_buffers = Some bodies ∧
    length bodies = 3%nat.
Proof.
  destruct (step_bodies empty_rel_cfg three_machine_step "neu_lager"
              "after_fuegen_1" scan_buffers) as [bodies|] eqn:H;
    [|vm_compute in H; discriminate].
  exists bodies. split; [reflexivity|].
  exact (proj1 (step_runners_share_the_step_id empty_rel_cfg three_machine_step
                  "neu_lager" "after_fuegen_1" scan_buffers bodies H eq_refl)).
Defined.

(** ** The forward chain and the cutoff of new orders *)

(** X2: the loop over [forward_flow] ends at the first sink: the steps that
    follow it start no process and create no store. *)
Theorem forward_chain_ends_at_sink (rel : RelCfg) (pre post : list Step)
    (sink : Step) (prev : string) (bufs : gmap string Store) :
  String.eqb (default "process"%string (step_type sink)) "sink" = true →
  forward_chain rel (pre ++ sink :: post) prev bufs =
  forward_chain rel (pre ++ [sink]) prev bufs.
Proof.
  intros Hsink. revert prev bufs.
  induction pre as [|step pre IH]; intros prev bufs; cbn.
  - by rewrite Hsink.
  - by rewrite IH.
Qed.

Lemma forward_chain_ends_at_sink_witness :
  forward_chain empty_rel_cfg
    ([three_machine_step] ++
     mkStep "kunde" (Some "sink"%string) None None None None None ::
     [three_machine_step]) "neu_lager" scan_buffers =
  forward_chain empty_rel_cfg
    ([three_machine_step] ++
     [mkStep "kunde" (Some "sink"%string) None None None None None])
    "neu_lager" scan_buffers.
Proof.
  exact (forward_chain_ends_at_sink empty_rel_cfg [three_machine_step]
           [three_machine_step]
           (mkStep "kunde" (Some "sink"%string) None None None None None)
           "neu_lager" scan_buffers eq_refl).
Defined.

Lemma route_sum_nonneg (steps : list Step) :
  Forall (fun s => (0 <= default 0 (cycle_time_s s))%Q) steps →
  (0 <= fold_right Qplus 0
          (List.map (fun s => default 0%Q (cycle_time_s s))
             (List.filter is_process steps)))%Q.
Proof.
  induction 1 as [|s steps Hs _ IH]; cbn; [lra|].
  destruct (is_process s); cbn; lra.
Qed.

(** X3: the cutoff of new orders is never negative, and when no cycle time
    is negative and the horizon is not negative it does not lie after the
    horizon. *)
Theorem stop_new_at_within_horizon (cfg : Config) :
  Forall (fun s => (0 <= default 0 (cycle_time_s s))%Q) (forward_flow cfg) →
  (0 <= horizon_min cfg)%Q →
  (0 <= stop_new_at cfg <= horizon_min cfg)%Q.
Proof.
  intros Hct Hh. unfold stop_new_at. split; [apply py_max_lower|].
  pose proof (route_sum_nonneg _ Hct) as Hpos.
  assert (0 <= total_route_time_min cfg)%Q as Hroute.
  { unfold total_route_time_min. rewrite route_fold_left.
    apply Qle_shift_div_l; [reflexivity|]. lra. }
  destruct (py_max_cases 0 (horizon_min cfg - total_route_time_min cfg))
    as [H0 | H0]; lra.
Qed.

Lemma stop_new_at_within_horizon_witness :
  (0 <= stop_new_at demo_cfg <= horizon_min demo_cfg)%Q.
Proof.
  apply (stop_new_at_within_horizon demo_cfg).
  - repeat constructor; vm_compute; discriminate.
  - vm_compute; discriminate.
Defined.

(** X4: when the horizon is not longer than the route time, the cutoff is
    zero and the new-orders source, first resumed at time zero, ends at
    once: it creates no token and counts nothing. *)
Theorem short_horizon_silences_new_orders (cfg : Config) (counter : nat)
    (bufs : gmap string Store) (m : Metrics) (expo : Q) :
  (horizon_min cfg <= total_route_time_min cfg)%Q →
  (stop_new_at cfg == 0)%Q ∧
  new_orders_source (rate_per_min cfg) (Some (stop_new_at cfg))
    (mkNewSrc SRC_top counter) 0 bufs m expo =
  Some (mkNewSrc SRC_top counter, m, YReturn).
Proof.
  intros Hshort.
  assert (stop_new_at cfg == 0)%Q as Hzero.
  { unfold stop_new_at.
    pose proof (py_max_lower 0 (horizon_min cfg - total_route_time_min cfg)).
    destruct (py_max_cases 0 (horizon_min cfg - total_route_time_min cfg))
      as [H0 | H0]; lra. }
  split; [done|].
  unfold new_orders_source, new_orders_top, _should_stop. cbn.
  assert (Py.ge 0 (stop_new_at cfg) = true) as ->; [|done].
  apply py_ge_true. lra.
Qed.

Lemma short_horizon_silences_new_orders_witness :
  (stop_new_at short_horizon_cfg == 0)%Q ∧
  new_orders_source 1 (Some (stop_new_at short_horizon_cfg))
    (mkNewSrc SRC_top 1) 0 scan_buffers (initial_metrics short_horizon_cfg) 1 =
  Some (mkNewSrc SRC_top 1, initial_metrics short_horizon_cfg, YReturn).
Proof.
  apply (short_horizon_silences_new_orders short_horizon_cfg 1%nat scan_buffers
           (initial_metrics short_horizon_cfg) 1).
  vm_compute. discriminate.
Defined.

(** ** [load_config] on documents that are not mappings *)

Lemma missing_keys_filter (keys : list string) (cfg : Yaml) (f : string → bool) :
  (∀ k, py_in k cfg = Some (f k)) →
  missing_keys keys cfg = Some (List.filter (fun k => negb (f k)) keys).
Proof.
  intros Hin. induction keys as [|k rest IH]; [done|].
  cbn [missing_keys List.filter]. rewrite Hin, IH.
  by destruct (f k).
Qed.

Lemma filter_negb_nil (f : string → bool) (keys : list string) :
  List.filter (fun k => negb (f k)) keys = [] ↔
  Forall (fun k => f k = true) keys.
Proof.
  induction keys as [|k rest IH]; cbn; [by split|].
  destruct (f k) eqn:Hk; cbn.
  - rewrite IH. split; [by constructor|by inversion 1].
  - split; [done|]. inversion 1; congruence.
Qed.

Lemma load_config_container (cfg : Yaml) (f : string → bool) :
  (∀ k, py_in k cfg = Some (f k)) →
  load_config cfg = Loaded cfg ↔ Forall (fun k => f k = true) REQUIRED_KEYS.
Proof.
  intros Hin. unfold load_config.
  rewrite (missing_keys_filter _ _ f Hin), <- filter_negb_nil.
  destruct (List.filter _ REQUIRED_KEYS); split; congruence.
Qed.

(** X5: [load_config] on a document that is not a mapping.  For the empty
    document, a boolean, a number, a timestamp (a date or a datetime) or a
    binary scalar the membership test raises a [TypeError], and for those
    documents only; a list or a set is accepted exactly when the six names
    are among its elements, a string exactly when each of the six names
    occurs in it. *)
Theorem load_config_document_not_a_mapping :
  (∀ cfg, load_config cfg = TypeError ↔ is_scalar cfg = true) ∧
  (∀ l, load_config (VSeq l) = Loaded (VSeq l) ↔
        Forall (fun k => existsb (eq_str k) l = true) REQUIRED_KEYS) ∧
  (∀ l, load_config (VSet l) = Loaded (VSet l) ↔
        Forall (fun k => existsb (eq_str k) l = true) REQUIRED_KEYS) ∧
  (∀ s, load_config (VStr s) = Loaded (VStr s) ↔
        Forall (fun k => is_substring k s = true) REQUIRED_KEYS) ∧
  load_config (VDate "2001-12-14") = TypeError ∧
  load_config VNull = TypeError.
Proof.
  split_and!.
  - intros cfg. destruct cfg as [| | | |s|b|d|l|l|kv]; cbn [is_scalar];
      try (split; [done|]; intros _; reflexivity).
    + unfold load_config.
      rewrite (missing_keys_filter _ (VStr s) (fun k => is_substring k s))
        by done.
      destruct (List.filter _ _); split; congruence.
    + unfold load_config.
      rewrite (missing_keys_filter _ (VSeq l) (fun k => existsb (eq_str k) l))
        by done.
      destruct (List.filter _ _); split; congruence.
    + unfold load_config.
      rewrite (missing_keys_filter _ (VSet l) (fun k => existsb (eq_str k) l))
        by done.
      destruct (List.filter _ _); split; congruence.
    + unfold load_config. rewrite missing_keys_map.
      destruct (List.filter _ _); split; congruence.
  - intros l. by apply load_config_container.
  - intros l. by apply load_config_container.
  - intros s. by apply load_config_container.
  - reflexivity.
  - reflexivity.
Qed.

(** ** Invariants of single processes *)

Lemma step_bodies_registered cfg step prev out bufs bodies :
  step_bodies (_reliability_cfg cfg) step prev out bufs = Some bodies →
  Forall (registered cfg) bodies.
Proof.
  unfold step_bodies. intros H.
  destruct (String.eqb _ _).
  - crunch H. by repeat constructor.
  - destruct (_ <=? _); [by simplify_eq|].
    crunch H. apply Forall_forall. intros b Hb.
    apply list_elem_of_In, in_map_iff in Hb as (m & <- & _). done.
Qed.

Lemma forward_chain_registered cfg steps : ∀ prev bufs bufs' chain,
  forward_chain (_reliability_cfg cfg) steps prev bufs = Some (bufs', chain) →
  Forall (registered cfg) chain.
Proof.
  induction steps as [|step rest IH]; intros prev bufs bufs' chain H; cbn in H.
  - by simplify_eq.
  - destruct (String.eqb _ "sink").
    + crunch H. by repeat constructor.
    + destruct (step_bodies _ _ _ _ _) as [bodies|] eqn:Hb; [|done]. cbn in H.
      destruct (forward_chain _ _ _ _) as [[bufs2 more]|] eqn:Hc; [|done].
      simplify_eq/=. apply Forall_app. split.
      * by eapply step_bodies_registered.
      * by eapply IH.
Qed.

(** The state [run_simulation] starts from: time zero, fresh metrics, every
    process as registered and about to be started. *)
Lemma init_registered cfg s0 :
  init_sim cfg = Some s0 →
  now s0 = 0%Q ∧ metrics s0 = initial_metrics cfg ∧
  Forall (fun p => status p = Ready None ∧ holding p = 0 ∧
                   registered cfg (body p)) (procs s0).
Proof.
  unfold init_sim. intros H.
  destruct (forallb _ _); [|done].
  destruct (forward_chain _ _ _ _) as [[bufs chain]|] eqn:Hc; [|done].
  simplify_eq/=. split_and!; try done.
  apply forward_chain_registered in Hc.
  repeat (constructor; [done|]).
  apply Forall_fmap, Forall_app. split.
  - eapply Forall_impl; [exact Hc|]. by intros b Hb.
  - by repeat constructor.
Qed.

(** A property of single processes that every kind of step keeps holds
    along every schedule. *)
Lemma exec_local_invariant (J : Q → Proc → Prop) :
  (∀ now t p, J now p → (now <= t)%Q → can_tick t p = true → J t p) →
  (∀ now p u, J now p → status p = Sleeping u → (u == now)%Q →
     J now (mkProc (Ready None) (holding p) (body p))) →
  (∀ now p r bufs pool bufs' pool' v d,
     J now p → status p = Blocked r →
     do_request r bufs pool = Some (bufs', pool', v, d) →
     J now (mkProc (Ready v) (holding p + d) (body p))) →
  (∀ now p v bufs hp m e g b m' y pool bufs' pool' st d,
     J now p → status p = Ready v →
     resume_body (body p) v now bufs hp m e g = Some (b, m', y) →
     yield_ok y = true →
     settle y now bufs pool = (bufs', pool', st, d) →
     J now (mkProc st (holding p + d) b)) →
  ∀ sched s s',
    Forall (J (now s)) (procs s) → exec sched s = Some s' →
    Forall (J (now s')) (procs s').
Proof.
  intros Htick Hwake Hgrant Hresume sched.
  apply (exec_step_kind (fun s => Forall (J (now s)) (procs s))).
  intros s s' HJ Hstep.
  destruct Hstep as [t Ht Hcan ->|i p u Hi Hst Hu ->
                    |i p r bufs pool v d Hi Hst Hreq ->
                    |i p v e g b m y bufs pool st d Hi Hst Hrun Hok Hset ->];
    cbn.
  - apply Forall_forall. intros p Hp.
    eapply Htick; [|done|].
    + by eapply (proj1 (Forall_forall _ _) HJ).
    + by eapply (proj1 (Forall_forall _ _) Hcan).
  - apply Forall_insert; [done|].
    eapply Hwake; [|done..]. by eapply (Forall_lookup_1 _ _ _ _ HJ).
  - apply Forall_insert; [done|].
    eapply Hgrant; [|done..]. by eapply (Forall_lookup_1 _ _ _ _ HJ).
  - apply Forall_insert; [done|].
    eapply Hresume; [|done..]. by eapply (Forall_lookup_1 _ _ _ _ HJ).
Qed.

Lemma resume_same_kind b v now bufs hp m e g b' m' y :
  resume_body b v now bufs hp m e g = Some (b', m', y) → same_kind b b'.
Proof.
  destruct b as [rate stop st|inter stop st|delay pc held|pc toggle|pr a l
                |input started|every rows]; cbn; intros H.
  - destruct (new_orders_source _ _ _ _ _ _ _) as [[[??]?]|]; by simplify_eq/=.
  - destruct (returns_source _ _ _ _ _ _ _ _) as [[[??]?]|]; by simplify_eq/=.
  - destruct (reverse_shortcut _ _ _ _ _) as [[[??]?]|]; by simplify_eq/=.
  - destruct (reman_merge_feeder _ _ _ _) as [[[??]?]|]; by simplify_eq/=.
  - destruct (run_station _ _ _ _ _ _ _ _ _ _) as [[[??]?]|]; by simplify_eq/=.
  - by simplify_eq/=.
  - by simplify_eq/=.
Qed.

(** ** The returns source and its stop time *)

Lemma returns_top_cases inter h i now e :
  match returns_top inter (Some h) i now e with
  | Some (st', YReturn) => (h <= now)%Q ∧ st' = mkRetSrc SRC_top i 0
  | Some (st', YTimeout d) =>
      (now < h)%Q ∧ ¬ (inter == 0)%Q ∧
      (((h < now + e)%Q ∧ st' = mkRetSrc SRC_cutoff i 0 ∧ (now + d == h)%Q) ∨
       ((now + e <= h)%Q ∧ st' = mkRetSrc SRC_interarrival i 0 ∧ d = e))
  | Some (st', YRequest _) => False
  | None => (now < h)%Q ∧ (inter == 0)%Q
  end.
Proof.
  unfold returns_top, _should_stop.
  destruct (Py.ge now h) eqn:Hstop; py_bools; [done|].
  destruct (Qeq_bool inter 0) eqn:Hz.
  - apply Qeq_bool_iff in Hz. done.
  - apply Qeq_bool_neq in Hz.
    destruct (Py.gt (now + e) h) eqn:Hcross; py_bools.
    + split_and!; [done..|]. left. split_and!; [done..|].
      pose proof (py_max_upper 0 (h - now)).
      destruct (py_max_cases 0 (h - now)) as [H0|H0]; lra.
    + split_and!; [done..|]. by right.
Qed.

Lemma returns_inv_step h now p v bufs hp m e g b m' y pool bufs' pool' st d :
  returns_inv h now p → status p = Ready v →
  resume_body (body p) v now bufs hp m e g = Some (b, m', y) →
  yield_ok y = true →
  settle y now bufs pool = (bufs', pool', st, d) →
  returns_inv h now (mkProc st (holding p + d) b).
Proof.
  unfold returns_inv. intros HJ Hst Hrun Hok Hset.
  destruct p as [stat hold bd]; cbn in *. subst stat.
  pose proof (resume_same_kind _ _ _ _ _ _ _ _ _ _ _ Hrun) as Hkind.
  destruct bd as [| inter stop rs | | | | |]; try by destruct b.
  clear Hkind. cbn in Hrun. destruct HJ as [-> HJ].
  pose proof (settle_status _ _ _ _ _ _ _ _ Hset Hok) as Hs.
  assert (∀ i rs' y',
            returns_top inter (Some h) i now e = Some (rs', y') →
            yield_ok y' = true →
            ∀ st', match y' with
                   | YTimeout dl => st' = Sleeping (now + dl) ∧ d = 0 ∧ (0 <= dl)%Q
                   | YReturn => st' = Finished ∧ d = 0
                   | YRequest r =>
                       (st' = Blocked r ∧ d = 0) ∨
                       (∃ v, st' = Ready v ∧ d = request_delta r)
                   end →
            match rs_pc rs', st' with
            | SRC_interarrival, Sleeping u => (u <= h)%Q
            | SRC_interarrival, Ready _ => (now <= h)%Q
            | SRC_interarrival, _ => False
            | SRC_cutoff, Sleeping u => (u == h)%Q
            | _, _ => True
            end) as Htop.
  { intros i rs' y' Ht _ st' Hst'.
    pose proof (returns_top_cases inter h i now e) as Hc. rewrite Ht in Hc.
    destruct y' as [dl|r|]; [|done|].
    - destruct Hst' as (-> & _ & _).
      destruct Hc as (_ & _ & [(_ & -> & Heq)|(Hle & -> & ->)]); cbn; lra.
    - destruct Hst' as (-> & _). by destruct Hc as [_ ->]. }
  unfold returns_source in Hrun.
  destruct (rs_pc rs) eqn:Hpc.
  - destruct (returns_top _ _ _ _ _) as [[rs' y']|] eqn:Ht; [|done].
    simplify_eq/=. split; [done|]. by eapply Htop.
  - simplify_eq/=. destruct Hs as [-> _]. rewrite Hpc. done.
  - unfold returns_put_next in Hrun. crunch Hrun. split; [done|]. cbn.
    by destruct st.
  - destruct (rs_remaining rs).
    + destruct (returns_top _ _ _ _ _) as [[rs' y']|] eqn:Ht; [|done].
      simplify_eq/=. split; [done|]. by eapply Htop.
    + unfold returns_put_next in Hrun. crunch Hrun. split; [done|]. cbn.
      by destruct st.
Qed.

Lemma returns_inv_exec h sched s s' :
  Forall (returns_inv h (now s)) (procs s) → exec sched s = Some s' →
  Forall (returns_inv h (now s')) (procs s').
Proof.
  apply (exec_local_invariant (returns_inv h)).
  - unfold returns_inv, can_tick. intros now t p HJ Hle Hcan.
    destruct (body p); try done. destruct HJ as [-> HJ]. split; [done|].
    destruct (rs_pc _), (status p); try done.
  - unfold returns_inv. intros now p u HJ Hst Hu. cbn.
    destruct (body p); try done. destruct HJ as [-> HJ]. split; [done|].
    rewrite Hst in HJ. destruct (rs_pc _); try done. lra.
  - unfold returns_inv. intros now p r bufs pool bufs' pool' v d HJ Hst _. cbn.
    destruct (body p); try done. destruct HJ as [-> HJ]. split; [done|].
    rewrite Hst in HJ. by destruct (rs_pc _).
  - intros. by eapply returns_inv_step.
Qed.

(** X6: in every state a run reaches, the returns source works with the
    horizon as its stop time.  It starts a batch only when it is resumed
    from its interarrival wait, and that wait never ends after the horizon;
    a drawn interarrival that would cross the horizon is replaced by a wait
    that ends exactly at the horizon, after which the source ends.  At the
    top of its loop the source ends once the horizon is reached, and before
    that an interarrival mean of zero makes the draw raise. *)
Theorem returns_batches_within_horizon (cfg : Config) (s0 s : Sim)
    (sched : list Action) (i : nat) (p : Proc) (inter : Q) (stop : option Q)
    (st : RetSrc) :
  init_sim cfg = Some s0 →
  exec sched s0 = Some s →
  procs s !! i = Some p →
  body p = BReturns inter stop st →
  let h := horizon_min cfg in
  stop = Some h ∧
  (rs_pc st = SRC_interarrival →
   match status p with
   | Ready _ => (now s <= h)%Q
   | Sleeping u => (u <= h)%Q
   | _ => False
   end) ∧
  (rs_pc st = SRC_cutoff →
   (∀ u, status p = Sleeping u → (u == h)%Q) ∧
   ∀ e g, returns_source inter stop st (now s) (buffers s) (metrics s) e g =
          Some (st, metrics s, YReturn)) ∧
  (∀ n e,
     match returns_top inter stop n (now s) e with
     | Some (st', YReturn) => (h <= now s)%Q
     | Some (st', YTimeout d) =>
         (now s < h)%Q ∧
         (((h < now s + e)%Q ∧ rs_pc st' = SRC_cutoff ∧ (now s + d == h)%Q) ∨
          ((now s + e <= h)%Q ∧ rs_pc st' = SRC_interarrival ∧ d = e))
     | Some (st', YRequest _) => False
     | None => (now s < h)%Q ∧ (inter == 0)%Q
     end).
Proof.
  intros H0 Hx Hi Hb h.
  assert (Forall (returns_inv h (now s)) (procs s)) as HJ.
  { eapply returns_inv_exec; [|done].
    destruct (init_registered _ _ H0) as (_ & _ & Hreg).
    eapply Forall_impl; [exact Hreg|]. intros q (Hst & _ & Hq).
    unfold returns_inv. destruct (body q); try done.
    destruct Hq as (_ & -> & ->). by rewrite Hst. }
  pose proof (Forall_lookup_1 _ _ _ _ HJ Hi) as Hp.
  unfold returns_inv in Hp. rewrite Hb in Hp. destruct Hp as [-> Hp].
  split_and!; [done|..].
  - intros Hpc. rewrite Hpc in Hp. by destruct (status p).
  - intros Hpc. rewrite Hpc in Hp. split.
    + intros u Hu. by rewrite Hu in Hp.
    + intros e g. unfold returns_source. by rewrite Hpc.
  - intros n e. pose proof (returns_top_cases inter h n (now s) e) as Hc.
    destruct (returns_top _ _ _ _ _) as [[st' [d|r|]]|]; try done.
    + destruct Hc as (? & _ & [(? & -> & ?)|(? & -> & ?)]); split; try done.
      * by left.
      * by right.
    + by destruct Hc.
Qed.

Lemma returns_batches_within_horizon_witness :
  init_sim demo_cfg = Some demo_initial ∧
  exec returns_batch_sched demo_initial = Some returns_batch_state ∧
  (now returns_batch_state <= horizon_min demo_cfg)%Q.
Proof.
  assert (H0 : init_sim demo_cfg = Some demo_initial) by (vm_compute; reflexivity).
  assert (Hx : exec returns_batch_sched demo_initial = Some returns_batch_state)
    by (vm_compute; reflexivity).
  assert (Hi : procs returns_batch_state !! 1%nat =
               Some (mkProc (Ready None) 0
                       (BReturns 5 (Some (horizon_min demo_cfg))
                          (mkRetSrc SRC_interarrival 0 0))))
    by (vm_compute; reflexivity).
  destruct (returns_batches_within_horizon demo_cfg demo_initial
              returns_batch_state returns_batch_sched 1 _ _ _ _ H0 Hx Hi eq_refl)
    as (_ & Hbatch & _).
  split; [exact H0|]. split; [exact Hx|].
  exact (Hbatch eq_refl).
Defined.

(** ** The sampler *)

Lemma sampler_inv_step now p v bufs hp m e g b m' y pool bufs' pool' st d :
  sampler_inv now p → status p = Ready v →
  resume_body (body p) v now bufs hp m e g = Some (b, m', y) →
  yield_ok y = true →
  settle y now bufs pool = (bufs', pool', st, d) →
  sampler_inv now (mkProc st (holding p + d) b).
Proof.
  unfold sampler_inv. intros HJ Hst Hrun Hok Hset.
  destruct p as [stat hold bd]; cbn in *. subst stat.
  pose proof (resume_same_kind _ _ _ _ _ _ _ _ _ _ _ Hrun) as Hkind.
  destruct bd as [| | | | | |every rows]; try by destruct b.
  clear Hkind. cbn in Hrun. simplify_eq.
  pose proof (settle_status _ _ _ _ _ _ _ _ Hset Hok) as (-> & _ & Hevery).
  destruct HJ as (Hfirst & Hnext & Hpast & Hnow).
  split_and!.
  - intros row Hk. destruct rows as [|r0 rows].
    + cbn in Hk, Hnow. simplify_eq. exact Hnow.
    + cbn in Hk. simplify_eq. by apply (Hfirst row).
  - intros k r1 r2 H1 H2.
    apply lookup_app_Some in H2 as [H2|[Hlen H2]].
    + apply lookup_app_Some in H1 as [H1|[Hlen1 _]].
      * by eapply Hnext.
      * apply lookup_lt_Some in H2. lia.
    + apply list_lookup_singleton_Some in H2 as [H2 <-]. cbn.
      assert (S k = length rows) as Hk by lia.
      apply lookup_app_Some in H1 as [H1|[Hlen1 _]]; [|lia].
      assert (last rows = Some r1) as Hl.
      { rewrite last_lookup, <- Hk. done. }
      rewrite Hl in Hnow. done.
  - intros k row Hk. apply lookup_app_Some in Hk as [Hk|[Hlen Hk]].
    + by eapply Hpast.
    + apply list_lookup_singleton_Some in Hk as [Hk <-]. cbn. lra.
  - rewrite last_snoc. cbn. reflexivity.
Qed.

Lemma sampler_inv_exec sched s s' :
  Forall (sampler_inv (now s)) (procs s) → exec sched s = Some s' →
  Forall (sampler_inv (now s')) (procs s').
Proof.
  apply (exec_local_invariant sampler_inv).
  - unfold sampler_inv, can_tick. intros now t p HJ Hle Hcan.
    destruct (body p); try done. destruct HJ as (Hfirst & Hnext & Hpast & Hst).
    split_and!; [done|done| |].
    + intros k row Hk. specialize (Hpast k row Hk). lra.
    + by destruct (status p).
  - unfold sampler_inv. intros now p u HJ Hst Hu. cbn.
    destruct (body p); try done. destruct HJ as (Hfirst & Hnext & Hpast & Hs).
    rewrite Hst in Hs. split_and!; [done..|].
    destruct (last _); [lra|done].
  - unfold sampler_inv. intros now p r bufs pool bufs' pool' v d HJ Hst _. cbn.
    destruct (body p); try done. destruct HJ as (_ & _ & _ & Hs).
    by rewrite Hst in Hs.
  - intros. by eapply sampler_inv_step.
Qed.

(** X7: in every state a run reaches, the inventory rows the sampler has
    appended follow its period ([sample_every_min], ten minutes when none
    is configured): the first row carries the time zero, every further row
    the time of the row before it plus the period, and no row carries a
    time in the future. *)
Theorem sampler_rows_on_grid (cfg : Config) (s0 s : Sim) (sched : list Action)
    (i : nat) (p : Proc) (every : Q) (rows : list Row) :
  init_sim cfg = Some s0 →
  exec sched s0 = Some s →
  procs s !! i = Some p →
  body p = BSampler every rows →
  every = default (10 # 1)%Q (sample_every_min cfg) ∧
  (∀ row, rows !! 0%nat = Some row → (time_min row == 0)%Q) ∧
  (∀ k r1 r2, rows !! k = Some r1 → rows !! S k = Some r2 →
              (time_min r2 == time_min r1 + every)%Q) ∧
  (∀ k row, rows !! k = Some row → (time_min row <= now s)%Q).
Proof.
  intros H0 Hx Hi Hb.
  destruct (init_registered _ _ H0) as (Hnow & _ & Hreg).
  assert (Forall (fun q => sampler_inv (now s) q ∧
                           ∀ e r, body q = BSampler e r →
                                  e = default (10 # 1)%Q (sample_every_min cfg))
            (procs s)) as HJ.
  { apply Forall_and. split.
    - eapply sampler_inv_exec; [|done].
      eapply Forall_impl; [exact Hreg|]. intros q (Hst & _ & Hq).
      unfold sampler_inv. destruct (body q); try done.
      destruct Hq as (_ & ->). rewrite Hst, Hnow. cbn. split_and!; try done.
    - revert Hx.
      apply (exec_local_invariant
               (fun _ q => ∀ e r, body q = BSampler e r →
                                  e = default (10 # 1)%Q (sample_every_min cfg)));
        try done.
      + intros ? q v bufs hp m e g b m' y ? ? ? ? ? Hq _ Hrun _ _ e' r' Hb'.
        cbn in Hb'. subst b.
        pose proof (resume_same_kind _ _ _ _ _ _ _ _ _ _ _ Hrun) as Hkind.
        destruct (body q); try done. cbn in Hkind. subst. by eapply Hq.
      + eapply Forall_impl; [exact Hreg|]. intros q (_ & _ & Hq) e r Hbq.
        rewrite Hbq in Hq. by destruct Hq. }
  destruct (Forall_lookup_1 _ _ _ _ HJ Hi) as [Hp Hev].
  split; [by eapply Hev|].
  unfold sampler_inv in Hp. rewrite Hb in Hp.
  destruct Hp as (Hfirst & Hnext & Hpast & _). done.
Qed.

Lemma sampler_rows_on_grid_witness :
  init_sim sampling_cfg = Some (run_from_init sampling_cfg []) ∧
  exec sampling_sched (run_from_init sampling_cfg []) = Some sampling_state ∧
  time_min <$> sampled_rows sampling_state = [0%Q; (1 # 2)%Q; 1%Q] ∧
  (∀ row, sampled_rows sampling_state !! 0%nat = Some row →
          (time_min row == 0)%Q) ∧
  (∀ k r1 r2, sampled_rows sampling_state !! k = Some r1 →
              sampled_rows sampling_state !! S k = Some r2 →
              (time_min r2 == time_min r1 + (1 # 2))%Q) ∧
  (∀ k row, sampled_rows sampling_state !! k = Some row →
            (time_min row <= now sampling_state)%Q).
Proof.
  assert (H0 : init_sim sampling_cfg = Some (run_from_init sampling_cfg []))
    by (vm_compute; reflexivity).
  assert (Hx : exec sampling_sched (run_from_init sampling_cfg []) =
               Some sampling_state)
    by (vm_compute; reflexivity).
  assert (Hi : procs sampling_state !! 6%nat = Some (last_proc sampling_state))
    by (vm_compute; reflexivity).
  assert (Hb : body (last_proc sampling_state) =
               BSampler (1 # 2) (sampled_rows sampling_state))
    by (vm_compute; reflexivity).
  split; [exact H0|]. split; [exact Hx|]. split; [vm_compute; reflexivity|].
  exact (proj2 (sampler_rows_on_grid sampling_cfg _ sampling_state
                  sampling_sched 6 _ _ _ H0 Hx Hi Hb)).
Defined.

(** ** The arrival counters *)

Lemma sum_procs_insert (f : Proc → Z) (ps : list Proc) i p p' :
  ps !! i = Some p →
  sum_procs f (<[i := p']> ps) = sum_procs f ps - f p + f p'.
Proof.
  revert i. induction ps as [|q ps IH]; intros [|i] Hi; try done.
  - injection Hi as ->. unfold sum_procs. cbn. lia.
  - change (<[S i := p']> (q :: ps)) with (q :: <[i := p']> ps).
    change (sum_procs f (q :: <[i := p']> ps))
      with (f q + sum_procs f (<[i := p']> ps)).
    change (sum_procs f (q :: ps)) with (f q + sum_procs f ps).
    rewrite (IH i) by done. lia.
Qed.

Lemma sum_procs_zero (f : Proc → Z) (ps : list Proc) :
  Forall (fun p => f p = 0) ps → sum_procs f ps = 0.
Proof.
  induction 1 as [|p ps Hp _ IH]; [done|].
  change (f p + sum_procs f ps = 0). lia.
Qed.

Lemma sum_procs_single (f : Proc → Z) (ps : list Proc) i p :
  ps !! i = Some p →
  (∀ j q, ps !! j = Some q → j ≠ i → f q = 0) →
  sum_procs f ps = f p.
Proof.
  revert i. induction ps as [|q ps IH]; intros [|i] Hi Hz; try done.
  - injection Hi as ->. change (f p + sum_procs f ps = f p).
    rewrite sum_procs_zero; [lia|].
    apply Forall_lookup. intros j q Hj. by apply (Hz (S j)).
  - change (f q + sum_procs f ps = f p).
    rewrite (Hz 0%nat q) by done. rewrite (IH i); [lia|done|].
    intros j r Hj Hne. apply (Hz (S j)); [done|lia].
Qed.

Lemma sum_procs_ge (f : Proc → Z) (ps : list Proc) i p :
  (∀ q, 0 <= f q) → ps !! i = Some p → f p <= sum_procs f ps.
Proof.
  intros Hf. revert i. induction ps as [|q ps IH]; intros [|i] Hi; try done.
  - injection Hi as ->. change (f p <= f p + sum_procs f ps).
    assert (0 <= sum_procs f ps); [|lia].
    clear -Hf. induction ps as [|r ps IH]; [done|].
    change (0 <= f r + sum_procs f ps). specialize (Hf r). lia.
  - change (f p <= f q + sum_procs f ps).
    specialize (IH i Hi). specialize (Hf q). lia.
Qed.

Lemma counters_begin m s : counters (_begin_processing m s) = counters m.
Proof. unfold _begin_processing. by destruct (_ >? _). Qed.

Lemma counters_end m s : counters (_end_processing m s) = counters m.
Proof. done. Qed.

Lemma counters_add_resources m s k a : counters (_add_resources m s k a) = counters m.
Proof. done. Qed.

Lemma counters_mix a l m : counters (pressen1_mix a l m) = counters m.
Proof. unfold pressen1_mix. by repeat case_match. Qed.

Lemma counters_update a l m : counters (metrics_update a l m) = counters m.
Proof. done. Qed.

(** A station runner never touches the arrival and throughput counters. *)
Lemma run_station_counters pr a l v now bufs hp m e g l' m' y :
  run_station pr a l v now bufs hp m e g = Some (l', m', y) →
  counters m' = counters m.
Proof.
  unfold run_station, station_process, station_publish. intros H.
  destruct (st_pc l); crunch H; simplify_eq;
    rewrite ?counters_update, ?counters_mix, ?counters_add_resources,
      ?counters_begin, ?counters_end; try done.
  all: destruct pr;
    rewrite ?counters_update, ?counters_mix, ?counters_add_resources; done.
Qed.

Lemma same_kind_refl b : same_kind b b.
Proof. by destruct b. Qed.

Lemma same_kind_trans b1 b2 b3 :
  same_kind b1 b2 → same_kind b2 b3 → same_kind b1 b3.
Proof. destruct b1, b2, b3; cbn; try done; intuition congruence. Qed.

(** Along a run every process keeps running the generator it was registered
    with. *)
Lemma exec_same_kind sched s s' :
  exec sched s = Some s' →
  ∀ i p', procs s' !! i = Some p' →
          ∃ p, procs s !! i = Some p ∧ same_kind (body p) (body p').
Proof.
  apply (exec_step_kind
           (fun s' => ∀ i p', procs s' !! i = Some p' →
                              ∃ p, procs s !! i = Some p ∧
                                   same_kind (body p) (body p'))).
  - intros s1 s2 HI Hstep.
    assert (∀ j q q', procs s1 !! j = Some q → same_kind (body q) (body q') →
              ∀ i p', <[j := q']> (procs s1) !! i = Some p' →
                      ∃ p, procs s !! i = Some p ∧ same_kind (body p) (body p'))
      as Hins.
    { intros j q q' Hj Hk i p' Hi.
      apply list_lookup_insert_Some in Hi as [(-> & -> & _)|[_ Hi]].
      - destruct (HI _ _ Hj) as (p & Hp & Hpk). exists p. split; [done|].
        by eapply same_kind_trans.
      - by apply HI. }
    destruct Hstep as [t Ht Hcan ->|i p u Hi Hst Hu ->
                      |i p r bufs pool v d Hi Hst Hreq ->
                      |i p v e g b m y bufs pool st d Hi Hst Hrun Hok Hset ->];
      cbn; [done|..].
    + eapply Hins; [done|]. apply same_kind_refl.
    + eapply Hins; [done|]. apply same_kind_refl.
    + eapply Hins; [done|]. by eapply resume_same_kind.
  - intros i p' Hi. exists p'. split; [done|]. apply same_kind_refl.
Qed.

Lemma step_bodies_chain rel step prev out bufs bodies :
  step_bodies rel step prev out bufs = Some bodies → Forall chain_body bodies.
Proof.
  unfold step_bodies. intros H.
  destruct (String.eqb _ _).
  - crunch H. by repeat constructor.
  - destruct (_ <=? _); [by simplify_eq|].
    crunch H. apply Forall_forall. intros b Hb.
    apply list_elem_of_In, in_map_iff in Hb as (m & <- & _). done.
Qed.

Lemma forward_chain_chain rel steps : ∀ prev bufs bufs' chain,
  forward_chain rel steps prev bufs = Some (bufs', chain) →
  Forall chain_body chain.
Proof.
  induction steps as [|step rest IH]; intros prev bufs bufs' chain H; cbn in H.
  - by simplify_eq.
  - destruct (String.eqb _ "sink").
    + crunch H. by repeat constructor.
    + destruct (step_bodies _ _ _ _ _) as [bodies|] eqn:Hb; [|done]. cbn in H.
      destruct (forward_chain _ _ _ _) as [[bufs2 more]|] eqn:Hc; [|done].
      simplify_eq/=. apply Forall_app. split.
      * by eapply step_bodies_chain.
      * by eapply IH.
Qed.

(** The order of registration: the new-orders source, the returns source,
    the shortcut, the merge feeder, the forward chain, the sampler. *)
Lemma init_procs cfg s0 :
  init_sim cfg = Some s0 →
  ∃ chain every,
    Forall chain_body chain ∧
    procs s0 =
      mkProc (Ready None) 0 <$>
        ([ BNew (rate_per_min cfg) (Some (stop_new_at cfg)) (mkNewSrc SRC_top 1);
           BReturns (interarrival_min cfg) (Some (horizon_min cfg))
             (mkRetSrc SRC_top 0 0);
           BShortcut (default (5 # 1)%Q (shortcut_delay_min cfg)) SC_start None;
           BMerge MF_start 0 ] ++ chain ++ [BSampler every []]).
Proof.
  unfold init_sim. intros H.
  destruct (forallb _ _); [|done].
  destruct (forward_chain _ _ _ _) as [[bufs chain]|] eqn:Hc; [|done].
  simplify_eq/=. eexists chain, _. split; [|done].
  by eapply forward_chain_chain.
Qed.

(** In a run the new-orders source is process 0 and the returns source
    process 1; no other process is a source. *)
Lemma sources_unique cfg s0 sched s i p :
  init_sim cfg = Some s0 → exec sched s0 = Some s →
  procs s !! i = Some p →
  (is_new_source (body p) = true ↔ i = 0%nat) ∧
  (is_returns_source (body p) = true ↔ i = 1%nat).
Proof.
  intros H0 Hx Hi.
  destruct (exec_same_kind _ _ _ Hx _ _ Hi) as (q & Hq & Hk).
  destruct (init_procs _ _ H0) as (chain & every & Hchain & Hprocs).
  assert (is_new_source (body p) = is_new_source (body q) ∧
          is_returns_source (body p) = is_returns_source (body q)) as [-> ->].
  { by destruct (body q), (body p). }
  rewrite Hprocs, list_lookup_fmap in Hq.
  apply fmap_Some in Hq as (b & Hb & ->). cbn [body].
  destruct i as [|[|[|[|i]]]]; cbn in Hb; simplify_eq/=; try done.
  apply lookup_app_Some in Hb as [Hb|[_ Hb]].
  - pose proof (Forall_lookup_1 _ _ _ _ Hchain Hb) as Hcb.
    by destruct b.
  - apply list_lookup_singleton_Some in Hb as [_ <-]. done.
Qed.

Lemma new_orders_top_shape rate stop c now e :
  ns_counter (fst (new_orders_top rate stop c now e)) = c ∧
  ns_pc (fst (new_orders_top rate stop c now e)) ≠ SRC_put.
Proof. unfold new_orders_top. by repeat case_match. Qed.

Lemma returns_top_shape inter stop i now e st y :
  returns_top inter stop i now e = Some (st, y) →
  rs_i st = i ∧ rs_pc st ≠ SRC_put.
Proof. unfold returns_top. intros H. by repeat case_match; simplify_eq. Qed.

(** What one resume does to the counters: a source counts exactly the
    tokens it settles, the sink counts up, nobody else counts. *)
Lemma resume_counters b v now bufs hp m e g b' m' y :
  resume_body b v now bufs hp m e g = Some (b', m', y) →
  arrivals_new m' + lost_new_due_to_neu_lager_full m' =
    arrivals_new m + lost_new_due_to_neu_lager_full m +
    (new_settled b' - new_settled b) ∧
  arrivals_new m <= arrivals_new m' ∧
  lost_new_due_to_neu_lager_full m <= lost_new_due_to_neu_lager_full m' ∧
  arrivals_returns m' =
    arrivals_returns m + (returns_settled b' - returns_settled b) ∧
  throughput_kunde m <= throughput_kunde m'.
Proof.
  destruct b as [rate stop st|inter stop st|delay pc held|pc toggle|pr a l
                |input started|every rows]; cbn; intros H.
  - unfold new_orders_source in H.
    destruct st as [pc c]; cbn in H.
    destruct pc; cbn in H.
    + pose proof (new_orders_top_shape rate stop c now e) as [Hc Hpc].
      destruct (new_orders_top _ _ _ _ _) as [[pc' c'] y']; simplify_eq/=.
      destruct pc'; try done; lia.
    + simplify_eq/=. lia.
    + destruct (bufs !! "neu_lager") as [neu|]; [|done]. cbn in H.
      destruct (_ <? _).
      * simplify_eq/=. lia.
      * pose proof (new_orders_top_shape rate stop (S c) now e) as [Hc Hpc].
        destruct (new_orders_top _ _ _ _ _) as [[pc' c'] y']; simplify_eq/=.
        destruct pc'; try done; lia.
    + pose proof (new_orders_top_shape rate stop c now e) as [Hc Hpc].
      destruct (new_orders_top _ _ _ _ _) as [[pc' c'] y']; simplify_eq/=.
      destruct pc'; try done; lia.
  - unfold returns_source, returns_put_next in H.
    destruct st as [pc i k]; cbn in H.
    destruct pc; cbn in H.
    + destruct (returns_top _ _ _ _ _) as [[[pc' i' k'] y']|] eqn:Ht; [|done].
      apply returns_top_shape in Ht as [Hi Hpc]. simplify_eq/=.
      destruct pc'; try done; lia.
    + simplify_eq/=. lia.
    + destruct (bufs !! "warenannahme"); [|done]. simplify_eq/=. lia.
    + destruct k.
      * destruct (returns_top _ _ _ _ _) as [[[pc' i' k'] y']|] eqn:Ht; [|done].
        apply returns_top_shape in Ht as [Hi Hpc]. simplify_eq/=.
        destruct pc'; try done; lia.
      * destruct (bufs !! "warenannahme"); [|done]. simplify_eq/=. lia.
  - destruct (reverse_shortcut _ _ _ _ _) as [[[??]?]|]; simplify_eq/=. lia.
  - destruct (reman_merge_feeder _ _ _ _) as [[[??]?]|]; simplify_eq/=. lia.
  - destruct (run_station _ _ _ _ _ _ _ _ _ _) as [[[??]?]|] eqn:Hrun; [|done].
    simplify_eq/=. apply run_station_counters in Hrun.
    unfold counters in Hrun. simplify_eq. lia.
  - unfold sink_consumer in H. simplify_eq/=. destruct started; cbn; lia.
  - simplify_eq/=. lia.
Qed.

Lemma counters_inv_exec sched s s' :
  counters_inv s → exec sched s = Some s' → counters_inv s'.
Proof.
  apply (exec_step_kind counters_inv). clear s s'.
  intros s s' HI Hstep. unfold counters_inv in *.
  destruct Hstep as [t Ht Hcan ->|i p u Hi Hst Hu ->
                    |i p r bufs pool v d Hi Hst Hreq ->
                    |i p v e g b m y bufs pool st d Hi Hst Hrun Hok Hset ->];
    cbn [procs metrics]; rewrite ?(sum_procs_insert _ _ _ _ _ Hi); cbn [body];
    [done|split_and!; lia..|].
  pose proof (resume_counters _ _ _ _ _ _ _ _ _ _ _ Hrun). split_and!; lia.
Qed.

Lemma counters_inv_reachable cfg s0 sched s :
  init_sim cfg = Some s0 → exec sched s0 = Some s → counters_inv s.
Proof.
  intros H0 Hx. eapply counters_inv_exec; [|done].
  destruct (init_registered _ _ H0) as (_ & Hm & Hreg).
  unfold counters_inv. rewrite Hm. cbn.
  rewrite !sum_procs_zero; [done|..].
  - eapply Forall_impl; [exact Hreg|]. intros q (_ & _ & Hq).
    destruct (body q); try done. by destruct Hq as (_ & _ & ->).
  - eapply Forall_impl; [exact Hreg|]. intros q (_ & _ & Hq).
    destruct (body q); try done. by destruct Hq as (_ & _ & ->).
Qed.

(** ** The sources and their counters *)

(** X8: in every state a run reaches, every number the counter of the
    new-orders source has handed out is accounted for exactly once: it
    belongs to a token that arrived ([arrivals_new]), to one that was lost at
    a full [neu_lager], or to the one token whose put the source still waits
    for.  Both counters are never negative. *)
Theorem new_orders_all_counted (cfg : Config) (s0 s : Sim) (sched : list Action)
    (i : nat) (p : Proc) (rate : Q) (stop : option Q) (st : NewSrc) :
  init_sim cfg = Some s0 →
  exec sched s0 = Some s →
  procs s !! i = Some p →
  body p = BNew rate stop st →
  Z.of_nat (ns_counter st) - 1 =
    arrivals_new (metrics s) + lost_new_due_to_neu_lager_full (metrics s) +
    (match ns_pc st with SRC_put => 1 | _ => 0 end) ∧
  0 <= arrivals_new (metrics s) ∧
  0 <= lost_new_due_to_neu_lager_full (metrics s).
Proof.
  intros H0 Hx Hi Hb.
  destruct (counters_inv_reachable _ _ _ _ H0 Hx) as (Hnew & _ & Ha & Hl & _).
  split_and!; [|done..].
  rewrite (sum_procs_single _ _ i p Hi) in Hnew.
  - rewrite Hb in Hnew. cbn in Hnew. lia.
  - intros j q Hj Hne.
    destruct (sources_unique _ _ _ _ _ _ H0 Hx Hj) as [Hq _].
    destruct (sources_unique _ _ _ _ _ _ H0 Hx Hi) as [Hp _].
    rewrite Hb in Hp. cbn in Hp.
    destruct (body q); try done. cbn in Hq. lia.
Qed.

(** X9: in every state a run reaches, the running number [i] of the returns
    source equals [arrivals_returns], plus one while the source waits for
    the put of the unit numbered [i]: every unit it has numbered is counted
    exactly once, as soon as its put has returned. *)
Theorem returns_all_counted (cfg : Config) (s0 s : Sim) (sched : list Action)
    (i : nat) (p : Proc) (inter : Q) (stop : option Q) (st : RetSrc) :
  init_sim cfg = Some s0 →
  exec sched s0 = Some s →
  procs s !! i = Some p →
  body p = BReturns inter stop st →
  Z.of_nat (rs_i st) =
    arrivals_returns (metrics s) +
    (match rs_pc st with SRC_put => 1 | _ => 0 end).
Proof.
  intros H0 Hx Hi Hb.
  destruct (counters_inv_reachable _ _ _ _ H0 Hx) as (_ & Hret & _).
  rewrite (sum_procs_single _ _ i p Hi) in Hret.
  - rewrite Hb in Hret. cbn in Hret. lia.
  - intros j q Hj Hne.
    destruct (sources_unique _ _ _ _ _ _ H0 Hx Hj) as [_ Hq].
    destruct (sources_unique _ _ _ _ _ _ H0 Hx Hi) as [_ Hp].
    rewrite Hb in Hp. cbn in Hp.
    destruct (body q); try done. cbn in Hq. lia.
Qed.

Lemma new_orders_all_counted_witness :
  init_sim demo_cfg = Some demo_initial ∧
  exec demo_sched demo_initial = Some demo_final ∧
  Z.of_nat (ns_counter (new_source_locals demo_final)) - 1 =
    arrivals_new (metrics demo_final) +
    lost_new_due_to_neu_lager_full (metrics demo_final) +
    (match ns_pc (new_source_locals demo_final) with SRC_put => 1 | _ => 0 end).
Proof.
  assert (H0 : init_sim demo_cfg = Some demo_initial) by (vm_compute; reflexivity).
  assert (Hx : exec demo_sched demo_initial = Some demo_final)
    by (vm_compute; reflexivity).
  assert (Hi : procs demo_final !! 0%nat = Some (proc_at demo_final 0))
    by (vm_compute; reflexivity).
  assert (Hb : body (proc_at demo_final 0) =
               BNew 1 (Some (stop_new_at demo_cfg)) (new_source_locals demo_final))
    by (vm_compute; reflexivity).
  split; [exact H0|]. split; [exact Hx|].
  exact (proj1 (new_orders_all_counted demo_cfg demo_initial demo_final
                  demo_sched 0 _ _ _ _ H0 Hx Hi Hb)).
Defined.

Lemma returns_all_counted_witness :
  init_sim demo_cfg = Some demo_initial ∧
  exec returns_counted_sched demo_initial = Some returns_counted_state ∧
  rs_i (returns_source_locals returns_counted_state) = 2%nat ∧
  arrivals_returns (metrics returns_counted_state) = 2 ∧
  Z.of_nat (rs_i (returns_source_locals returns_counted_state)) =
    arrivals_returns (metrics returns_counted_state) +
    (match rs_pc (returns_source_locals returns_counted_state) with
     | SRC_put => 1 | _ => 0 end).
Proof.
  assert (H0 : init_sim demo_cfg = Some demo_initial) by (vm_compute; reflexivity).
  assert (Hx : exec returns_counted_sched demo_initial =
               Some returns_counted_state)
    by (vm_compute; reflexivity).
  assert (Hi : procs returns_counted_state !! 1%nat =
               Some (proc_at returns_counted_state 1))
    by (vm_compute; reflexivity).
  assert (Hb : body (proc_at returns_counted_state 1) =
               BReturns 5 (Some (horizon_min demo_cfg))
                 (returns_source_locals returns_counted_state))
    by (vm_compute; reflexivity).
  split; [exact H0|]. split; [exact Hx|].
  split; [vm_compute; reflexivity|]. split; [vm_compute; reflexivity|].
  exact (returns_all_counted demo_cfg demo_initial returns_counted_state
           returns_counted_sched 1 _ _ _ _ H0 Hx Hi Hb).
Defined.

(** ** The live in-process gauge in a run *)

Lemma inproc_add_resources m s k a : inproc (_add_resources m s k a) = inproc m.
Proof. done. Qed.

Lemma inproc_mix a l m : inproc (pressen1_mix a l m) = inproc m.
Proof. unfold pressen1_mix. by repeat case_match. Qed.

Lemma inproc_update a l m : inproc (metrics_update a l m) = inproc m.
Proof. done. Qed.

Lemma station_top_pc priority a l bufs l' y :
  station_top priority a l bufs = Some (l', y) → st_pc l' ≠ ST_process.
Proof.
  intros H. apply station_top_inv in H as (_ & _ & _ & _ & [[-> _]|[-> _]]); done.
Qed.

(** A runner calls [_begin_processing] exactly when it enters its cycle-time
    wait and [_end_processing] exactly when it leaves it. *)
Lemma run_station_inproc pr a l v now bufs hp m e g l' m' y :
  run_station pr a l v now bufs hp m e g = Some (l', m', y) →
  match st_pc l, st_pc l' with
  | ST_process, ST_process => False
  | ST_process, _ => inproc m' = inproc (_end_processing m (base_id a))
  | _, ST_process => inproc m' = inproc (_begin_processing m (base_id a))
  | _, _ => inproc m' = inproc m
  end.
Proof.
  unfold run_station, station_process, station_publish. intros H.
  destruct (st_pc l) eqn:Hpc.
  - destruct (station_top _ _ _ _) as [[l1 y1]|] eqn:Htop; simplify_eq/=.
    apply station_top_pc in Htop. by destruct (st_pc l').
  - destruct (station_top _ _ _ _) as [[l1 y1]|] eqn:Htop; simplify_eq/=.
    apply station_top_pc in Htop. by destruct (st_pc l').
  - destruct v; simplify_eq/=. by destruct (uses_workers hp a); simplify_eq/=.
  - by simplify_eq/=.
  - destruct (uses_workers hp a); simplify_eq/=; [done|].
    destruct (item l); by simplify_eq/=.
  - destruct (item l); by simplify_eq/=.
  - assert (∀ l2 m2 l3 y3,
              station_top pr a l2 bufs = Some (l3, y3) →
              inproc (metrics_update a l2
                        (if pr then pressen1_mix a l m2 else m2)) = inproc m2 ∧
              st_pc l3 ≠ ST_process) as Htop.
    { intros l2 m2 l3 y3 Ht. split; [|by eapply station_top_pc].
      rewrite inproc_update. destruct pr; [apply inproc_mix|done]. }
    destruct (ext_le0 _).
    + destruct (Py.gt _ 0).
      * simplify_eq/=. destruct pr; by rewrite ?inproc_mix, inproc_add_resources.
      * destruct (station_top _ _ _ _) as [[l1 y1]|] eqn:Ht; simplify_eq/=.
        destruct (Htop _ (_add_resources m (base_id a)
                     (default (0%Q, 0%Q) (station_intensity m !! base_id a)).1
                     (default (0%Q, 0%Q) (station_intensity m !! base_id a)).2)
                   _ _ Ht) as [Hm Hl].
        rewrite Hm, inproc_add_resources. by destruct (st_pc l').
    + destruct (station_top _ _ _ _) as [[l1 y1]|] eqn:Ht; simplify_eq/=.
      destruct (Htop _ (_add_resources m (base_id a)
                   (default (0%Q, 0%Q) (station_intensity m !! base_id a)).1
                   (default (0%Q, 0%Q) (station_intensity m !! base_id a)).2)
                 _ _ Ht) as [Hm Hl].
      rewrite Hm, inproc_add_resources. by destruct (st_pc l').
  - destruct (station_top _ _ _ _) as [[l1 y1]|] eqn:Ht; simplify_eq/=.
    apply station_top_pc in Ht. rewrite inproc_update. by destruct (st_pc l').
Qed.

Lemma inproc_gauge m1 m2 k :
  inproc m1 = inproc m2 → gauge k m1 = gauge k m2 ∧ peak k m1 = peak k m2.
Proof. unfold inproc, gauge, peak. by intros [= -> ->]. Qed.

(** Only station runners touch the in-process dicts. *)
Lemma resume_inproc_frame b v now bufs hp m e g b' m' y :
  resume_body b v now bufs hp m e g = Some (b', m', y) →
  station_args_of b = None → inproc m' = inproc m.
Proof.
  destruct b as [rate stop st|inter stop st|delay pc held|pc toggle|pr a l
                |input started|every rows]; cbn; intros H Hb; try done.
  - unfold new_orders_source in H. by crunch H.
  - unfold returns_source in H. by crunch H.
  - destruct (reverse_shortcut _ _ _ _ _) as [[[??]?]|]; by simplify_eq/=.
  - destruct (reman_merge_feeder _ _ _ _) as [[[??]?]|]; by simplify_eq/=.
  - unfold sink_consumer in H. simplify_eq/=. by destruct started.
  - by simplify_eq/=.
Qed.

Lemma resume_inproc b v now bufs hp m e g b' m' y k :
  resume_body b v now bufs hp m e g = Some (b', m', y) →
  processing k b <= gauge k m → gauge k m <= peak k m →
  gauge k m' = gauge k m + processing k b' - processing k b ∧
  gauge k m' <= peak k m' ∧
  (peak k m' = peak k m ∨ peak k m' = gauge k m').
Proof.
  intros H Hge Hpk.
  destruct (station_args_of b) as [a0|] eqn:Hb.
  - destruct b as [| | | |pr a l| |]; cbn in Hb; try done. clear Hb. cbn in H.
    destruct (run_station _ _ _ _ _ _ _ _ _ _) as [[[l1 m1] y1]|] eqn:Hrun;
      [|done].
    simplify_eq/=. apply run_station_inproc in Hrun.
    destruct (String.eqb (base_id a) k) eqn:Hk.
    + apply String.eqb_eq in Hk. subst k.
      pose proof (begin_gauge (base_id a) m).
      pose proof (begin_peak (base_id a) m).
      pose proof (end_gauge (base_id a) m).
      pose proof (end_peak (base_id a) m).
      destruct (st_pc l), (st_pc l1); try done;
        apply (inproc_gauge _ _ (base_id a)) in Hrun as [Hg Hp]; lia.
    + apply String.eqb_neq in Hk.
      assert (k ≠ base_id a) as Hne by done.
      destruct (begin_other _ _ m Hne).
      destruct (end_other _ _ m Hne).
      destruct (st_pc l), (st_pc l1); try done;
        apply (inproc_gauge _ _ k) in Hrun as [Hg Hp]; lia.
  - pose proof (resume_inproc_frame _ _ _ _ _ _ _ _ _ _ _ H Hb) as Hm.
    apply (inproc_gauge _ _ k) in Hm as [Hg Hp].
    pose proof (resume_same_kind _ _ _ _ _ _ _ _ _ _ _ H) as Hkind.
    assert (processing k b = 0 ∧ processing k b' = 0) as [-> ->].
    { by destruct b, b'. }
    lia.
Qed.

Lemma sum_procs_le (f g : Proc → Z) (ps : list Proc) :
  (∀ p, f p <= g p) → sum_procs f ps <= sum_procs g ps.
Proof.
  intros Hfg. induction ps as [|p ps IH]; [done|].
  change (f p + sum_procs f ps <= g p + sum_procs g ps).
  specialize (Hfg p). lia.
Qed.

Lemma processing_bounds k b : 0 <= processing k b <= runs_station k b.
Proof.
  destruct b as [| | | |pr a l| |]; cbn; try lia.
  destruct (st_pc l), (String.eqb _ _); lia.
Qed.

Lemma runs_station_same_kind k b b' :
  same_kind b b' → runs_station k b' = runs_station k b.
Proof. destruct b, b'; cbn; try done. by intros [_ ->]. Qed.

Lemma gauge_inv_exec sched s s' :
  gauge_inv s → exec sched s = Some s' → gauge_inv s'.
Proof.
  apply (exec_step_kind gauge_inv). clear s s'.
  intros s s' HI Hstep k. specialize (HI k). destruct HI as (Hg & Hgp & Hpr).
  destruct Hstep as [t Ht Hcan ->|i p u Hi Hst Hu ->
                    |i p r bufs pool v d Hi Hst Hreq ->
                    |i p v e g b m y bufs pool st d Hi Hst Hrun Hok Hset ->];
    cbn [procs metrics]; rewrite ?(sum_procs_insert _ _ _ _ _ Hi); cbn [body];
    [done|split_and!; lia..|].
  pose proof (sum_procs_ge (fun q => processing k (body q)) _ _ _
                (fun q => proj1 (processing_bounds k (body q))) Hi) as Hsum.
  cbn beta in Hsum.
  destruct (resume_inproc _ _ _ _ _ _ _ _ _ _ _ k Hrun) as (Hg' & Hgp' & Hpk');
    [lia..|].
  rewrite (runs_station_same_kind k _ _ (resume_same_kind _ _ _ _ _ _ _ _ _ _ _ Hrun)).
  split_and!; [lia|lia|].
  destruct Hpk' as [->| ->]; [lia|].
  rewrite Hg', Hg.
  pose proof (sum_procs_le (fun q => processing k (body q))
                (fun q => runs_station k (body q)) (<[i := mkProc st (holding p + d) b]> (procs s))
                (fun q => proj2 (processing_bounds k (body q)))) as Hle.
  rewrite !(sum_procs_insert _ _ _ _ _ Hi) in Hle. cbn [body] in Hle.
  rewrite (runs_station_same_kind k _ _ (resume_same_kind _ _ _ _ _ _ _ _ _ _ _ Hrun)) in Hle.
  lia.
Qed.

Lemma sum_procs_nonneg (f : Proc → Z) (ps : list Proc) :
  (∀ p, 0 <= f p) → 0 <= sum_procs f ps.
Proof.
  intros Hf. induction ps as [|p ps IH]; [done|].
  change (0 <= f p + sum_procs f ps). specialize (Hf p). lia.
Qed.

Lemma gauge_inv_reachable cfg s0 sched s :
  init_sim cfg = Some s0 → exec sched s0 = Some s → gauge_inv s.
Proof.
  intros H0 Hx. eapply gauge_inv_exec; [|done].
  destruct (init_registered _ _ H0) as (_ & Hm & Hreg).
  intros k. unfold gauge, peak, getd. rewrite Hm. cbn.
  rewrite !lookup_empty. cbn.
  rewrite sum_procs_zero.
  - split_and!; [done..|]. apply sum_procs_nonneg.
    intros p. pose proof (processing_bounds k (body p)). lia.
  - eapply Forall_impl; [exact Hreg|]. intros q (_ & _ & Hq).
    destruct (body q); try done. by destruct Hq as [-> _].
Qed.

(** X10: in every state a run reaches, the live gauge [inproc_now[k]] of a
    station key (zero while the key is absent) is the number of runners with
    that key that are inside their cycle-time wait.  So it is at least one
    whenever such a runner is about to call [_end_processing] (the clamp at
    zero never acts), and the peak lies between the gauge and the number of
    runners with that key. *)
Theorem gauge_counts_processing_runners (cfg : Config) (s0 s : Sim)
    (sched : list Action) (k : string) :
  init_sim cfg = Some s0 →
  exec sched s0 = Some s →
  gauge k (metrics s) = sum_procs (fun p => processing k (body p)) (procs s) ∧
  (∀ i p pr a l,
     procs s !! i = Some p → body p = BStation pr a l →
     st_pc l = ST_process → base_id a = k → 1 <= gauge k (metrics s)) ∧
  0 <= gauge k (metrics s) ∧
  gauge k (metrics s) <= peak k (metrics s) ∧
  peak k (metrics s) <= sum_procs (fun p => runs_station k (body p)) (procs s).
Proof.
  intros H0 Hx.
  destruct (gauge_inv_reachable _ _ _ _ H0 Hx k) as (Hg & Hgp & Hpr).
  split_and!; try done.
  - intros i p pr a l Hi Hb Hpc Hk.
    pose proof (sum_procs_ge (fun q => processing k (body q)) _ _ _
                  (fun q => proj1 (processing_bounds k (body q))) Hi) as Hsum.
    cbn beta in Hsum. rewrite Hb in Hsum. cbn in Hsum.
    rewrite Hpc, Hk, String.eqb_refl in Hsum. lia.
  - rewrite Hg. apply sum_procs_nonneg.
    intros p. pose proof (processing_bounds k (body p)). lia.
Qed.

Lemma gauge_counts_processing_runners_witness :
  init_sim demo_cfg = Some demo_initial ∧
  exec demo_sched demo_initial = Some demo_final ∧
  gauge "pressen_2" (metrics demo_final) =
    sum_procs (fun p => processing "pressen_2" (body p)) (procs demo_final) ∧
  peak "pressen_2" (metrics demo_final) <=
    sum_procs (fun p => runs_station "pressen_2" (body p)) (procs demo_final).
Proof.
  assert (H0 : init_sim demo_cfg = Some demo_initial) by (vm_compute; reflexivity).
  assert (Hx : exec demo_sched demo_initial = Some demo_final)
    by (vm_compute; reflexivity).
  destruct (gauge_counts_processing_runners demo_cfg demo_initial demo_final
              demo_sched "pressen_2" H0 Hx) as (Hg & _ & _ & _ & Hp).
  split; [exact H0|]. split; [exact Hx|]. split; [exact Hg|exact Hp].
Defined.

(** ** The books of a station runner and the recorded results *)

Lemma step_kind_local (J : Q → Proc → Prop) :
  (∀ now t p, J now p → (now <= t)%Q → can_tick t p = true → J t p) →
  (∀ now p u, J now p → status p = Sleeping u → (u == now)%Q →
     J now (mkProc (Ready None) (holding p) (body p))) →
  (∀ now p r bufs pool bufs' pool' v d,
     J now p → status p = Blocked r →
     do_request r bufs pool = Some (bufs', pool', v, d) →
     J now (mkProc (Ready v) (holding p + d) (body p))) →
  (∀ now p v bufs hp m e g b m' y pool bufs' pool' st d,
     J now p → status p = Ready v →
     resume_body (body p) v now bufs hp m e g = Some (b, m', y) →
     yield_ok y = true →
     settle y now bufs pool = (bufs', pool', st, d) →
     J now (mkProc st (holding p + d) b)) →
  ∀ s s', step_kind s s' →
    Forall (J (now s)) (procs s) → Forall (J (now s')) (procs s').
Proof.
  intros Htick Hwake Hgrant Hresume s s' Hstep HJ.
  destruct Hstep as [t Ht Hcan ->|i p u Hi Hst Hu ->
                    |i p r bufs pool v d Hi Hst Hreq ->
                    |i p v e g b m y bufs pool st d Hi Hst Hrun Hok Hset ->];
    cbn.
  - apply Forall_forall. intros p Hp.
    eapply Htick; [|done|].
    + by eapply (proj1 (Forall_forall _ _) HJ).
    + by eapply (proj1 (Forall_forall _ _) Hcan).
  - apply Forall_insert; [done|].
    eapply Hwake; [|done..]. by eapply (Forall_lookup_1 _ _ _ _ HJ).
  - apply Forall_insert; [done|].
    eapply Hgrant; [|done..]. by eapply (Forall_lookup_1 _ _ _ _ HJ).
  - apply Forall_insert; [done|].
    eapply Hresume; [|done..]. by eapply (Forall_lookup_1 _ _ _ _ HJ).
Qed.

Lemma results_add_resources m s k a : results (_add_resources m s k a) = results m.
Proof. done. Qed.

Lemma results_of_begin m s : results (_begin_processing m s) = results m.
Proof. unfold _begin_processing. by destruct (_ >? _). Qed.

Lemma results_of_end m s : results (_end_processing m s) = results m.
Proof. done. Qed.

Lemma results_of_mix a l m : results (pressen1_mix a l m) = results m.
Proof. unfold pressen1_mix. by repeat case_match. Qed.

Lemma results_update a l m :
  results (metrics_update a l m) =
  (<[base_id a := produced l]> (station_output m),
   <[base_id a := busy l]> (station_busy_time m),
   <[base_id a := downtime l]> (station_downtime m)).
Proof. done. Qed.

(** One resume of a runner: how its books move, and what it records. *)
Lemma run_station_books pr a l v now bufs hp m e g l' m' y :
  run_station pr a l v now bufs hp m e g = Some (l', m', y) →
  st_pc l' ≠ ST_start ∧
  (results m' = results m ∨
   results m' =
     (<[base_id a := produced l']> (station_output m),
      <[base_id a := busy l']> (station_busy_time m),
      <[base_id a := downtime l']> (station_downtime m)) ∧
   (st_pc l' = ST_get ∨ st_pc l' = ST_poll)) ∧
  match st_pc l with
  | ST_start =>
      produced l' = 0 ∧ busy l' = 0%Q ∧ downtime l' = 0%Q ∧
      (st_pc l' = ST_get ∨ st_pc l' = ST_poll)
  | ST_poll =>
      produced l' = produced l ∧ busy l' = busy l ∧ downtime l' = downtime l ∧
      (st_pc l' = ST_get ∨ st_pc l' = ST_poll)
  | ST_get =>
      produced l' = produced l ∧ busy l' = busy l ∧ downtime l' = downtime l ∧
      (st_pc l' = ST_pool_get ∨
       st_pc l' = ST_process ∧ start l' = now ∧ y = YTimeout (ct_min a))
  | ST_pool_get =>
      produced l' = produced l ∧ busy l' = busy l ∧ downtime l' = downtime l ∧
      st_pc l' = ST_process ∧ start l' = now ∧ y = YTimeout (ct_min a)
  | ST_process =>
      produced l' = produced l ∧ busy l' = (busy l + (now - start l))%Q ∧
      downtime l' = downtime l ∧
      (st_pc l' = ST_pool_put ∨ st_pc l' = ST_out_put)
  | ST_pool_put =>
      produced l' = produced l ∧ busy l' = busy l ∧ downtime l' = downtime l ∧
      st_pc l' = ST_out_put
  | ST_out_put =>
      produced l' = produced l + 1 ∧ busy l' = busy l ∧
      downtime l' = downtime l ∧
      (st_pc l' = ST_repair ∧ (0 < repair l')%Q ∧ y = YTimeout (repair l') ∧
       repair l' = _draw_mttr_min (rel_spec a) g ∨
       st_pc l' = ST_get ∨ st_pc l' = ST_poll)
  | ST_repair =>
      produced l' = produced l ∧ busy l' = busy l ∧
      downtime l' = (downtime l + repair l)%Q ∧
      (st_pc l' = ST_get ∨ st_pc l' = ST_poll)
  end.
Proof.
  unfold run_station, station_process, station_publish. intros H.
  assert (∀ l2 l3 y3,
            station_top pr a l2 bufs = Some (l3, y3) →
            produced l3 = produced l2 ∧ busy l3 = busy l2 ∧
            downtime l3 = downtime l2 ∧
            (st_pc l3 = ST_get ∨ st_pc l3 = ST_poll)) as Htop.
  { intros l2 l3 y3 Ht.
    apply station_top_inv in Ht as (-> & -> & _ & -> & [[-> _]|[-> _]]);
      split_and!; auto. }
  destruct (st_pc l) eqn:Hpc.
  - destruct (station_top _ _ _ _) as [[l1 y1]|] eqn:Ht; simplify_eq/=.
    apply Htop in Ht as (-> & -> & -> & Hp). cbn.
    split_and!; auto. by destruct Hp as [-> | ->].
  - destruct (station_top _ _ _ _) as [[l1 y1]|] eqn:Ht; simplify_eq/=.
    apply Htop in Ht as (-> & -> & -> & Hp).
    split_and!; auto. by destruct Hp as [-> | ->].
  - destruct v; simplify_eq/=.
    destruct (uses_workers hp a); simplify_eq/=.
    + split_and!; auto.
    + rewrite results_of_begin. split_and!; auto.
  - simplify_eq/=. rewrite results_of_begin. split_and!; auto.
  - destruct (uses_workers hp a); simplify_eq/=.
    + rewrite results_of_end. split_and!; auto.
    + destruct (item l); simplify_eq/=.
      rewrite results_of_end. split_and!; auto.
  - destruct (item l); simplify_eq/=. split_and!; auto.
  - destruct (ext_le0 _).
    + destruct (Py.gt _ 0) eqn:Hr.
      * simplify_eq/=. apply py_gt_true in Hr.
        split_and!; auto.
        left. destruct pr; by rewrite ?results_of_mix, results_add_resources.
      * destruct (station_top _ _ _ _) as [[l1 y1]|] eqn:Ht; simplify_eq/=.
        apply Htop in Ht as (Hp1 & Hb1 & Hd1 & Hp). cbn in Hp1, Hb1, Hd1.
        match goal with
        | |- context [metrics_update a ?l2 ?X] =>
            assert (results X = results m) as HX
              by (destruct pr; by rewrite ?results_of_mix, results_add_resources)
        end.
        rewrite results_update. cbn [produced busy downtime].
        rewrite <- Hp1, <- Hb1, <- Hd1.
        injection HX as H1 H2 H3. rewrite H1, H2, H3.
        split_and!; auto. by destruct Hp as [-> | ->].
    + destruct (station_top _ _ _ _) as [[l1 y1]|] eqn:Ht; simplify_eq/=.
      apply Htop in Ht as (Hp1 & Hb1 & Hd1 & Hp). cbn in Hp1, Hb1, Hd1.
      match goal with
      | |- context [metrics_update a ?l2 ?X] =>
          assert (results X = results m) as HX
            by (destruct pr; by rewrite ?results_of_mix, results_add_resources)
      end.
      rewrite results_update. cbn [produced busy downtime].
      rewrite <- Hp1, <- Hb1, <- Hd1.
      injection HX as H1 H2 H3. rewrite H1, H2, H3.
      split_and!; auto. by destruct Hp as [-> | ->].
  - destruct (station_top _ _ _ _) as [[l1 y1]|] eqn:Ht; simplify_eq/=.
    apply Htop in Ht as (Hp1 & Hb1 & Hd1 & Hp). cbn in Hp1, Hb1, Hd1.
    rewrite results_update. cbn [produced busy downtime].
    rewrite <- Hp1, <- Hb1, <- Hd1.
    split_and!; auto. by destruct Hp as [-> | ->].
Qed.

Lemma work_inv_resume now p v bufs hp m e g b m' y pool bufs' pool' st d :
  work_inv now p → status p = Ready v →
  resume_body (body p) v now bufs hp m e g = Some (b, m', y) →
  yield_ok y = true →
  settle y now bufs pool = (bufs', pool', st, d) →
  work_inv now (mkProc st (holding p + d) b).
Proof.
  unfold work_inv. intros HJ Hst Hrun Hok Hset.
  destruct p as [stat hold bd]; cbn in *. subst stat.
  pose proof (resume_same_kind _ _ _ _ _ _ _ _ _ _ _ Hrun) as Hkind.
  destruct bd as [| | | |pr a l| |]; try by destruct b.
  clear Hkind. cbn in Hrun.
  destruct (run_station _ _ _ _ _ _ _ _ _ _) as [[[l' m1] y1]|] eqn:Hst; [|done].
  simplify_eq/=.
  pose proof (settle_status _ _ _ _ _ _ _ _ Hset Hok) as Hs.
  destruct (run_station_books _ _ _ _ _ _ _ _ _ _ _ _ _ Hst) as (Hns & _ & Hbk).
  right. unfold jobs_done in *.
  destruct (st_pc l) eqn:Hpc; cbv beta iota in HJ;
    rewrite ?Z.add_0_r in HJ.
  - destruct Hbk as (-> & -> & -> & Hp).
    destruct Hp as [Hp|Hp]; rewrite Hp; cbv beta iota; rewrite ?Z.add_0_r; split_and!; try done; try lra.
    all: change (inject_Z (0 + 0)) with 0%Q; ring.
  - destruct HJ as [->|(Hp0 & Hb & Hd & _ & _)]; [done|].
    destruct Hbk as (-> & -> & -> & Hp).
    destruct Hp as [Hp|Hp]; rewrite Hp; cbv beta iota; rewrite ?Z.add_0_r; split_and!; done.
  - destruct HJ as [->|(Hp0 & Hb & Hd & _ & _)]; [done|].
    destruct Hbk as (-> & -> & -> & Hp).
    destruct Hp as [Hp|(Hp & Hstart & ->)]; rewrite Hp; cbv beta iota; rewrite ?Z.add_0_r; split_and!; try done.
    intros _. destruct Hs as (-> & _ & _). rewrite Hstart. reflexivity.
  - destruct HJ as [->|(Hp0 & Hb & Hd & _ & _)]; [done|].
    destruct Hbk as (-> & -> & -> & Hp & Hstart & ->).
    rewrite Hp; cbv beta iota; rewrite ?Z.add_0_r; split_and!; try done.
    intros _. destruct Hs as (-> & _ & _). rewrite Hstart. reflexivity.
  - destruct HJ as [->|(Hp0 & Hb & Hd & _ & Hnow)]; [done|].
    specialize (Hnow eq_refl). cbn in Hnow.
    destruct Hbk as (-> & -> & -> & Hp).
    destruct Hp as [Hp|Hp]; rewrite Hp; cbv beta iota; rewrite ?Z.add_0_r; split_and!; try done.
    all: rewrite inject_Z_plus, Hb, Hnow; change (inject_Z 1) with 1%Q; ring.
  - destruct HJ as [->|(Hp0 & Hb & Hd & _ & _)]; [done|].
    destruct Hbk as (-> & -> & -> & Hp).
    rewrite Hp; cbv beta iota; rewrite ?Z.add_0_r; split_and!; done.
  - destruct HJ as [->|(Hp0 & Hb & Hd & _ & _)]; [done|].
    destruct Hbk as (-> & -> & -> & Hp).
    destruct Hp as [(Hp & Hr & _)|[Hp|Hp]]; rewrite Hp; cbv beta iota; rewrite ?Z.add_0_r; split_and!;
      try done; try lia; try (intros _; lra).
    all: rewrite Hb, !inject_Z_plus; change (inject_Z 0) with 0%Q; ring.
  - destruct HJ as [->|(Hp0 & Hb & Hd & Hr & _)]; [done|].
    specialize (Hr eq_refl).
    destruct Hbk as (-> & -> & -> & Hp).
    destruct Hp as [Hp|Hp]; rewrite Hp; cbv beta iota; rewrite ?Z.add_0_r; split_and!; try done; lra.
Qed.

Lemma work_inv_step s s' :
  step_kind s s' →
  Forall (work_inv (now s)) (procs s) → Forall (work_inv (now s')) (procs s').
Proof.
  apply (step_kind_local work_inv).
  - unfold work_inv, can_tick. intros now t p HJ Hle Hcan.
    destruct (body p) as [| | | |pr a l| |]; try done.
    destruct HJ as [|(? & ? & ? & ? & Hproc)]; [by left|right].
    split_and!; try done. intros Hpc. specialize (Hproc Hpc).
    by destruct (status p).
  - unfold work_inv. intros now p u HJ Hst Hu. cbn.
    destruct (body p) as [| | | |pr a l| |]; try done.
    destruct HJ as [|(? & ? & ? & ? & Hproc)]; [by left|right].
    split_and!; try done. intros Hpc. specialize (Hproc Hpc).
    rewrite Hst in Hproc. lra.
  - unfold work_inv. intros now p r bufs pool bufs' pool' v d HJ Hst _. cbn.
    destruct (body p) as [| | | |pr a l| |]; try done.
    destruct HJ as [|(? & ? & ? & ? & Hproc)]; [by left|right].
    split_and!; try done. intros Hpc. specialize (Hproc Hpc).
    by rewrite Hst in Hproc.
  - intros. by eapply work_inv_resume.
Qed.

(** Only station runners touch the per-station results. *)
Lemma resume_results_frame b v now bufs hp m e g b' m' y :
  resume_body b v now bufs hp m e g = Some (b', m', y) →
  station_args_of b = None → results m' = results m.
Proof.
  destruct b as [rate stop st|inter stop st|delay pc held|pc toggle|pr a l
                |input started|every rows]; cbn; intros H Hb; try done.
  - unfold new_orders_source in H. by crunch H.
  - unfold returns_source in H. by crunch H.
  - destruct (reverse_shortcut _ _ _ _ _) as [[[??]?]|]; by simplify_eq/=.
  - destruct (reman_merge_feeder _ _ _ _) as [[[??]?]|]; by simplify_eq/=.
  - unfold sink_consumer in H. simplify_eq/=. by destruct started.
  - by simplify_eq/=.
Qed.

(** The runner that wrote a record stays a witness of it while its count
    and its downtime do not go down. *)
Lemma recorded_by_insert ps i p p' k o b d :
  ps !! i = Some p →
  (∀ pr a l, body p = BStation pr a l → st_pc l ≠ ST_start →
     ∃ l', body p' = BStation pr a l' ∧ st_pc l' ≠ ST_start ∧
           produced l <= produced l' ∧ (downtime l <= downtime l')%Q) →
  recorded_by ps k o b d → recorded_by (<[i := p']> ps) k o b d.
Proof.
  intros Hi Hkeep (j & q & pr & a & l & Hj & Hb & Hk & Hpc & Ho & Hbusy & Hd).
  destruct (decide (j = i)) as [->|Hne].
  - assert (q = p) as -> by congruence.
    destruct (Hkeep _ _ _ Hb Hpc) as (l' & Hb' & Hpc' & Hprod & Hdown).
    exists i, p', pr, a, l'. split_and!; try done; try lia; try lra.
    apply list_lookup_insert_eq. by eapply lookup_lt_Some.
  - exists j, q, pr, a, l. split_and!; try done; try lia; try lra.
    by rewrite list_lookup_insert_ne.
Qed.

Lemma results_inv_step s s' : step_kind s s' → results_inv s → results_inv s'.
Proof.
  intros Hstep [HJ HR]. split; [by eapply work_inv_step|].
  assert (∀ i p p', procs s !! i = Some p → body p' = body p →
            ∀ k, match station_output (metrics s) !! k,
                       station_busy_time (metrics s) !! k,
                       station_downtime (metrics s) !! k with
                 | Some o, Some b, Some d =>
                     recorded_by (<[i := p']> (procs s)) k o b d
                 | None, None, None => True
                 | _, _, _ => False
                 end) as Hsame.
  { intros i p p' Hi Hb k. specialize (HR k).
    destruct (station_output (metrics s) !! k),
      (station_busy_time (metrics s) !! k),
      (station_downtime (metrics s) !! k); try done.
    eapply recorded_by_insert; [done| |done].
    intros pr a l Hbp Hpc. exists l. rewrite Hb. split_and!; try done; lra. }
  pose proof (work_inv_step _ _ Hstep HJ) as HJ'.
  destruct Hstep as [t Ht Hcan ->|i p u Hi Hst Hu ->
                    |i p r bufs pool v d Hi Hst Hreq ->
                    |i p v e g b m y bufs pool st d Hi Hst Hrun Hok Hset ->];
    cbn [procs metrics now] in *; [done|by eapply Hsame..|].
  pose proof (Forall_lookup_1 _ _ _ _ HJ Hi) as Hp.
  assert (Hi' : <[i := mkProc st (holding p + d) b]> (procs s) !! i =
                Some (mkProc st (holding p + d) b)).
  { apply list_lookup_insert_eq. by eapply lookup_lt_Some. }
  pose proof (Forall_lookup_1 _ _ _ _ HJ' Hi') as Hp'.
  unfold work_inv in Hp, Hp'. cbn [body status] in Hp'.
  destruct (station_args_of (body p)) as [a0|] eqn:Hb.
  - destruct (body p) as [| | | |pr a l| |] eqn:Hbody; cbn in Hb; try done.
    clear Hb. cbn in Hrun.
    destruct (run_station _ _ _ _ _ _ _ _ _ _) as [[[l' m1] y1]|] eqn:Hst';
      [|done].
    simplify_eq/=.
    destruct (run_station_books _ _ _ _ _ _ _ _ _ _ _ _ _ Hst')
      as (Hns & Hres & Hbk).
    assert (st_pc l ≠ ST_start →
            produced l <= produced l' ∧ (downtime l <= downtime l')%Q) as Hmono.
    { intros Hpc. destruct Hp as [->|(_ & _ & _ & Hrep & _)]; [done|].
      destruct (st_pc l); try done;
        destruct Hbk as (-> & _ & -> & _); split; try lia; try lra.
      specialize (Hrep eq_refl). lra. }
    assert (∀ k o bt dt, recorded_by (procs s) k o bt dt →
              recorded_by (<[i := mkProc st (holding p + d) (BStation pr a l')]>
                             (procs s)) k o bt dt) as Hkeep.
    { intros k o bt dt. eapply recorded_by_insert; [done|].
      intros pr1 a1 l1 Hb1 Hpc1. rewrite Hbody in Hb1. simplify_eq.
      exists l'. destruct (Hmono Hpc1). split_and!; done. }
    intros k. specialize (HR k).
    destruct Hres as [Hres|[Hres Hpc']].
    + injection Hres as E1 E2 E3. rewrite E1, E2, E3.
      destruct (station_output (metrics s) !! k),
      (station_busy_time (metrics s) !! k),
      (station_downtime (metrics s) !! k); try done. by apply Hkeep.
    + injection Hres as E1 E2 E3. rewrite E1, E2, E3.
      destruct (decide (k = base_id a)) as [->|Hne].
      * rewrite !lookup_insert_eq.
        destruct Hp' as [->|(Hp0 & Hbusy & Hd0 & _ & _)]; [by destruct Hpc'|].
        exists i, (mkProc st (holding p + d) (BStation pr a l')), pr, a, l'.
        split_and!; try done; try lia; try lra.
        unfold jobs_done in Hbusy.
        destruct Hpc' as [Hpc'|Hpc']; rewrite Hpc' in Hbusy;
          by rewrite Z.add_0_r in Hbusy.
      * rewrite !lookup_insert_ne by done.
        destruct (station_output (metrics s) !! k),
      (station_busy_time (metrics s) !! k),
      (station_downtime (metrics s) !! k); try done. by apply Hkeep.
  - pose proof (resume_results_frame _ _ _ _ _ _ _ _ _ _ _ Hrun Hb) as Hres.
    injection Hres as E1 E2 E3. rewrite E1, E2, E3.
    intros k. specialize (HR k).
    destruct (station_output (metrics s) !! k),
      (station_busy_time (metrics s) !! k),
      (station_downtime (metrics s) !! k); try done.
    eapply recorded_by_insert; [done| |done].
    intros pr a l Hbp. by rewrite Hbp in Hb.
Qed.

Lemma results_inv_reachable cfg s0 sched s :
  init_sim cfg = Some s0 → exec sched s0 = Some s → results_inv s.
Proof.
  intros H0 Hx. revert Hx. apply (exec_step_kind results_inv).
  - intros s1 s2 HI Hstep. by eapply results_inv_step.
  - destruct (init_registered _ _ H0) as (_ & Hm & Hreg). split.
    + eapply Forall_impl; [exact Hreg|]. intros q (_ & _ & Hq).
      unfold work_inv. destruct (body q); try done.
      destruct Hq as [-> _]. by left.
    + intros k. rewrite Hm. cbn. by rewrite !lookup_empty.
Qed.

(** X11: the books of a station runner in every state a run reaches.  Its
    busy time is exactly the cycle time (in minutes) for every job whose
    processing it has finished: the jobs it has published and counted, and
    the one it is about to publish.  Its count and its downtime are never
    negative, and a cycle-time wait it is in ends exactly one cycle time
    after the recorded start. *)
Theorem runner_busy_time_is_jobs_times_cycle_time (cfg : Config) (s0 s : Sim)
    (sched : list Action) (i : nat) (p : Proc) (pr : bool) (a : StationArgs)
    (l : StationLocal) :
  init_sim cfg = Some s0 →
  exec sched s0 = Some s →
  procs s !! i = Some p →
  body p = BStation pr a l →
  0 <= produced l ∧
  (busy l == inject_Z (jobs_done l) * ct_min a)%Q ∧
  (0 <= downtime l)%Q ∧
  (st_pc l = ST_process →
   match status p with
   | Sleeping u => (u == start l + ct_min a)%Q
   | Ready _ => (now s == start l + ct_min a)%Q
   | _ => False
   end).
Proof.
  intros H0 Hx Hi Hb.
  destruct (results_inv_reachable _ _ _ _ H0 Hx) as [HJ _].
  pose proof (Forall_lookup_1 _ _ _ _ HJ Hi) as Hp.
  unfold work_inv in Hp. rewrite Hb in Hp.
  destruct Hp as [->|(? & ? & ? & _ & ?)]; [|done].
  split_and!; done.
Qed.

Lemma runner_busy_time_is_jobs_times_cycle_time_witness :
  init_sim demo_cfg = Some demo_initial ∧
  exec demo_sched demo_initial = Some demo_final ∧
  (busy (runner_at demo_final 4).2 ==
   inject_Z (jobs_done (runner_at demo_final 4).2) *
   ct_min (runner_at demo_final 4).1.2)%Q.
Proof.
  assert (H0 : init_sim demo_cfg = Some demo_initial) by (vm_compute; reflexivity).
  assert (Hx : exec demo_sched demo_initial = Some demo_final)
    by (vm_compute; reflexivity).
  assert (Hi : procs demo_final !! 4%nat = Some (proc_at demo_final 4))
    by (vm_compute; reflexivity).
  assert (Hb : body (proc_at demo_final 4) =
               BStation (runner_at demo_final 4).1.1 (runner_at demo_final 4).1.2
                 (runner_at demo_final 4).2)
    by (vm_compute; reflexivity).
  destruct (runner_busy_time_is_jobs_times_cycle_time demo_cfg demo_initial
              demo_final demo_sched 4 _ _ _ _ H0 Hx Hi Hb) as (_ & Hbusy & _).
  split; [exact H0|]. split; [exact Hx|]. exact Hbusy.
Defined.

(** X12: what a run records for a station key.  Whenever a busy time is
    recorded under a key, an output count and a downtime are recorded under
    it too, and all three were written by one runner with that key from its
    own books: the recorded count is not negative and not above that
    runner's own count, the recorded busy time is the recorded count times
    that runner's cycle time in minutes, and the recorded downtime is not
    negative and not above that runner's own downtime. *)
Theorem recorded_results_are_one_runners_books (cfg : Config) (s0 s : Sim)
    (sched : list Action) (k : string) (b : Q) :
  init_sim cfg = Some s0 →
  exec sched s0 = Some s →
  station_busy_time (metrics s) !! k = Some b →
  ∃ o d i p pr a l,
    station_output (metrics s) !! k = Some o ∧
    station_downtime (metrics s) !! k = Some d ∧
    procs s !! i = Some p ∧ body p = BStation pr a l ∧ base_id a = k ∧
    0 <= o <= produced l ∧
    (b == inject_Z o * ct_min a)%Q ∧
    (0 <= d <= downtime l)%Q.
Proof.
  intros H0 Hx Hb.
  destruct (results_inv_reachable _ _ _ _ H0 Hx) as [_ HR].
  specialize (HR k). rewrite Hb in HR.
  destruct (station_output (metrics s) !! k) as [o|]; [|by destruct (_ !! k)].
  destruct (station_downtime (metrics s) !! k) as [d|]; [|done].
  destruct HR as (i & p & pr & a & l & ? & ? & ? & _ & ? & ? & ?).
  by exists o, d, i, p, pr, a, l.
Qed.

Lemma recorded_results_are_one_runners_books_witness :
  init_sim demo_cfg = Some demo_initial ∧
  exec demo_sched demo_initial = Some demo_final ∧
  ∃ o d i p pr a l,
    station_output (metrics demo_final) !! "pressen_2" = Some o ∧
    station_downtime (metrics demo_final) !! "pressen_2" = Some d ∧
    procs demo_final !! i = Some p ∧ body p = BStation pr a l ∧
    base_id a = "pressen_2"%string ∧
    0 <= o <= produced l ∧
    (default 0%Q (station_busy_time (metrics demo_final) !! "pressen_2") ==
     inject_Z o * ct_min a)%Q ∧
    (0 <= d <= downtime l)%Q.
Proof.
  assert (H0 : init_sim demo_cfg = Some demo_initial) by (vm_compute; reflexivity).
  assert (Hx : exec demo_sched demo_initial = Some demo_final)
    by (vm_compute; reflexivity).
  assert (Hb : station_busy_time (metrics demo_final) !! "pressen_2" =
               Some (default 0%Q
                       (station_busy_time (metrics demo_final) !! "pressen_2")))
    by (vm_compute; reflexivity).
  split; [exact H0|]. split; [exact Hx|].
  exact (recorded_results_are_one_runners_books demo_cfg demo_initial demo_final
           demo_sched "pressen_2" _ H0 Hx Hb).
Defined.

(** ** Stations without repair time *)

Lemma no_repair_draw a g :
  repairs_configured (st_reliability_cfg a) (base_id a) = false →
  (_draw_mttr_min (rel_spec a) g <= 0)%Q.
Proof.
  unfold repairs_configured, _draw_mttr_min, rel_spec.
  intros [Hd Hm]%orb_false_iff. rewrite Hd. by apply py_gt_false.
Qed.

Lemma no_repair_inv_exec sched s s' :
  Forall no_repair_inv (procs s) → exec sched s = Some s' →
  Forall no_repair_inv (procs s').
Proof.
  apply (exec_local_invariant (fun _ => no_repair_inv)); try done.
  unfold no_repair_inv.
  intros now p v bufs hp m e g b m' y pool bufs' pool' st d HJ Hst Hrun _ _.
  cbn [body].
  pose proof (resume_same_kind _ _ _ _ _ _ _ _ _ _ _ Hrun) as Hkind.
  destruct (body p) as [| | | |pr a l| |]; try by destruct b.
  clear Hkind. cbn in Hrun.
  destruct (run_station _ _ _ _ _ _ _ _ _ _) as [[[l' m1] y1]|] eqn:Hst';
    [|done].
  simplify_eq/=. intros Hno. specialize (HJ Hno).
  destruct (run_station_books _ _ _ _ _ _ _ _ _ _ _ _ _ Hst') as (_ & _ & Hbk).
  destruct (st_pc l) eqn:Hpc.
  - destruct Hbk as (_ & _ & -> & [-> | ->]); done.
  - destruct HJ as [_ Hd]. destruct Hbk as (_ & _ & -> & [-> | ->]); done.
  - destruct HJ as [_ Hd].
    destruct Hbk as (_ & _ & -> & [-> | [-> _]]); done.
  - destruct HJ as [_ Hd]. destruct Hbk as (_ & _ & -> & -> & _); done.
  - destruct HJ as [_ Hd]. destruct Hbk as (_ & _ & -> & [-> | ->]); done.
  - destruct HJ as [_ Hd]. destruct Hbk as (_ & _ & -> & ->); done.
  - destruct HJ as [_ Hd].
    destruct Hbk as (_ & _ & -> & [(_ & Hr & _ & Hdraw)|[-> | ->]]); try done.
    pose proof (no_repair_draw a g Hno). rewrite Hdraw in Hr. lra.
  - by destruct HJ.
Qed.

(** Every runner of a run works with the reliability section of the
    configuration. *)
Lemma runner_reliability cfg s0 sched s i p pr a l :
  init_sim cfg = Some s0 → exec sched s0 = Some s →
  procs s !! i = Some p → body p = BStation pr a l →
  st_reliability_cfg a = _reliability_cfg cfg.
Proof.
  intros H0 Hx Hi Hb.
  destruct (exec_same_kind _ _ _ Hx _ _ Hi) as (q & Hq & Hk).
  destruct (init_registered _ _ H0) as (_ & _ & Hreg).
  destruct (Forall_lookup_1 _ _ _ _ Hreg Hq) as (_ & _ & Hr).
  rewrite Hb in Hk. destruct (body q); try done.
  destruct Hk as [_ ->]. by destruct Hr.
Qed.

(** X13: a station for which no repair can take time (its repair time is
    not drawn from a normal distribution and its constant repair time is not
    positive, as when there is no reliability section at all) never has
    downtime in a run: whatever the draws of the time to failure, none of
    its runners ever waits for a repair or books downtime, and a downtime
    recorded under its key is zero. *)
Theorem no_repair_time_no_downtime (cfg : Config) (s0 s : Sim)
    (sched : list Action) (k : string) :
  init_sim cfg = Some s0 →
  exec sched s0 = Some s →
  repairs_configured (_reliability_cfg cfg) k = false →
  (∀ i p pr a l,
     procs s !! i = Some p → body p = BStation pr a l → base_id a = k →
     st_pc l ≠ ST_repair ∧ downtime l = 0%Q) ∧
  (∀ d, station_downtime (metrics s) !! k = Some d → (d == 0)%Q).
Proof.
  intros H0 Hx Hno.
  assert (∀ i p pr a l,
            procs s !! i = Some p → body p = BStation pr a l → base_id a = k →
            st_pc l ≠ ST_repair ∧ downtime l = 0%Q) as Hrun.
  { intros i p pr a l Hi Hb Hk.
    assert (Forall no_repair_inv (procs s)) as HJ.
    { eapply no_repair_inv_exec; [|done].
      destruct (init_registered _ _ H0) as (_ & _ & Hreg).
      eapply Forall_impl; [exact Hreg|]. intros q (_ & _ & Hq).
      unfold no_repair_inv. destruct (body q); try done.
      by destruct Hq as [-> _]. }
    pose proof (Forall_lookup_1 _ _ _ _ HJ Hi) as Hp.
    unfold no_repair_inv in Hp. rewrite Hb in Hp. apply Hp.
    by rewrite (runner_reliability _ _ _ _ _ _ _ _ _ H0 Hx Hi Hb), Hk. }
  split; [done|]. intros d Hd.
  destruct (results_inv_reachable _ _ _ _ H0 Hx) as [_ HR].
  specialize (HR k). rewrite Hd in HR.
  destruct (station_output (metrics s) !! k) as [o|],
    (station_busy_time (metrics s) !! k) as [b|]; try done.
  destruct HR as (i & p & pr & a & l & Hi & Hb & Hk & _ & _ & _ & Hdl).
  destruct (Hrun _ _ _ _ _ Hi Hb Hk) as [_ Hz]. rewrite Hz in Hdl. lra.
Qed.

Lemma no_repair_time_no_downtime_witness :
  init_sim two_machine_cfg = Some (run_from_init two_machine_cfg []) ∧
  exec two_machine_sched (run_from_init two_machine_cfg []) =
    Some two_machine_final ∧
  ∀ d, station_downtime (metrics two_machine_final) !! "fuegen_1" = Some d →
       (d == 0)%Q.
Proof.
  assert (H0 : init_sim two_machine_cfg = Some (run_from_init two_machine_cfg []))
    by (vm_compute; reflexivity).
  assert (Hx : exec two_machine_sched (run_from_init two_machine_cfg []) =
               Some two_machine_final) by (vm_compute; reflexivity).
  split; [exact H0|]. split; [exact Hx|].
  exact (proj2 (no_repair_time_no_downtime two_machine_cfg _ _ two_machine_sched
                  "fuegen_1" H0 Hx eq_refl)).
Defined.

(** ** The stores *)

Lemma do_request_stores r bufs pool bufs' pool' v d :
  do_request r bufs pool = Some (bufs', pool', v, d) →
  same_stores bufs bufs' ∧
  (map_Forall (fun _ st => store_ok st) bufs →
   map_Forall (fun _ st => store_ok st) bufs').
Proof.
  unfold same_stores, store_ok, do_request.
  destruct r as [b|b tok|n|n]; intros H.
  - destruct (bufs !! b) as [st|] eqn:Hb; [|done]. cbn in H.
    destruct (items st) as [|tok rest] eqn:Hit; [done|]. simplify_eq. split.
    + intros b'. destruct (decide (b' = b)) as [->|Hne].
      * by rewrite lookup_insert_eq, Hb.
      * by rewrite lookup_insert_ne.
    + intros Hall. apply map_Forall_insert_2; [|done].
      specialize (Hall _ _ Hb). cbn in *. rewrite Hit in Hall. cbn in Hall. lia.
  - destruct (bufs !! b) as [st|] eqn:Hb; [|done]. cbn in H.
    destruct (_ <? _) eqn:Hlt; [|done]. apply Z.ltb_lt in Hlt.
    simplify_eq. split.
    + intros b'. destruct (decide (b' = b)) as [->|Hne].
      * by rewrite lookup_insert_eq, Hb.
      * by rewrite lookup_insert_ne.
    + intros Hall. apply map_Forall_insert_2; [|done].
      specialize (Hall _ _ Hb). cbn in *. rewrite length_app. cbn. lia.
  - destruct pool as [c|]; [|done]. cbn in H.
    destruct (_ <=? _); by simplify_eq.
  - destruct pool as [c|]; [|done]. cbn in H.
    destruct (_ <=? _); by simplify_eq.
Qed.

Lemma settle_stores y now bufs pool bufs' pool' st d :
  settle y now bufs pool = (bufs', pool', st, d) →
  same_stores bufs bufs' ∧
  (map_Forall (fun _ st => store_ok st) bufs →
   map_Forall (fun _ st => store_ok st) bufs').
Proof.
  unfold settle. intros H. destruct y as [dl|r|]; simplify_eq; try done.
  destruct (do_request r bufs pool) as [[[[??]?]?]|] eqn:Hr; simplify_eq;
    [|done].
  by eapply do_request_stores.
Qed.

Lemma stores_exec sched s s' :
  exec sched s = Some s' →
  same_stores (buffers s) (buffers s') ∧
  (map_Forall (fun _ st => store_ok st) (buffers s) →
   map_Forall (fun _ st => store_ok st) (buffers s')).
Proof.
  apply (exec_step_kind
           (fun s' => same_stores (buffers s) (buffers s') ∧
                      (map_Forall (fun _ st => store_ok st) (buffers s) →
                       map_Forall (fun _ st => store_ok st) (buffers s')))).
  - intros s1 s2 [Hsame Hok] Hstep.
    assert (∀ bufs, same_stores (buffers s1) bufs ∧
                    (map_Forall (fun _ st => store_ok st) (buffers s1) →
                     map_Forall (fun _ st => store_ok st) bufs) →
                    same_stores (buffers s) bufs ∧
                    (map_Forall (fun _ st => store_ok st) (buffers s) →
                     map_Forall (fun _ st => store_ok st) bufs)) as Hcomp.
    { intros bufs [H1 H2]. split; [|by auto].
      intros b. by rewrite H1, Hsame. }
    destruct Hstep as [t Ht Hcan ->|i p u Hi Hst Hu ->
                      |i p r bufs pool v d Hi Hst Hreq ->
                      |i p v e g b m y bufs pool st d Hi Hst Hrun Hok' Hset ->];
      cbn [buffers]; try done.
    + apply Hcomp. by eapply do_request_stores.
    + apply Hcomp. by eapply settle_stores.
  - done.
Qed.

Lemma forward_chain_stores rel steps : ∀ prev bufs bufs' chain,
  forward_chain rel steps prev bufs = Some (bufs', chain) →
  ∀ b st, bufs' !! b = Some st →
          bufs !! b = Some st ∨ st = mkStore [] 999999.
Proof.
  induction steps as [|step rest IH]; intros prev bufs bufs' chain H b st Hb;
    cbn in H.
  - simplify_eq. by left.
  - destruct (String.eqb _ "sink").
    + destruct (bufs !! prev); simplify_eq/=. by left.
    + destruct (step_bodies _ _ _ _ _) as [bodies|]; [|done]. cbn in H.
      destruct (forward_chain _ _ _ _) as [[bufs2 more]|] eqn:Hc; [|done].
      simplify_eq/=.
      destruct (IH _ _ _ _ Hc _ _ Hb) as [Hin | ->]; [|by right].
      unfold ensure_buffer in Hin.
      destruct (bufs !! ("after_" +:+ step_id step)) eqn:Ha; [by left|].
      apply lookup_insert_Some in Hin as [[_ <-]|[_ Hin]]; [by right|by left].
Qed.

(** The stores [run_simulation] starts with: the configured ones, empty and
    with their configured capacity, and the [after_<id>] stores, empty and
    with capacity 999999. *)
Lemma init_stores cfg s0 b st :
  init_sim cfg = Some s0 → buffers s0 !! b = Some st →
  items st = [] ∧ 0 < capacity st ∧
  (capacity st = 999999 ∨ (b, capacity st) ∈ buffers_cfg cfg).
Proof.
  unfold init_sim. intros H Hb.
  destruct (forallb _ _) eqn:Hpos; [|done].
  destruct (forward_chain _ _ _ _) as [[bufs chain]|] eqn:Hc; [|done].
  simplify_eq/=.
  destruct (forward_chain_stores _ _ _ _ _ _ Hc _ _ Hb) as [Hin| ->].
  - apply elem_of_list_to_map_2 in Hin.
    apply list_elem_of_In, in_map_iff in Hin as ([n c] & [= <- <-] & Hin).
    cbn. split; [done|].
    pose proof (proj1 (List.forallb_forall _ _) Hpos _ Hin) as Hc0. cbn in Hc0.
    apply Z.ltb_lt in Hc0. split; [done|]. right. by apply list_elem_of_In.
  - cbn. split_and!; [done|lia|by left].
Qed.

(** X14: the stores of a run.  A state a run reaches has exactly the stores
    the run started with, with unchanged capacities: the configured stores
    with their configured capacity and the [after_<id>] stores of the
    forward chain with capacity 999999.  Every capacity is positive and no
    store ever holds more items than its capacity. *)
Theorem stores_stay_within_capacity (cfg : Config) (s0 s : Sim)
    (sched : list Action) (b : string) (st : Store) :
  init_sim cfg = Some s0 →
  exec sched s0 = Some s →
  buffers s !! b = Some st →
  (∃ st0, buffers s0 !! b = Some st0 ∧ items st0 = [] ∧
          capacity st0 = capacity st) ∧
  (capacity st = 999999 ∨ (b, capacity st) ∈ buffers_cfg cfg) ∧
  0 < capacity st ∧
  Z.of_nat (length (items st)) <= capacity st.
Proof.
  intros H0 Hx Hb.
  destruct (stores_exec _ _ _ Hx) as [Hsame Hok].
  specialize (Hsame b). rewrite Hb in Hsame. cbn in Hsame.
  destruct (buffers s0 !! b) as [st0|] eqn:Hb0; [|done].
  injection Hsame as Hcap.
  destruct (init_stores _ _ _ _ H0 Hb0) as (Hit & Hpos & Hcfg).
  assert (map_Forall (fun _ st => store_ok st) (buffers s0)) as Hinit.
  { intros b' st' Hb'.
    destruct (init_stores _ _ _ _ H0 Hb') as (Hit' & Hpos' & _).
    unfold store_ok. rewrite Hit'. cbn. lia. }
  destruct (Hok Hinit _ _ Hb) as [? ?].
  split_and!; try done.
  - exists st0. by rewrite Hcap.
  - by rewrite Hcap.
Qed.

Lemma stores_stay_within_capacity_witness :
  init_sim demo_cfg = Some demo_initial ∧
  exec demo_sched demo_initial = Some demo_final ∧
  (capacity (store_at demo_final "after_pressen_2") = 999999 ∨
   ("after_pressen_2"%string, capacity (store_at demo_final "after_pressen_2"))
     ∈ buffers_cfg demo_cfg) ∧
  Z.of_nat (length (items (store_at demo_final "after_pressen_2"))) <=
    capacity (store_at demo_final "after_pressen_2").
Proof.
  assert (H0 : init_sim demo_cfg = Some demo_initial) by (vm_compute; reflexivity).
  assert (Hx : exec demo_sched demo_initial = Some demo_final)
    by (vm_compute; reflexivity).
  assert (Hb : buffers demo_final !! "after_pressen_2" =
               Some (store_at demo_final "after_pressen_2"))
    by (vm_compute; reflexivity).
  destruct (stores_stay_within_capacity demo_cfg demo_initial demo_final
              demo_sched "after_pressen_2" _ H0 Hx Hb) as (_ & Hcfg & _ & Hlen).
  split; [exact H0|]. split; [exact Hx|]. split; [exact Hcfg|exact Hlen].
Defined.

(** ** Conservation of tokens *)

Lemma total_items_insert bufs b st st' :
  bufs !! b = Some st →
  total_items (<[b := st']> bufs) =
  total_items bufs - Z.of_nat (length (items st)) + Z.of_nat (length (items st')).
Proof.
  intros Hb. unfold total_items.
  rewrite <- (insert_delete_eq bufs).
  rewrite map_fold_insert_L.
  - rewrite (map_fold_delete_L _ _ b st bufs); [lia| |done].
    intros. lia.
  - intros. lia.
  - apply lookup_delete_eq.
Qed.

Lemma total_items_empty bufs :
  map_Forall (fun _ st => items st = []) bufs → total_items bufs = 0.
Proof.
  unfold total_items.
  induction bufs as [|b st bufs Hb Hfold IH] using map_first_key_ind; intros Hall.
  - by rewrite map_fold_empty.
  - rewrite map_fold_insert_first_key by done.
    apply map_Forall_insert in Hall as [Hst Hall]; [|done].
    rewrite IH by done. rewrite Hst. done.
Qed.

Lemma do_request_balance r bufs pool bufs' pool' v d :
  do_request r bufs pool = Some (bufs', pool', v, d) →
  total_items bufs' + in_hand (Ready v) = total_items bufs + in_hand (Blocked r) ∧
  (∀ tok, v = Some tok → ∃ b, r = RGet b) ∧
  (∀ b, r = RGet b → ∃ tok, v = Some tok).
Proof.
  unfold do_request.
  destruct r as [b|b tok|n|n]; intros H.
  - destruct (bufs !! b) as [st|] eqn:Hb; [|done]. cbn in H.
    destruct (items st) as [|tok rest] eqn:Hit; [done|]. simplify_eq.
    rewrite (total_items_insert _ _ _ _ Hb), Hit. cbn [items length in_hand].
    split_and!; [lia|eauto..].
  - destruct (bufs !! b) as [st|] eqn:Hb; [|done]. cbn in H.
    destruct (_ <? _); [|done]. simplify_eq.
    rewrite (total_items_insert _ _ _ _ Hb). cbn [items in_hand].
    rewrite length_app. cbn [length]. split_and!; [lia|done..].
  - destruct pool as [c|]; [|done]. cbn in H.
    destruct (_ <=? _); by simplify_eq.
  - destruct pool as [c|]; [|done]. cbn in H.
    destruct (_ <=? _); by simplify_eq.
Qed.

Lemma settle_balance y now bufs pool bufs' pool' st d :
  settle y now bufs pool = (bufs', pool', st, d) →
  total_items bufs' + in_hand st = total_items bufs + yield_tokens y ∧
  (∀ tok, st = Ready (Some tok) → ∃ b, y = YRequest (RGet b)) ∧
  (∀ b, st = Blocked (RGet b) → y = YRequest (RGet b)) ∧
  (∀ b, y = YRequest (RGet b) →
        st = Blocked (RGet b) ∨ ∃ tok, st = Ready (Some tok)).
Proof.
  unfold settle. intros H. destruct y as [dl|r|]; simplify_eq; try done.
  destruct (do_request r bufs pool) as [[[[bufs1 pool1] v] d1]|] eqn:Hr;
    simplify_eq.
  - destruct (do_request_balance _ _ _ _ _ _ _ Hr) as (Hbal & Hv & _).
    split_and!.
    + destruct r; cbn in *; lia.
    + intros tok [= ->]. destruct (Hv _ eq_refl) as [b ->]. eauto.
    + done.
    + intros b [= ->]. right. unfold do_request in Hr.
      destruct (bufs !! b) as [st|]; [|done]. cbn in Hr.
      destruct (items st); simplify_eq. eauto.
  - split_and!.
    + destruct r; cbn; lia.
    + done.
    + by intros b [= ->].
    + intros b [= ->]. by left.
Qed.

Lemma station_top_tokens pr a l bufs l' y :
  station_top pr a l bufs = Some (l', y) →
  yield_tokens y = 0 ∧
  ((st_pc l' = ST_get ∧ ∃ b, y = YRequest (RGet b)) ∨
   (st_pc l' = ST_poll ∧ ∃ dl, y = YTimeout dl)).
Proof.
  intros H.
  apply station_top_inv in H as (_ & _ & _ & _ & [[-> [b ->]]|[-> ->]]);
    split; eauto.
Qed.

(** A runner takes over the token it is handed, keeps it while it works and
    gives it up with the put on its output store. *)
Lemma run_station_tokens pr a l v now bufs hp m e g l' m' y :
  run_station pr a l v now bufs hp m e g = Some (l', m', y) →
  (∀ tok, v = Some tok → st_pc l = ST_get) →
  carried (BStation pr a l') + yield_tokens y =
    carried (BStation pr a l) + in_hand (Ready v) ∧
  (∀ b, y = YRequest (RGet b) → st_pc l' = ST_get).
Proof.
  unfold run_station, station_process, station_publish. intros H Hv.
  assert (∀ l2 l3 y3,
            station_top pr a l2 bufs = Some (l3, y3) →
            carried (BStation pr a l3) + yield_tokens y3 = 0 ∧
            (∀ b, y3 = YRequest (RGet b) → st_pc l3 = ST_get)) as Htop.
  { intros l2 l3 y3 Ht.
    apply station_top_tokens in Ht as [-> [[Hp [b ->]]|[Hp [dl ->]]]];
      cbn; rewrite Hp; done. }
  assert (st_pc l ≠ ST_get → in_hand (Ready v) = 0) as Hnone.
  { intros Hne. destruct v as [tok|]; [|done]. by destruct (Hne (Hv _ eq_refl)). }
  cbn [carried].
  destruct (st_pc l) eqn:Hpc; rewrite ?Hnone by done.
  - destruct (station_top _ _ _ _) as [[l1 y1]|] eqn:Ht; simplify_eq/=.
    by apply Htop in Ht.
  - destruct (station_top _ _ _ _) as [[l1 y1]|] eqn:Ht; simplify_eq/=.
    by apply Htop in Ht.
  - destruct v; simplify_eq/=. by destruct (uses_workers hp a); simplify_eq/=.
  - by simplify_eq/=.
  - destruct (uses_workers hp a); simplify_eq/=; [done|].
    destruct (item l); by simplify_eq/=.
  - destruct (item l); by simplify_eq/=.
  - destruct (ext_le0 _).
    + destruct (Py.gt _ 0).
      * by simplify_eq/=.
      * destruct (station_top _ _ _ _) as [[l1 y1]|] eqn:Ht; simplify_eq/=.
        by apply Htop in Ht.
    + destruct (station_top _ _ _ _) as [[l1 y1]|] eqn:Ht; simplify_eq/=.
      by apply Htop in Ht.
  - destruct (station_top _ _ _ _) as [[l1 y1]|] eqn:Ht; simplify_eq/=.
    by apply Htop in Ht.
Qed.

Lemma new_orders_top_tokens rate stop c now e :
  yield_tokens (snd (new_orders_top rate stop c now e)) = 0 ∧
  (∀ b, snd (new_orders_top rate stop c now e) ≠ YRequest (RGet b)).
Proof. unfold new_orders_top. by repeat case_match. Qed.

Lemma returns_top_tokens inter stop i now e st y :
  returns_top inter stop i now e = Some (st, y) →
  yield_tokens y = 0 ∧ (∀ b, y ≠ YRequest (RGet b)).
Proof. unfold returns_top. intros H. by repeat case_match; simplify_eq. Qed.

Ltac tok_fin := cbn; split_and!; try done; try lia; eauto.

(** One resume of any generator moves tokens without creating or dropping
    one: what it held and was handed is what it holds and hands on, up to
    the arrivals and the throughput it counts. *)
Lemma resume_balance b v now bufs hp m e g b' m' y :
  resume_body b v now bufs hp m e g = Some (b', m', y) →
  (∀ tok, v = Some tok → awaits_token b = true) →
  (∀ i, b = BSink i true → v ≠ None) →
  carried b' + yield_tokens y + throughput_kunde m' + arrivals_new m +
    arrivals_returns m + put_pending b =
  carried b + in_hand (Ready v) + throughput_kunde m + arrivals_new m' +
    arrivals_returns m' + put_pending b' ∧
  (∀ bb, y = YRequest (RGet bb) → awaits_token b' = true) ∧
  match b' with
  | BSink _ started => started = true ∧ ∃ bb, y = YRequest (RGet bb)
  | _ => True
  end.
Proof.
  intros H Hv Hsink.
  assert (awaits_token b = false → in_hand (Ready v) = 0) as Hnone.
  { intros Hf. destruct v as [tok|]; [|done].
    rewrite (Hv _ eq_refl) in Hf. done. }
  destruct b as [rate stop st|inter stop st|delay pc held|pc toggle|pr a l
                |input started|every rows]; cbn in H.
  - rewrite Hnone by done. unfold new_orders_source in H.
    destruct st as [pc c]; cbn in H.
    destruct pc; cbn in H.
    + pose proof (new_orders_top_shape rate stop c now e) as [Hc Hpc].
      pose proof (new_orders_top_tokens rate stop c now e) as [Hy Hg].
      destruct (new_orders_top _ _ _ _ _) as [[pc' c'] y']; simplify_eq/=.
      split_and!; [destruct pc'; try done; lia|intros bb Hbb; by destruct (Hg bb)|done].
    + simplify_eq/=. tok_fin.
    + destruct (bufs !! "neu_lager") as [neu|]; [|done]. cbn in H.
      destruct (_ <? _).
      * simplify_eq/=. tok_fin.
      * pose proof (new_orders_top_shape rate stop (S c) now e) as [Hc Hpc].
        pose proof (new_orders_top_tokens rate stop (S c) now e) as [Hy Hg].
        destruct (new_orders_top _ _ _ _ _) as [[pc' c'] y']; simplify_eq/=.
        split_and!; [destruct pc'; try done; lia|intros bb Hbb; by destruct (Hg bb)|done].
    + pose proof (new_orders_top_shape rate stop c now e) as [Hc Hpc].
      pose proof (new_orders_top_tokens rate stop c now e) as [Hy Hg].
      destruct (new_orders_top _ _ _ _ _) as [[pc' c'] y']; simplify_eq/=.
      split_and!; [destruct pc'; try done; lia|intros bb Hbb; by destruct (Hg bb)|done].
  - rewrite Hnone by done. unfold returns_source, returns_put_next in H.
    destruct st as [pc i k]; cbn in H.
    destruct pc; cbn in H.
    + destruct (returns_top _ _ _ _ _) as [[[pc' i' k'] y']|] eqn:Ht; [|done].
      pose proof (returns_top_shape _ _ _ _ _ _ _ Ht) as [Hi Hpc].
      apply returns_top_tokens in Ht as [Hy Hg]. simplify_eq/=.
      split_and!; [destruct pc'; try done; lia|intros bb Hbb; by destruct (Hg bb)|done].
    + simplify_eq/=. tok_fin.
    + destruct (bufs !! "warenannahme"); [|done]. simplify_eq/=. tok_fin.
    + destruct k.
      * destruct (returns_top _ _ _ _ _) as [[[pc' i' k'] y']|] eqn:Ht; [|done].
        pose proof (returns_top_shape _ _ _ _ _ _ _ Ht) as [Hi Hpc].
        apply returns_top_tokens in Ht as [Hy Hg]. simplify_eq/=.
        split_and!; [destruct pc'; try done; lia|intros bb Hbb; by destruct (Hg bb)|done].
      * destruct (bufs !! "warenannahme"); [|done]. simplify_eq/=.
        tok_fin.
  - unfold reverse_shortcut in H. destruct pc; cbn in H.
    + rewrite Hnone by done.
      destruct (bufs !! "warenannahme"); [|done]. cbn in H.
      destruct (bufs !! "reman_lager"); [|done]. simplify_eq/=; tok_fin.
    + destruct v; simplify_eq/=; tok_fin.
    + rewrite Hnone by done. destruct held; simplify_eq/=; tok_fin.
    + rewrite Hnone by done. simplify_eq/=; tok_fin.
  - unfold reman_merge_feeder in H. destruct pc; cbn in H.
    + rewrite Hnone by done.
      destruct (bufs !! "reman_lager"); [|done]. cbn in H.
      destruct (bufs !! "lager1"); [|done]. cbn in H.
      destruct (bufs !! "lager2"); [|done]. simplify_eq/=; tok_fin.
    + destruct v; simplify_eq/=; tok_fin.
    + rewrite Hnone by done. simplify_eq/=; tok_fin.
  - destruct (run_station _ _ _ _ _ _ _ _ _ _) as [[[l1 m1] y1]|] eqn:Hrun;
      [|done].
    simplify_eq/=.
    pose proof (run_station_counters _ _ _ _ _ _ _ _ _ _ _ _ _ Hrun) as Hc.
    unfold counters in Hc. injection Hc as -> _ -> ->.
    destruct (run_station_tokens _ _ _ _ _ _ _ _ _ _ _ _ _ Hrun) as [Hbal Hg].
    { intros tok ->. specialize (Hv _ eq_refl). cbn in Hv.
      by destruct (st_pc l). }
    cbn in Hbal |- *. split_and!; [lia| |done].
    intros bb Hy. by rewrite (Hg _ Hy).
  - unfold sink_consumer in H. simplify_eq/=.
    destruct started.
    + destruct v as [tok|]; [|by destruct (Hsink input eq_refl)].
      tok_fin.
    + rewrite Hnone by done. tok_fin.
  - rewrite Hnone by done. simplify_eq/=; tok_fin.
Qed.

Lemma conservation_step s s' :
  step_kind s s' → conservation_inv s → conservation_inv s'.
Proof.
  intros Hstep [Hwf Hbal]. unfold conservation_inv.
  destruct Hstep as [t Ht Hcan ->|i p u Hi Hst Hu ->
                    |i p r bufs pool v d Hi Hst Hreq ->
                    |i p v e g b m y bufs pool st d Hi Hst Hrun Hok Hset ->];
    cbn [procs metrics buffers]; [done|..];
    pose proof (Forall_lookup_1 _ _ _ _ Hwf Hi) as (Hw1 & Hw2 & Hw3);
    rewrite !(sum_procs_insert _ _ _ _ _ Hi); unfold held in *;
    cbn [body status].
  - split.
    + apply Forall_insert; [done|]. unfold token_wf. cbn [body status].
      split_and!; try done.
      destruct (body p) as [| | | | |input started|]; try done.
      rewrite Hst in Hw3. destruct started; [|done].
      by destruct Hw3 as [[? ?]|[? ?]].
    + rewrite Hst. cbn [in_hand]. lia.
  - destruct (do_request_balance _ _ _ _ _ _ _ Hreq) as (Hb & Hv & Hget).
    split.
    + apply Forall_insert; [done|]. unfold token_wf. cbn [body status].
      split_and!; try done.
      * intros tok [= ->]. destruct (Hv _ eq_refl) as [bb ->]. by eapply Hw2.
      * destruct (body p) as [| | | | |input started|]; try done.
        rewrite Hst in Hw3. destruct started; [|done].
        destruct Hw3 as [[bb [= ->]]|[? ?]]; [|done].
        right. destruct (Hget _ eq_refl) as [tok ->]. eauto.
    + rewrite Hst. lia.
  - destruct (settle_balance _ _ _ _ _ _ _ _ Hset) as (Hb & Hs1 & Hs2 & Hs3).
    destruct (resume_balance _ _ _ _ _ _ _ _ _ _ _ Hrun) as (Hr & Hg & Hsk).
    { intros tok ->. by eapply Hw1. }
    { intros input Hbs. rewrite Hbs in Hw3. rewrite Hst in Hw3.
      destruct Hw3 as [[? ?]|[tok [= ->]]]; done. }
    split.
    + apply Forall_insert; [done|]. unfold token_wf. cbn [body status].
      split_and!.
      * intros tok ->. destruct (Hs1 _ eq_refl) as [bb ->]. by eapply Hg.
      * intros bb ->. by eapply Hg, Hs2.
      * destruct b as [| | | | |input started|]; try done.
        destruct Hsk as [-> [bb ->]].
        destruct (Hs3 _ eq_refl) as [-> | [tok ->]]; eauto.
    + rewrite Hst. lia.
Qed.

Lemma conservation_reachable cfg s0 sched s :
  init_sim cfg = Some s0 → exec sched s0 = Some s → conservation_inv s.
Proof.
  intros H0 Hx. revert Hx. apply (exec_step_kind conservation_inv).
  - intros s1 s2 HI Hstep. by eapply conservation_step.
  - destruct (init_registered _ _ H0) as (_ & Hm & Hreg). split.
    + eapply Forall_impl; [exact Hreg|]. intros q (Hst & _ & Hq).
      unfold token_wf. rewrite Hst. split_and!; try done.
      destruct (body q); try done. by rewrite Hq.
    + rewrite Hm. cbn.
      rewrite !sum_procs_zero, total_items_empty; [done|..].
      * intros b st Hb. by destruct (init_stores _ _ _ _ H0 Hb).
      * eapply Forall_impl; [exact Hreg|]. intros q (Hst & _ & Hq).
        unfold held. rewrite Hst.
        destruct (body q) as [| |delay pc hd| |pr a l| |]; try done.
        -- by destruct Hq as (_ & -> & _).
        -- by destruct Hq as [-> _].
      * eapply Forall_impl; [exact Hreg|]. intros q (_ & _ & Hq).
        destruct (body q); try done.
        -- by destruct Hq as (_ & _ & ->).
        -- by destruct Hq as (_ & _ & ->).
Qed.

(** X15: the token balance.  In every state a run reaches, the number of
    tokens counted as arrived ([arrivals_new] plus [arrivals_returns]) plus
    the number of tokens a source has built and offered to its store and not
    yet counted equals the number of tokens that lie in the stores, plus the
    number the processes hold (handed to a process by a get, kept while it
    works or waits, or offered with a put that is still queued), plus the
    number the sink has counted in [throughput_kunde]. *)
Theorem tokens_are_conserved (cfg : Config) (s0 s : Sim) (sched : list Action) :
  init_sim cfg = Some s0 →
  exec sched s0 = Some s →
  arrivals_new (metrics s) + arrivals_returns (metrics s) +
  sum_procs (fun p => put_pending (body p)) (procs s) =
  total_items (buffers s) + sum_procs held (procs s) +
  throughput_kunde (metrics s).
Proof.
  intros H0 Hx. by destruct (conservation_reachable _ _ _ _ H0 Hx).
Qed.

Lemma tokens_are_conserved_witness :
  init_sim demo_cfg = Some demo_initial ∧
  exec demo_sched demo_initial = Some demo_final ∧
  arrivals_new (metrics demo_final) + arrivals_returns (metrics demo_final) +
  sum_procs (fun p => put_pending (body p)) (procs demo_final) =
  total_items (buffers demo_final) + sum_procs held (procs demo_final) +
  throughput_kunde (metrics demo_final).
Proof.
  assert (H0 : init_sim demo_cfg = Some demo_initial) by (vm_compute; reflexivity).
  assert (Hx : exec demo_sched demo_initial = Some demo_final)
    by (vm_compute; reflexivity).
  split; [exact H0|]. split; [exact Hx|].
  exact (tokens_are_conserved demo_cfg demo_initial demo_final demo_sched H0 Hx).
Defined.

(** ** The merge feeder and the reverse shortcut, resume by resume *)

Lemma merge_trace_from_get (bufs : gmap string Store) (toks : list Token) :
  ∀ toggle,
  ∃ ys,
    merge_trace MF_get toggle (flat_map (fun tok => [Some tok; None]) toks) bufs
      = Some ys ∧
    length ys = (2 * length toks)%nat ∧
    ∀ k tok, toks !! k = Some tok →
      ys !! (2 * k)%nat =
        Some (YRequest (RPut (if Nat.even (toggle + k) then "lager1" else "lager2")
                          tok)) ∧
      ys !! (2 * k + 1)%nat = Some (YRequest (RGet "reman_lager")).
Proof.
  induction toks as [|tok toks IH]; intros toggle.
  - exists []. split_and!; [done..|]. intros k tok Hk. done.
  - destruct (IH (S toggle)) as (ys & Hys & Hlen & Hk).
    exists (YRequest (RPut (if Nat.even toggle then "lager1" else "lager2") tok)
            :: YRequest (RGet "reman_lager") :: ys).
    split_and!.
    + cbn. cbn in Hys. by rewrite Hys.
    + cbn. rewrite Hlen. lia.
    + intros [|k] tok' Hk'.
      * cbn in Hk'. simplify_eq. rewrite Nat.add_0_r. done.
      * cbn in Hk'. destruct (Hk _ _ Hk') as [H1 H2].
        replace (2 * S k)%nat with (S (S (2 * k))) by lia.
        replace (S (S (2 * k)) + 1)%nat with (S (S (2 * k + 1))) by lia.
        replace (toggle + S k)%nat with (S toggle + k)%nat by lia.
        done.
Qed.

(** X16: the merge feeder, resume by resume.  Started with the three stores
    present, it first yields a get on [reman_lager]; then, for the tokens
    its gets deliver one after the other, it yields for token number [k]
    (counted from zero) a put of that very token on [lager1] when [k] is
    even and on [lager2] when [k] is odd, followed by the next get on
    [reman_lager]: the two stores are fed strictly in turn, beginning with
    [lager1]. *)
Theorem merge_feeder_alternates (bufs : gmap string Store) (toks : list Token) :
  is_Some (bufs !! "reman_lager") →
  is_Some (bufs !! "lager1") →
  is_Some (bufs !! "lager2") →
  ∃ ys,
    merge_trace MF_start 0 (merge_values toks) bufs = Some ys ∧
    length ys = (1 + 2 * length toks)%nat ∧
    ys !! 0%nat = Some (YRequest (RGet "reman_lager")) ∧
    ∀ k tok, toks !! k = Some tok →
      ys !! (1 + 2 * k)%nat =
        Some (YRequest (RPut (if Nat.even k then "lager1" else "lager2") tok)) ∧
      ys !! (2 + 2 * k)%nat = Some (YRequest (RGet "reman_lager")).
Proof.
  intros [r Hr] [l1 Hl1] [l2 Hl2].
  destruct (merge_trace_from_get bufs toks 0) as (ys & Hys & Hlen & Hk).
  exists (YRequest (RGet "reman_lager") :: ys). split_and!.
  - unfold merge_values. cbn. rewrite Hr, Hl1, Hl2. cbn. by rewrite Hys.
  - cbn. by rewrite Hlen.
  - done.
  - intros k tok Hktok. destruct (Hk _ _ Hktok) as [H1 H2].
    replace (2 + 2 * k)%nat with (S (2 * k + 1)) by lia.
    done.
Qed.

Lemma merge_feeder_alternates_witness :
  ∃ ys,
    merge_trace MF_start 0
      (merge_values [RetTok "RET-00001"; RetTok "RET-00002"])
      (buffers demo_initial) = Some ys ∧
    length ys = 5%nat.
Proof.
  assert (Hr : is_Some (buffers demo_initial !! "reman_lager"))
    by (vm_compute; eauto).
  assert (H1 : is_Some (buffers demo_initial !! "lager1"))
    by (vm_compute; eauto).
  assert (H2 : is_Some (buffers demo_initial !! "lager2"))
    by (vm_compute; eauto).
  destruct (merge_feeder_alternates (buffers demo_initial)
              [RetTok "RET-00001"; RetTok "RET-00002"] Hr H1 H2)
    as (ys & Hys & Hlen & _).
  exists ys. split; [exact Hys|exact Hlen].
Defined.

Lemma shortcut_trace_from_get (delay : Q) (bufs : gmap string Store)
    (toks : list Token) (held : option Token) :
  ∃ ys,
    shortcut_trace delay SC_get held
      (flat_map (fun tok => [Some tok; None; None]) toks) bufs = Some ys ∧
    length ys = (3 * length toks)%nat ∧
    ∀ k tok, toks !! k = Some tok →
      ys !! (3 * k)%nat = Some (YTimeout delay) ∧
      ys !! (3 * k + 1)%nat = Some (YRequest (RPut "reman_lager" tok)) ∧
      ys !! (3 * k + 2)%nat = Some (YRequest (RGet "warenannahme")).
Proof.
  revert held. induction toks as [|tok toks IH]; intros held.
  - exists []. split_and!; [done..|]. intros k tok Hk. done.
  - destruct (IH None) as (ys & Hys & Hlen & Hk).
    exists (YTimeout delay :: YRequest (RPut "reman_lager" tok)
            :: YRequest (RGet "warenannahme") :: ys).
    split_and!.
    + cbn. cbn in Hys. by rewrite Hys.
    + cbn. rewrite Hlen. lia.
    + intros [|k] tok' Hk'.
      * cbn in Hk'. by simplify_eq.
      * cbn in Hk'. destruct (Hk _ _ Hk') as (H1 & H2 & H3).
        replace (3 * S k)%nat with (S (S (S (3 * k)))) by lia.
        replace (S (S (S (3 * k))) + 1)%nat with (S (S (S (3 * k + 1)))) by lia.
        replace (S (S (S (3 * k))) + 2)%nat with (S (S (S (3 * k + 2)))) by lia.
        done.
Qed.

(** X17: the reverse shortcut, resume by resume.  Started with its two
    stores present, it first yields a get on [warenannahme]; then, for every
    token its gets deliver, it yields a timeout of exactly [delay_min], then
    a put of that very token on [reman_lager], then the next get on
    [warenannahme]: returned units pass one at a time, unchanged and in
    order, each held for the configured delay. *)
Theorem reverse_shortcut_passes_tokens (delay : Q) (bufs : gmap string Store)
    (toks : list Token) :
  is_Some (bufs !! "warenannahme") →
  is_Some (bufs !! "reman_lager") →
  ∃ ys,
    shortcut_trace delay SC_start None (shortcut_values toks) bufs = Some ys ∧
    length ys = (1 + 3 * length toks)%nat ∧
    ys !! 0%nat = Some (YRequest (RGet "warenannahme")) ∧
    ∀ k tok, toks !! k = Some tok →
      ys !! (1 + 3 * k)%nat = Some (YTimeout delay) ∧
      ys !! (2 + 3 * k)%nat = Some (YRequest (RPut "reman_lager" tok)) ∧
      ys !! (3 + 3 * k)%nat = Some (YRequest (RGet "warenannahme")).
Proof.
  intros [w Hw] [r Hr].
  destruct (shortcut_trace_from_get delay bufs toks None)
    as (ys & Hys & Hlen & Hk).
  exists (YRequest (RGet "warenannahme") :: ys). split_and!.
  - unfold shortcut_values. cbn. rewrite Hw, Hr. cbn. by rewrite Hys.
  - cbn. by rewrite Hlen.
  - done.
  - intros k tok Hktok. destruct (Hk _ _ Hktok) as (H1 & H2 & H3).
    replace (2 + 3 * k)%nat with (S (3 * k + 1)) by lia.
    replace (3 + 3 * k)%nat with (S (3 * k + 2)) by lia.
    done.
Qed.

Lemma reverse_shortcut_passes_tokens_witness :
  ∃ ys,
    shortcut_trace (5 # 1) SC_start None
      (shortcut_values [RetTok "RET-00001"; RetTok "RET-00002"])
      (buffers demo_initial) = Some ys ∧
    length ys = 7%nat.
Proof.
  assert (Hw : is_Some (buffers demo_initial !! "warenannahme"))
    by (vm_compute; eauto).
  assert (Hr : is_Some (buffers demo_initial !! "reman_lager"))
    by (vm_compute; eauto).
  destruct (reverse_shortcut_passes_tokens (5 # 1) (buffers demo_initial)
              [RetTok "RET-00001"; RetTok "RET-00002"] Hw Hr)
    as (ys & Hys & Hlen & _).
  exists ys. split; [exact Hys|exact Hlen].
Defined.

(** ** Resources charged per published unit *)

Lemma charges_begin m s : charges (_begin_processing m s) = charges m.
Proof. unfold _begin_processing. by destruct (_ >? _). Qed.

Lemma charges_end m s : charges (_end_processing m s) = charges m.
Proof. done. Qed.

Lemma charges_mix a l m : charges (pressen1_mix a l m) = charges m.
Proof. unfold pressen1_mix. by repeat case_match. Qed.

Lemma charges_update a l m : charges (metrics_update a l m) = charges m.
Proof. done. Qed.

Lemma add_resources_charges m s kwh air k :
  station_intensity (_add_resources m s kwh air) = station_intensity m ∧
  getd k 0%Q (resources_kwh (_add_resources m s kwh air)) =
    (if String.eqb s k then (getd k 0 (resources_kwh m) + kwh)%Q
     else getd k 0%Q (resources_kwh m)) ∧
  getd k 0%Q (resources_air_m3 (_add_resources m s kwh air)) =
    (if String.eqb s k then (getd k 0 (resources_air_m3 m) + air)%Q
     else getd k 0%Q (resources_air_m3 m)).
Proof.
  unfold _add_resources. cbn [station_intensity resources_kwh resources_air_m3
                               set_resources].
  split; [done|].
  destruct (String.eqb s k) eqn:Hk.
  - apply String.eqb_eq in Hk. subst k.
    by rewrite !getd_insert_same, !getd_setdefault_same.
  - apply String.eqb_neq in Hk.
    rewrite !getd_insert_ne, !getd_setdefault_ne by done. done.
Qed.

(** A runner charges its station once for every unit, right after the put
    on the output store, and at no other point. *)
Lemma run_station_charges pr a l v now bufs hp m e g l' m' y :
  run_station pr a l v now bufs hp m e g = Some (l', m', y) →
  charges m' =
  match st_pc l with
  | ST_out_put =>
      charges (_add_resources m (base_id a)
                 (fst (intensity (base_id a) m)) (snd (intensity (base_id a) m)))
  | _ => charges m
  end.
Proof.
  unfold run_station, station_process, station_publish, intensity. intros H.
  destruct (st_pc l) eqn:Hpc.
  - destruct (station_top _ _ _ _) as [[l1 y1]|]; by simplify_eq/=.
  - destruct (station_top _ _ _ _) as [[l1 y1]|]; by simplify_eq/=.
  - destruct v; simplify_eq/=.
    destruct (uses_workers hp a); simplify_eq/=; [done|].
    by rewrite charges_begin.
  - simplify_eq/=. by rewrite charges_begin.
  - destruct (uses_workers hp a); simplify_eq/=; [by rewrite charges_end|].
    destruct (item l); simplify_eq/=. by rewrite charges_end.
  - destruct (item l); by simplify_eq/=.
  - destruct (ext_le0 _).
    + destruct (Py.gt _ 0).
      * simplify_eq/=. destruct pr; by rewrite ?charges_mix.
      * destruct (station_top _ _ _ _) as [[l1 y1]|]; simplify_eq/=.
        rewrite charges_update. destruct pr; by rewrite ?charges_mix.
    + destruct (station_top _ _ _ _) as [[l1 y1]|]; simplify_eq/=.
      rewrite charges_update. destruct pr; by rewrite ?charges_mix.
  - destruct (station_top _ _ _ _) as [[l1 y1]|]; simplify_eq/=.
    by rewrite charges_update.
Qed.

(** Only station runners touch the intensities and the resource totals. *)
Lemma resume_charges_frame b v now bufs hp m e g b' m' y :
  resume_body b v now bufs hp m e g = Some (b', m', y) →
  station_args_of b = None → charges m' = charges m.
Proof.
  destruct b as [rate stop st|inter stop st|delay pc held|pc toggle|pr a l
                |input started|every rows]; cbn; intros H Hb; try done.
  - unfold new_orders_source in H. by crunch H.
  - unfold returns_source in H. by crunch H.
  - destruct (reverse_shortcut _ _ _ _ _) as [[[??]?]|]; by simplify_eq/=.
  - destruct (reman_merge_feeder _ _ _ _) as [[[??]?]|]; by simplify_eq/=.
  - unfold sink_consumer in H. simplify_eq/=. by destruct started.
  - by simplify_eq/=.
Qed.

Lemma charges_getd m1 m2 k :
  charges m1 = charges m2 →
  intensity k m1 = intensity k m2 ∧
  getd k 0%Q (resources_kwh m1) = getd k 0%Q (resources_kwh m2) ∧
  getd k 0%Q (resources_air_m3 m1) = getd k 0%Q (resources_air_m3 m2).
Proof. unfold charges, intensity. by intros [= -> -> ->]. Qed.

Lemma resources_inv_step s s' :
  step_kind s s' → resources_inv s → resources_inv s'.
Proof.
  intros Hstep [Hfresh Hres]. unfold resources_inv.
  destruct Hstep as [t Ht Hcan ->|i p u Hi Hst Hu ->
                    |i p r bufs pool v d Hi Hst Hreq ->
                    |i p v e g b m y bufs pool st d Hi Hst Hrun Hok Hset ->];
    cbn [procs metrics]; [done|..];
    pose proof (Forall_lookup_1 _ _ _ _ Hfresh Hi) as Hp.
  - split; [by apply Forall_insert|]. intros k.
    rewrite (sum_procs_insert _ _ _ _ _ Hi). cbn [body].
    replace (_ - _ + _) with
      (sum_procs (fun p => published k (body p)) (procs s)) by lia.
    apply Hres.
  - split; [by apply Forall_insert|]. intros k.
    rewrite (sum_procs_insert _ _ _ _ _ Hi). cbn [body].
    replace (_ - _ + _) with
      (sum_procs (fun p => published k (body p)) (procs s)) by lia.
    apply Hres.
  - destruct (station_args_of (body p)) as [a0|] eqn:Hb.
    + destruct (body p) as [| | | |pr a l| |] eqn:Hbody; cbn in Hb; try done.
      clear Hb. cbn in Hrun.
      destruct (run_station _ _ _ _ _ _ _ _ _ _) as [[[l' m1] y1]|] eqn:Hst';
        [|done].
      simplify_eq/=.
      destruct (run_station_books _ _ _ _ _ _ _ _ _ _ _ _ _ Hst')
        as (Hns & _ & Hbk).
      pose proof (run_station_charges _ _ _ _ _ _ _ _ _ _ _ _ _ Hst') as Hch.
      split.
      { apply Forall_insert; [done|]. unfold fresh_inv. cbn. done. }
      intros k. destruct (Hres k) as [Hkwh Hair].
      rewrite (sum_procs_insert _ _ _ _ _ Hi). cbn [body published].
      rewrite Hbody. cbn [published].
      unfold fresh_inv in Hp. rewrite Hbody in Hp.
      set (total := sum_procs (fun p => published k (body p)) (procs s)) in *.
      destruct (st_pc l) eqn:Hpc.
      8: { destruct Hbk as (Hprod & _); rewrite Hprod.
           destruct (charges_getd _ _ k Hch) as (E1 & E2 & E3); rewrite E1, E2, E3.
           replace (total - _ + _) with total by lia. done. }
      7: { destruct Hbk as (Hprod & _); rewrite Hprod.
           destruct (add_resources_charges (metrics s) (base_id a)
                       (fst (intensity (base_id a) (metrics s)))
                       (snd (intensity (base_id a) (metrics s))) k)
             as (Hint & Hk1 & Hk2).
           destruct (charges_getd _ _ k Hch) as (E1 & E2 & E3).
           rewrite E1, E2, E3, Hk1, Hk2.
           assert (intensity k (_add_resources (metrics s) (base_id a)
                     (fst (intensity (base_id a) (metrics s)))
                     (snd (intensity (base_id a) (metrics s)))) =
                   intensity k (metrics s)) as ->.
           { unfold intensity at 1. by rewrite Hint. }
           destruct (String.eqb (base_id a) k) eqn:Hk.
           - apply String.eqb_eq in Hk. subst k.
             replace (total - produced l + (produced l + 1)) with (total + 1)
               by lia.
             rewrite inject_Z_plus, Hkwh, Hair.
             change (inject_Z 1) with 1%Q. split; ring.
           - replace (total - 0 + 0) with total by lia. done. }
      1: { destruct Hbk as (Hprod & _); rewrite Hprod. rewrite (Hp eq_refl).
           destruct (charges_getd _ _ k Hch) as (E1 & E2 & E3); rewrite E1, E2, E3.
           replace (total - _ + _) with total
             by (destruct (String.eqb _ _); lia).
           done. }
      all: destruct Hbk as (Hprod & _); rewrite Hprod;
        destruct (charges_getd _ _ k Hch) as (E1 & E2 & E3); rewrite E1, E2, E3;
        replace (total - _ + _) with total by lia; done.
    + pose proof (resume_charges_frame _ _ _ _ _ _ _ _ _ _ _ Hrun Hb) as Hch.
      pose proof (resume_same_kind _ _ _ _ _ _ _ _ _ _ _ Hrun) as Hkind.
      split.
      { apply Forall_insert; [done|]. unfold fresh_inv. cbn [body].
        destruct (body p), b; done. }
      intros k. destruct (Hres k) as [Hkwh Hair].
      rewrite (sum_procs_insert _ _ _ _ _ Hi). cbn [body].
      destruct (charges_getd _ _ k Hch) as (E1 & E2 & E3); rewrite E1, E2, E3.
      assert (published k (body p) = 0 ∧ published k b = 0) as [-> ->].
      { destruct (body p), b; done. }
      replace (_ - 0 + 0) with
        (sum_procs (fun p => published k (body p)) (procs s)) by lia.
      done.
Qed.

Lemma intensity_exec sched s s' :
  exec sched s = Some s' →
  station_intensity (metrics s') = station_intensity (metrics s).
Proof.
  apply (exec_step_kind
           (fun s' => station_intensity (metrics s') =
                      station_intensity (metrics s))); [|done].
  intros s1 s2 HI Hstep. rewrite <- HI. clear HI.
  destruct Hstep as [t Ht Hcan ->|i p u Hi Hst Hu ->
                    |i p r bufs pool v d Hi Hst Hreq ->
                    |i p v e g b m y bufs pool st d Hi Hst Hrun Hok Hset ->];
    cbn [metrics]; try done.
  destruct (station_args_of (body p)) as [a0|] eqn:Hb.
  - destruct (body p) as [| | | |pr a l| |]; cbn in Hb; try done.
    cbn in Hrun.
    destruct (run_station _ _ _ _ _ _ _ _ _ _) as [[[l' m1] y1]|] eqn:Hst';
      [|done].
    simplify_eq/=.
    pose proof (run_station_charges _ _ _ _ _ _ _ _ _ _ _ _ _ Hst') as Hch.
    destruct (st_pc l); injection Hch as -> _ _; done.
  - pose proof (resume_charges_frame _ _ _ _ _ _ _ _ _ _ _ Hrun Hb) as Hch.
    by injection Hch as -> _ _.
Qed.

Lemma resources_inv_reachable cfg s0 sched s :
  init_sim cfg = Some s0 → exec sched s0 = Some s → resources_inv s.
Proof.
  intros H0 Hx. revert Hx. apply (exec_step_kind resources_inv).
  - intros s1 s2 HI Hstep. by eapply resources_inv_step.
  - destruct (init_registered _ _ H0) as (_ & Hm & Hreg). split.
    + eapply Forall_impl; [exact Hreg|]. intros q (_ & _ & Hq).
      unfold fresh_inv. destruct (body q); try done.
      by destruct Hq as [-> _].
    + intros k. rewrite Hm. unfold getd. cbn. rewrite !lookup_empty. cbn.
      rewrite sum_procs_zero.
      * change (inject_Z 0) with 0%Q. split; ring.
      * eapply Forall_impl; [exact Hreg|]. intros q (_ & _ & Hq).
        destruct (body q); try done. cbn.
        destruct Hq as [-> _]. cbn. by destruct (String.eqb _ _).
Qed.

(** X18: resources are charged per published unit, over all machines of a
    station.  In every state a run reaches, the energy recorded under a
    station key (zero while the key is absent) is the station's
    [kwh_per_unit], as [run_simulation] set it up, times the number of units
    that all runners with that key together have published and counted, and
    likewise the compressed air with [air_m3_per_unit]. *)
Theorem resources_charged_per_published_unit (cfg : Config) (s0 s : Sim)
    (sched : list Action) (k : string) :
  init_sim cfg = Some s0 →
  exec sched s0 = Some s →
  let units := sum_procs (fun p => published k (body p)) (procs s) in
  let per_unit := default (0%Q, 0%Q) (initial_intensity cfg !! k) in
  (getd k 0 (resources_kwh (metrics s)) == fst per_unit * inject_Z units)%Q ∧
  (getd k 0 (resources_air_m3 (metrics s)) == snd per_unit * inject_Z units)%Q.
Proof.
  intros H0 Hx units per_unit.
  destruct (resources_inv_reachable _ _ _ _ H0 Hx) as [_ Hres].
  destruct (Hres k) as [Hkwh Hair].
  assert (intensity k (metrics s) = per_unit) as Hint.
  { unfold intensity, per_unit.
    rewrite (intensity_exec _ _ _ Hx).
    destruct (init_registered _ _ H0) as (_ & -> & _). done. }
  by rewrite Hint in Hkwh, Hair.
Qed.

Lemma resources_charged_per_published_unit_witness :
  init_sim two_machine_cfg = Some (run_from_init two_machine_cfg []) ∧
  exec two_machine_sched (run_from_init two_machine_cfg []) =
    Some two_machine_final ∧
  sum_procs (fun p => published "fuegen_1" (body p)) (procs two_machine_final)
    = 2 ∧
  (getd "fuegen_1" 0 (resources_kwh (metrics two_machine_final)) ==
   fst (default (0%Q, 0%Q) (initial_intensity two_machine_cfg !! "fuegen_1")) *
   inject_Z (sum_procs (fun p => published "fuegen_1" (body p))
               (procs two_machine_final)))%Q.
Proof.
  assert (H0 : init_sim two_machine_cfg = Some (run_from_init two_machine_cfg []))
    by (vm_compute; reflexivity).
  assert (Hx : exec two_machine_sched (run_from_init two_machine_cfg []) =
               Some two_machine_final) by (vm_compute; reflexivity).
  split; [exact H0|]. split; [exact Hx|]. split; [vm_compute; reflexivity|].
  exact (proj1 (resources_charged_per_published_unit two_machine_cfg _ _
                  two_machine_sched "fuegen_1" H0 Hx)).
Defined.

(** ** The mix counters of [pressen_1] and the reman share *)

Lemma mix_of_begin m s : mix (_begin_processing m s) = mix m.
Proof. unfold _begin_processing. by destruct (_ >? _). Qed.

Lemma mix_of_end m s : mix (_end_processing m s) = mix m.
Proof. done. Qed.

Lemma mix_of_add_resources m s k a : mix (_add_resources m s k a) = mix m.
Proof. done. Qed.

Lemma mix_of_update a l m : mix (metrics_update a l m) = mix m.
Proof. done. Qed.

Lemma mix_of_pressen1 a l m :
  from_reman m <= from_reman (pressen1_mix a l m) ∧
  from_new m <= from_new (pressen1_mix a l m) ∧
  from_reman (pressen1_mix a l m) + from_new (pressen1_mix a l m) =
    from_reman m + from_new m +
    (if String.eqb (base_id a) "pressen_1" then 1 else 0).
Proof.
  unfold pressen1_mix, from_reman, from_new.
  destruct (String.eqb _ _); [|lia].
  destruct (bool_decide _); cbn; lia.
Qed.

(** A runner counts a unit in the mix exactly when it is the priority runner
    of [pressen_1] and has just published. *)
Lemma run_station_mix pr a l v now bufs hp m e g l' m' y :
  run_station pr a l v now bufs hp m e g = Some (l', m', y) →
  from_reman m <= from_reman m' ∧
  from_new m <= from_new m' ∧
  from_reman m' + from_new m' =
    from_reman m + from_new m +
    match st_pc l with
    | ST_out_put =>
        if pr then if String.eqb (base_id a) "pressen_1" then 1 else 0 else 0
    | _ => 0
    end.
Proof.
  unfold run_station, station_process, station_publish. intros H.
  assert (∀ m1 m2, mix m1 = mix m2 →
            from_reman m2 <= from_reman m1 ∧ from_new m2 <= from_new m1 ∧
            from_reman m1 + from_new m1 = from_reman m2 + from_new m2 + 0)
    as Hsame.
  { intros m1 m2 Hm.
    assert (from_reman m1 = from_reman m2) as E1
      by exact (f_equal fst Hm).
    assert (from_new m1 = from_new m2) as E2 by exact (f_equal snd Hm).
    lia. }
  assert (∀ l2 : StationLocal,
            let m2 := _add_resources m (base_id a)
                        (default (0%Q, 0%Q) (station_intensity m !! base_id a)).1
                        (default (0%Q, 0%Q) (station_intensity m !! base_id a)).2 in
            let m3 := if pr then pressen1_mix a l m2 else m2 in
            from_reman m <= from_reman m3 ∧ from_new m <= from_new m3 ∧
            from_reman m3 + from_new m3 =
              from_reman m + from_new m +
              (if pr then if String.eqb (base_id a) "pressen_1" then 1 else 0
               else 0)) as Hout.
  { intros _ m2 m3. subst m3.
    assert (from_reman m2 = from_reman m) as E1 by done.
    assert (from_new m2 = from_new m) as E2 by done.
    destruct pr.
    - pose proof (mix_of_pressen1 a l m2). lia.
    - lia. }
  destruct (st_pc l) eqn:Hpc.
  - destruct (station_top _ _ _ _) as [[l1 y1]|]; simplify_eq/=. by apply Hsame.
  - destruct (station_top _ _ _ _) as [[l1 y1]|]; simplify_eq/=. by apply Hsame.
  - destruct v; simplify_eq/=.
    destruct (uses_workers hp a); simplify_eq/=; apply Hsame; [done|].
    apply mix_of_begin.
  - simplify_eq/=. apply Hsame, mix_of_begin.
  - destruct (uses_workers hp a); simplify_eq/=; [apply Hsame, mix_of_end|].
    destruct (item l); simplify_eq/=. apply Hsame, mix_of_end.
  - destruct (item l); simplify_eq/=. by apply Hsame.
  - specialize (Hout l). cbn zeta in Hout.
    destruct (ext_le0 _).
    + destruct (Py.gt _ 0).
      * by simplify_eq/=.
      * destruct (station_top _ _ _ _) as [[l1 y1]|]; simplify_eq/=.
        match goal with
        | |- context [metrics_update a ?l2 ?X] =>
            assert (mix (metrics_update a l2 X) = mix X) as Hm
              by apply mix_of_update
        end.
        rewrite (f_equal fst Hm : from_reman _ = from_reman _),
          (f_equal snd Hm : from_new _ = from_new _). done.
    + destruct (station_top _ _ _ _) as [[l1 y1]|]; simplify_eq/=.
      match goal with
      | |- context [metrics_update a ?l2 ?X] =>
          assert (mix (metrics_update a l2 X) = mix X) as Hm
            by apply mix_of_update
      end.
      rewrite (f_equal fst Hm : from_reman _ = from_reman _),
        (f_equal snd Hm : from_new _ = from_new _). done.
  - destruct (station_top _ _ _ _) as [[l1 y1]|]; simplify_eq/=.
    apply Hsame, mix_of_update.
Qed.

(** Only station runners touch the mix counters. *)
Lemma resume_mix_frame b v now bufs hp m e g b' m' y :
  resume_body b v now bufs hp m e g = Some (b', m', y) →
  station_args_of b = None → mix m' = mix m.
Proof.
  destruct b as [rate stop st|inter stop st|delay pc held|pc toggle|pr a l
                |input started|every rows]; cbn; intros H Hb; try done.
  - unfold new_orders_source in H. by crunch H.
  - unfold returns_source in H. by crunch H.
  - destruct (reverse_shortcut _ _ _ _ _) as [[[??]?]|]; by simplify_eq/=.
  - destruct (reman_merge_feeder _ _ _ _) as [[[??]?]|]; by simplify_eq/=.
  - unfold sink_consumer in H. simplify_eq/=. by destruct started.
  - by simplify_eq/=.
Qed.

Lemma mix_inv_step s s' : step_kind s s' → mix_inv s → mix_inv s'.
Proof.
  intros Hstep (Hfresh & Hr & Hn & Hsum). unfold mix_inv.
  destruct Hstep as [t Ht Hcan ->|i p u Hi Hst Hu ->
                    |i p r bufs pool v d Hi Hst Hreq ->
                    |i p v e g b m y bufs pool st d Hi Hst Hrun Hok Hset ->];
    cbn [procs metrics]; [done|..];
    pose proof (Forall_lookup_1 _ _ _ _ Hfresh Hi) as Hp;
    rewrite (sum_procs_insert _ _ _ _ _ Hi); cbn [body].
  - split_and!; [by apply Forall_insert|lia..].
  - split_and!; [by apply Forall_insert|lia..].
  - destruct (station_args_of (body p)) as [a0|] eqn:Hb.
    + destruct (body p) as [| | | |pr a l| |] eqn:Hbody; cbn in Hb; try done.
      clear Hb. cbn in Hrun.
      destruct (run_station _ _ _ _ _ _ _ _ _ _) as [[[l' m1] y1]|] eqn:Hst';
        [|done].
      simplify_eq/=.
      destruct (run_station_books _ _ _ _ _ _ _ _ _ _ _ _ _ Hst')
        as (Hns & _ & Hbk).
      destruct (run_station_mix _ _ _ _ _ _ _ _ _ _ _ _ _ Hst')
        as (Hr' & Hn' & Hsum').
      unfold fresh_inv in Hp. rewrite Hbody in Hp.
      split_and!; [apply Forall_insert; [done|]; unfold fresh_inv; by cbn
                  |lia|lia|].
      rewrite Hsum'.
      destruct (st_pc l) eqn:Hpc; destruct Hbk as (Hprod & _); rewrite Hprod;
        try rewrite (Hp eq_refl);
        destruct pr; try lia; destruct (String.eqb _ _); lia.
    + pose proof (resume_mix_frame _ _ _ _ _ _ _ _ _ _ _ Hrun Hb) as Hm.
      pose proof (resume_same_kind _ _ _ _ _ _ _ _ _ _ _ Hrun) as Hkind.
      rewrite (f_equal fst Hm : from_reman _ = from_reman _),
        (f_equal snd Hm : from_new _ = from_new _).
      assert (mixed (body p) = 0 ∧ mixed b = 0) as [-> ->].
      { destruct (body p), b; done. }
      split_and!; [|lia..].
      apply Forall_insert; [done|]. unfold fresh_inv. cbn [body].
      destruct (body p), b; done.
Qed.

Lemma mix_inv_reachable cfg s0 sched s :
  init_sim cfg = Some s0 → exec sched s0 = Some s → mix_inv s.
Proof.
  intros H0 Hx. revert Hx. apply (exec_step_kind mix_inv).
  - intros s1 s2 HI Hstep. by eapply mix_inv_step.
  - destruct (init_registered _ _ H0) as (_ & Hm & Hreg).
    unfold mix_inv. rewrite Hm. split_and!; try done.
    + eapply Forall_impl; [exact Hreg|]. intros q (_ & _ & Hq).
      unfold fresh_inv. destruct (body q); try done.
      by destruct Hq as [-> _].
    + rewrite sum_procs_zero; [done|].
      eapply Forall_impl; [exact Hreg|]. intros q (_ & _ & Hq).
      destruct (body q) as [| | | |pr a l| |]; try done. cbn.
      destruct Hq as [-> _]. destruct pr; [|done].
      by destruct (String.eqb _ _).
Qed.

(** X19: the mix counters and the reman share.  In every state a run
    reaches, the two mix counters (an absent key read as zero) are not
    negative and add up to the number of units the priority runner of
    [pressen_1] has published and counted.  The reman share computed from
    them is 0 while nothing has been counted; otherwise it is the
    percentage [100 * reman / (reman + new)] rounded to a hundredth next to
    it ([n / 100] for an integer [n] that differs from a hundred times the
    percentage by no more than one half, whichever neighbour the float
    rounding takes at an exact tie), and it lies between 0 and 100. *)
Theorem reman_share_is_a_percentage (cfg : Config) (s0 s : Sim)
    (sched : list Action) :
  init_sim cfg = Some s0 →
  exec sched s0 = Some s →
  0 <= from_reman (metrics s) ∧
  0 <= from_new (metrics s) ∧
  from_reman (metrics s) + from_new (metrics s) =
    sum_procs (fun p => mixed (body p)) (procs s) ∧
  (∀ up, (0 <= reman_share up (metrics s) <= 100)%Q) ∧
  (from_reman (metrics s) + from_new (metrics s) = 0 →
   ∀ up, reman_share up (metrics s) = 0%Q) ∧
  (0 < from_reman (metrics s) + from_new (metrics s) →
   ∀ up, ∃ n : Z,
     reman_share up (metrics s) = (inject_Z n / 100)%Q ∧
     (inject_Z n - (1 # 2) <=
        100 * inject_Z (from_reman (metrics s)) /
        inject_Z (from_reman (metrics s) + from_new (metrics s)) * 100 <=
      inject_Z n + (1 # 2))%Q).
Proof.
  intros H0 Hx.
  destruct (mix_inv_reachable _ _ _ _ H0 Hx) as (_ & Hr & Hn & Hsum).
  split; [done|]. split; [done|]. split; [done|]. split_and!.
  - intros up. unfold reman_share. unfold from_reman, from_new in Hr, Hn.
    set (reman := default 0 (pressen1_from_reman (metrics s))) in *.
    set (new_ := default 0 (pressen1_from_new (metrics s))) in *.
    destruct (_ >? 0) eqn:Hpos; [|lra].
    apply Z.gtb_lt in Hpos.
    apply round2_percent.
    assert (0 < inject_Z (reman + new_))%Q as Htot.
    { change 0%Q with (inject_Z 0). by rewrite <- Zlt_Qlt. }
    assert (0 <= inject_Z reman)%Q as Hr0.
    { change 0%Q with (inject_Z 0). by rewrite <- Zle_Qle. }
    assert (inject_Z reman <= inject_Z (reman + new_))%Q as Hle.
    { rewrite <- Zle_Qle. lia. }
    split.
    + apply Qle_shift_div_l; [done|]. lra.
    + apply Qle_shift_div_r; [done|]. lra.
  - intros Hz up. unfold reman_share. unfold from_reman, from_new in Hz.
    rewrite Hz. done.
  - intros Hpos up. unfold reman_share. unfold from_reman, from_new in *.
    apply Z.gtb_lt in Hpos. rewrite Hpos.
    apply round2_nearest.
Qed.

Lemma reman_share_is_a_percentage_witness :
  init_sim mix_cfg = Some (run_from_init mix_cfg []) ∧
  exec mix_sched (run_from_init mix_cfg []) = Some mix_state ∧
  from_reman (metrics mix_state) = 1 ∧
  from_new (metrics mix_state) = 2 ∧
  reman_share false (metrics mix_state) = (3333 # 100)%Q ∧
  (0 <= reman_share false (metrics mix_state) <= 100)%Q.
Proof.
  assert (H0 : init_sim mix_cfg = Some (run_from_init mix_cfg []))
    by (vm_compute; reflexivity).
  assert (Hx : exec mix_sched (run_from_init mix_cfg []) = Some mix_state)
    by (vm_compute; reflexivity).
  destruct (reman_share_is_a_percentage mix_cfg _ mix_state
              mix_sched H0 Hx) as (_ & _ & _ & Hshare & _).
  split; [exact H0|]. split; [exact Hx|].
  split; [vm_compute; reflexivity|]. split; [vm_compute; reflexivity|].
  split; [vm_compute; reflexivity|]. exact (Hshare false).
Defined.
